(** * libdenavit: cross-section capacity analysis

    A shallow embedding of

    - [libdenavit/section/ACI_strain_compatibility.py]: the two material
      laws and the closed-form strain-compatibility engine, and
    - [libdenavit/cross_section_2d.py]: the adaptive continuation
      controller [run_ops_analysis], its limit-point search and the
      interaction sweep [run_ops_interaction].

    Conventions.  Python floats are read as exact rational numbers:
    every literal of the source ([0.85], [1e-3], ...) is the rational it
    denotes and binary64 rounding is not modelled.  The controller also
    has to carry the non-finite values a solver can hand back, so its
    numbers are the rationals extended with the two infinities and NaN
    (module [PyFloat]).  Exceptions are values of [exn]; a function that
    can raise returns a [result].  [print] output is not modelled. *)

From Stdlib Require Import QArith Qminmax Qabs Qround Lqa ZArith Lia List String Ascii Bool.
From stdpp Require Import base gmap.
Import ListNotations.

(* ================================================================== *)
(** ** Exceptions and results *)

Inductive exn : Type :=
| ValueError (msg : string)
| Exception (msg : string)
| AttributeError (msg : string)
| ZeroDivisionError
| IndexError
| KeyError.

(** [Diverged] is not a Python outcome: it marks a run of a [while True]
    loop that was cut off by the fuel of the model. *)
Inductive result (A : Type) : Type :=
| Ok (a : A)
| Raise (e : exn)
| Diverged.

Arguments Ok {A} a.
Arguments Raise {A} e.
Arguments Diverged {A}.

Definition rbind {A B : Type} (m : result A) (k : A -> result B) : result B :=
  match m with
  | Ok a => k a
  | Raise e => Raise e
  | Diverged => Diverged
  end.

Declare Scope result_scope.
Delimit Scope result_scope with result.
Notation "'try!' p ':=' m 'in' k" :=
  (rbind m (fun p => k))
  (at level 10, p pattern, m at level 100, k at level 200) : result_scope.

(** [str.lower] on the ASCII letters; other bytes are left alone.  No
    character outside ASCII lowers to one of the letters the source
    compares against, so the restriction does not change any test. *)
Definition lower_ascii (c : ascii) : ascii :=
  let n := nat_of_ascii c in
  if ((65 <=? n) && (n <=? 90))%nat then ascii_of_nat (n + 32) else c.

Fixpoint lower (s : string) : string :=
  match s with
  | EmptyString => EmptyString
  | String c s' => String (lower_ascii c) (lower s')
  end.

(** [sub in s] for strings. *)
Fixpoint contains (sub s : string) : bool :=
  String.prefix sub s
  || match s with
     | EmptyString => false
     | String _ s' => contains sub s'
     end.

(* ================================================================== *)
(** ** Material laws ([ACI_strain_compatibility.py], lines 5-83) *)

Module Material.
Local Open Scope Q_scope.
Local Open Scope result_scope.

Record AciStrainCompatibilitySteelMaterial : Type := SteelMaterial {
  Fy : Q;
  Es : Q
}.

(** [ey]: [Fy / Es]; Python raises on a zero divisor. *)
Definition ey (m : AciStrainCompatibilitySteelMaterial) : result Q :=
  if Qeq_bool (Es m) 0 then Raise ZeroDivisionError else Ok (Fy m / Es m).

(** One turn of the loop of the steel [get_stress]. *)
Definition steel_stress (m : AciStrainCompatibilitySteelMaterial) (value : Q)
  : result Q :=
  try! y := ey m in
  if Qle_bool value (- y) then Ok (- Fy m)
  else if Qle_bool value y then Ok (value * Es m)
  else Ok (Fy m).

Fixpoint map_result {A B : Type} (f : A -> result B) (l : list A)
  : result (list B) :=
  match l with
  | [] => Ok []
  | x :: l' =>
      try! y := f x in
      try! ys := map_result f l' in
      Ok (y :: ys)
  end.

Definition steel_get_stress (m : AciStrainCompatibilitySteelMaterial)
  (strain : list Q) : result (list Q) :=
  map_result (steel_stress m) strain.

Record AciStrainCompatibilityConcreteMaterial : Type := ConcreteMaterial {
  fc : Q;
  units : string
}.

Definition extreme_concrete_compression_strain : Q := - 0.003.

Definition unsupported_units (u : string) : exn :=
  ValueError ("The given units (" ++ u ++ ") is not supported yet").

Definition beta1 (m : AciStrainCompatibilityConcreteMaterial) : result Q :=
  if String.eqb (lower (units m)) "us" then
    if Qle_bool (fc m) 4 then Ok 0.85
    else if Qle_bool (fc m) 8 then Ok (0.85 - 0.05 * (fc m - 4))
    else Ok 0.65
  else if String.eqb (lower (units m)) "si" then
    if Qle_bool (fc m) 28 then Ok 0.85
    else if Qle_bool (fc m) 55 then Ok (0.85 - 0.05 * (fc m - 28) / 7)
    else Ok 0.65
  else Raise (unsupported_units (units m)).

(** The concrete [get_stress]: [ecr] is computed once, before the loop,
    so unsupported units raise even on an empty strain array. *)
Definition concrete_get_stress (m : AciStrainCompatibilityConcreteMaterial)
  (strain : list Q) : result (list Q) :=
  try! b := beta1 m in
  let ecr := extreme_concrete_compression_strain * (1 - b) in
  Ok (map (fun value => if Qle_bool value ecr then - 0.85 * fc m else 0) strain).

(** What the registry [_materials] holds. *)
Inductive material : Type :=
| Steel (m : AciStrainCompatibilitySteelMaterial)
| Concrete (m : AciStrainCompatibilityConcreteMaterial).

Definition get_stress (mat : material) (strain : list Q) : result (list Q) :=
  match mat with
  | Steel m => steel_get_stress m strain
  | Concrete m => concrete_get_stress m strain
  end.

End Material.

(* ================================================================== *)
(** ** The strain-compatibility engine
       ([ACI_strain_compatibility.py], lines 86-210) *)

Module StrainCompatibility.
Import Material.
Local Open Scope Q_scope.
Local Open Scope result_scope.

(** One row of the boundary arrays [_*_boundary_x], [_*_boundary_y] and
    [_*_boundary_r]; [add_*_boundary] stacks one row on all three. *)
Record BoundaryPoint : Type := mkBoundaryPoint {
  bx : Q;
  by' : Q;
  br : Q
}.

(** One entry of the fiber arrays [(A, x, y, m)] of [build_data]. *)
Record Fiber : Type := mkFiber {
  fA : Q;
  fx : Q;
  fy : Q;
  fm : Z
}.

Record AciStrainCompatibility : Type := mkEngine {
  concrete_boundary : list BoundaryPoint;
  steel_boundary : list BoundaryPoint;
  materials : gmap Z material;
  uniq_mats : list Z;
  fibers : list Fiber
}.

Definition engine_extreme_concrete_compression_strain : Q := - 0.003.
Definition default_tensile_strain : Q := 0.005.

Definition Qltb (a b : Q) : bool := negb (Qle_bool b a).

Definition empty_reduction : exn :=
  ValueError "zero-size array to reduction operation which has no identity".

(** [np.amin] and [np.amax]. *)
Definition amin (l : list Q) : result Q :=
  match l with
  | [] => Raise empty_reduction
  | v :: l' => Ok (fold_left Qmin l' v)
  end.

Definition amax (l : list Q) : result Q :=
  match l with
  | [] => Raise empty_reduction
  | v :: l' => Ok (fold_left Qmax l' v)
  end.

(** The builtin [sum]: starts from 0 and adds from the left. *)
Definition py_sum (l : list Q) : Q := fold_left Qplus l 0.

(** [strain[ind]] and [stress[ind] = vals] for [ind = np.where(m == i)],
    the index set given as a mask over the fibers. *)
Fixpoint take_mask (mask : list bool) (l : list Q) : list Q :=
  match mask, l with
  | true :: mask', v :: l' => v :: take_mask mask' l'
  | false :: mask', _ :: l' => take_mask mask' l'
  | _, _ => []
  end.

Fixpoint put_mask (mask : list bool) (vals old : list Q) : list Q :=
  match mask, old with
  | true :: mask', o :: old' =>
      match vals with
      | v :: vals' => v :: put_mask mask' vals' old'
      | [] => o :: put_mask mask' [] old'
      end
  | false :: mask', o :: old' => o :: put_mask mask' vals old'
  | _, _ => old
  end.

Section Engine.

(** [math.sin] and [math.cos]. *)
Variables sin cos : Q -> Q.
Variable self : AciStrainCompatibility.

(** The signed distance [a * x + b * y + c] of a point from the neutral
    axis through [(xpt, ypt)] at [angle]. *)
Definition line_distance (xpt ypt angle px py : Q) : Q :=
  let a := sin angle in
  let b := - cos angle in
  let c := - sin angle * xpt + cos angle * ypt in
  a * px + b * py + c.

Definition extreme_concrete_compression_fiber (xpt ypt angle : Q) : result Q :=
  amin (map (fun p => line_distance xpt ypt angle (bx p) (by' p) - br p)
            (concrete_boundary self)).

Definition extreme_steel_tension_fiber (xpt ypt angle : Q) : result Q :=
  amax (map (fun p => line_distance xpt ypt angle (bx p) (by' p) + br p)
            (steel_boundary self)).

Definition extreme_steel_tensile_strain (xpt ypt angle : Q) : result Q :=
  try! yc := extreme_concrete_compression_fiber xpt ypt angle in
  try! yt := extreme_steel_tension_fiber xpt ypt angle in
  let ec := engine_extreme_concrete_compression_strain in
  if Qltb yc 0 then Ok (yt * (ec / yc)) else Ok default_tensile_strain.

(** Lines 193-197 of [compute_point]: the strain of every fiber. *)
Definition fiber_strains (xpt ypt angle : Q) : result (list Q) :=
  try! y_ecf := extreme_concrete_compression_fiber xpt ypt angle in
  if Qltb y_ecf 0 then
    Ok (map (fun f => engine_extreme_concrete_compression_strain / y_ecf
                      * line_distance xpt ypt angle (fx f) (fy f))
            (fibers self))
  else
    Ok (map (fun one => default_tensile_strain * one)
            (repeat 1 (length (fibers self)))).

(** Lines 199-203: the loop over [uniq_mats], one material at a time. *)
Fixpoint stress_loop (mats : list Z) (strain stress : list Q)
  : result (list Q) :=
  match mats with
  | [] => Ok stress
  | i :: mats' =>
      let ind := map (fun f => Z.eqb (fm f) i) (fibers self) in
      match materials self !! i with
      | None => Raise KeyError
      | Some mat =>
          try! s := get_stress mat (take_mask ind strain) in
          stress_loop mats' strain (put_mask ind s stress)
      end
  end.

Definition fiber_stresses (strain : list Q) : result (list Q) :=
  stress_loop (uniq_mats self) strain (repeat 0 (length (fibers self))).

Definition compute_point (xpt ypt angle : Q) : result (Q * Q * Q * Q) :=
  try! strain := fiber_strains xpt ypt angle in
  try! stress := fiber_stresses strain in
  let sf := combine stress (fibers self) in
  let P := py_sum (map (fun '(s, f) => s * fA f) sf) in
  let Mx := py_sum (map (fun '(s, f) => s * fA f * - fy f) sf) in
  let My := py_sum (map (fun '(s, f) => s * fA f * fx f) sf) in
  try! et := extreme_steel_tensile_strain xpt ypt angle in
  Ok (P, Mx, My, et).

End Engine.

End StrainCompatibility.

(* ================================================================== *)
(** ** Numbers of the controller *)

Module PyFloat.

(** A float of the controller: a rational, an infinity or NaN. *)
Inductive pyfloat : Type :=
| Fin (q : Q)
| PosInf
| NegInf
| NaN.

Definition is_finite (a : pyfloat) : bool :=
  match a with
  | Fin _ => true
  | _ => false
  end.

(** Finite results are kept in lowest terms. *)
Definition fin (q : Q) : pyfloat := Fin (Qred q).

Definition of_Z (n : Z) : pyfloat := Fin (inject_Z n).

Definition fneg (a : pyfloat) : pyfloat :=
  match a with
  | Fin q => fin (- q)
  | PosInf => NegInf
  | NegInf => PosInf
  | NaN => NaN
  end.

Definition fadd (a b : pyfloat) : pyfloat :=
  match a, b with
  | NaN, _ | _, NaN => NaN
  | Fin p, Fin q => fin (p + q)
  | PosInf, NegInf | NegInf, PosInf => NaN
  | PosInf, _ | _, PosInf => PosInf
  | NegInf, _ | _, NegInf => NegInf
  end.

Definition fsub (a b : pyfloat) : pyfloat := fadd a (fneg b).

(** The infinity of the sign of [c * s], [s] being [Gt] or [Lt]; the
    product of an infinity with zero is NaN. *)
Definition signed_inf (c : comparison) (positive : bool) : pyfloat :=
  match c with
  | Eq => NaN
  | Gt => if positive then PosInf else NegInf
  | Lt => if positive then NegInf else PosInf
  end.

Definition Qsign (q : Q) : comparison := (Qnum q ?= 0)%Z.

Definition fmul (a b : pyfloat) : pyfloat :=
  match a, b with
  | NaN, _ | _, NaN => NaN
  | Fin p, Fin q => fin (p * q)
  | Fin p, PosInf | PosInf, Fin p => signed_inf (Qsign p) true
  | Fin p, NegInf | NegInf, Fin p => signed_inf (Qsign p) false
  | PosInf, PosInf | NegInf, NegInf => PosInf
  | PosInf, NegInf | NegInf, PosInf => NegInf
  end.

(** [a / b]: Python raises on a zero divisor. *)
Definition fdiv (a b : pyfloat) : result pyfloat :=
  match a, b with
  | _, Fin q =>
      match Qsign q with
      | Eq => Raise ZeroDivisionError
      | c =>
          match a with
          | Fin p => Ok (fin (p / q))
          | PosInf => Ok (signed_inf c true)
          | NegInf => Ok (signed_inf c false)
          | NaN => Ok NaN
          end
      end
  | NaN, _ | _, NaN => Ok NaN
  | Fin _, _ => Ok (Fin 0)
  | _, _ => Ok NaN
  end.

(** [a / k] for a positive integer literal [k]: it cannot raise. *)
Definition fdiv_lit (a : pyfloat) (k : positive) : pyfloat :=
  match a with
  | Fin p => fin (p / inject_Z (Zpos k))
  | _ => a
  end.

(** [a < b] and [a > b]; every comparison with NaN is false. *)
Definition flt (a b : pyfloat) : bool :=
  match a, b with
  | NaN, _ | _, NaN => false
  | Fin p, Fin q => negb (Qle_bool q p)
  | NegInf, NegInf | PosInf, _ => false
  | NegInf, _ | _, PosInf => true
  | Fin _, NegInf => false
  end.

Definition fgt (a b : pyfloat) : bool := flt b a.

Definition fabs (a : pyfloat) : pyfloat :=
  match a with
  | Fin q => fin (Qabs q)
  | PosInf | NegInf => PosInf
  | NaN => NaN
  end.

(** The builtin [max(a, b)]: the first argument unless the second is
    greater. *)
Definition py_max2 (a b : pyfloat) : pyfloat := if fgt b a then b else a.

(** The builtin [max] of a list; it raises on an empty one. *)
Definition py_max (l : list pyfloat) : result pyfloat :=
  match l with
  | [] => Raise (ValueError "max() arg is an empty sequence")
  | a :: l' => Ok (fold_left py_max2 l' a)
  end.

End PyFloat.

(* ================================================================== *)
(** ** The equilibrium solver, as the controller sees it *)

Module Ops.
Import PyFloat.

Inductive integrator_spec : Type :=
| LoadControl (incr : pyfloat)
| DisplacementControl (node dof : Z) (incr : pyfloat).

(** The configuration calls of [openseespy] the controller makes;
    [build_ops_model] stands for the whole of that method. *)
Inductive command : Type :=
| build_ops_model (section_id : Z)
| timeSeries (kind : string) (tag : Z)
| pattern (kind : string) (tag ts_tag : Z)
| load (node : Z) (f1 f2 f3 : pyfloat)
| integrator (i : integrator_spec)
| system (name : string) (flags : list string)
| test (name : string) (tol : pyfloat) (iter : Z)
| numberer (name : string)
| constraints (name : string)
| algorithm (name : string)
| analysis (name : string)
| loadConst (time : pyfloat).

(** The solver is a black box with a state of its own. *)
Class Solver (S : Type) : Type := {
  exec : command -> S -> S;
  (** [ops.analyze(1)]: the status, 0 for a converged increment *)
  analyze : S -> Z * S;
  getTime : S -> pyfloat;
  (** [ops.eigen("-fullGenLapack", 1)[0]] *)
  eigen : S -> pyfloat * S;
  nodeDisp : Z -> Z -> S -> pyfloat;
  eleForce : Z -> Z -> S -> pyfloat
}.

(** What the controller asked of the solver, oldest first. *)
Inductive event : Type :=
| Command (c : command)
| Analyze (status : Z).

Record world (S : Type) : Type := mkWorld {
  solver : S;
  log : list event
}.

Arguments mkWorld {S} solver log.
Arguments solver {S} w.
Arguments log {S} w.

(** Controller code: it reads and changes the solver and may raise. *)
Definition ctl (S A : Type) : Type := world S -> result A * world S.

Definition ret {S A : Type} (a : A) : ctl S A := fun w => (Ok a, w).

Definition raise {S A : Type} (e : exn) : ctl S A := fun w => (Raise e, w).

Definition lift {S A : Type} (r : result A) : ctl S A := fun w => (r, w).

Definition bind {S A B : Type} (m : ctl S A) (k : A -> ctl S B) : ctl S B :=
  fun w =>
    match m w with
    | (Ok a, w') => k a w'
    | (Raise e, w') => (Raise e, w')
    | (Diverged, w') => (Diverged, w')
    end.

Declare Scope ctl_scope.
Delimit Scope ctl_scope with ctl.
Notation "'let*' p ':=' m 'in' k" :=
  (bind m (fun p => k))
  (at level 10, p pattern, m at level 100, k at level 200) : ctl_scope.
Notation "m ';;;' k" :=
  (bind m (fun _ => k))
  (at level 90, right associativity) : ctl_scope.

Section Calls.
Context {S : Type} `{Solver S}.

Definition ops (c : command) : ctl S unit :=
  fun w => (Ok tt, mkWorld (exec c (solver w)) (log w ++ [Command c])).

Definition ops_analyze : ctl S Z :=
  fun w =>
    let '(ok, s) := analyze (solver w) in
    (Ok ok, mkWorld s (log w ++ [Analyze ok])).

Definition ops_getTime : ctl S pyfloat :=
  fun w => (Ok (getTime (solver w)), w).

Definition ops_eigen : ctl S pyfloat :=
  fun w =>
    let '(v, s) := eigen (solver w) in
    (Ok v, mkWorld s (log w)).

Definition ops_nodeDisp (node dof : Z) : ctl S pyfloat :=
  fun w => (Ok (nodeDisp node dof (solver w)), w).

Definition ops_eleForce (ele dof : Z) : ctl S pyfloat :=
  fun w => (Ok (eleForce ele dof (solver w)), w).

End Calls.

End Ops.

(* ================================================================== *)
(** ** The adaptive continuation controller
       ([cross_section_2d.py], [run_ops_analysis], lines 34-348) *)

Module Controller.
Import PyFloat Ops.
Local Open Scope string_scope.
Local Open Scope result_scope.
Local Open Scope ctl_scope.

(** [AnalysisResults] with the attributes [run_ops_analysis] sets; an
    attribute that has not been set yet is [None]. *)
Record AnalysisResults : Type := mkResults {
  applied_axial_load : list pyfloat;
  maximum_abs_moment : list pyfloat;
  lowest_eigenvalue : list pyfloat;
  extreme_comp_strain : list pyfloat;
  maximum_concrete_compression_strain : list pyfloat;
  maximum_steel_strain : list pyfloat;
  exit_message : option string;
  applied_axial_load_at_limit_point : option pyfloat;
  maximum_abs_moment_at_limit_point : option pyfloat
}.

(** Lines 47-53: the results before the first record. *)
Definition new_results : AnalysisResults :=
  mkResults [] [] [] [] [] [] None None None.

(** [results.<series>.append(...)] for the five series of [record]. *)
Definition append_record (r : AnalysisResults) (p m ev ec es : pyfloat)
  : AnalysisResults :=
  mkResults (applied_axial_load r ++ [p]) (maximum_abs_moment r ++ [m])
    (lowest_eigenvalue r ++ [ev]) (extreme_comp_strain r)
    (maximum_concrete_compression_strain r ++ [ec])
    (maximum_steel_strain r ++ [es])
    (exit_message r) (applied_axial_load_at_limit_point r)
    (maximum_abs_moment_at_limit_point r).

Definition set_exit_message (r : AnalysisResults) (msg : string)
  : AnalysisResults :=
  mkResults (applied_axial_load r) (maximum_abs_moment r)
    (lowest_eigenvalue r) (extreme_comp_strain r)
    (maximum_concrete_compression_strain r) (maximum_steel_strain r)
    (Some msg) (applied_axial_load_at_limit_point r)
    (maximum_abs_moment_at_limit_point r).

Definition set_limit_point (r : AnalysisResults) (p m : pyfloat)
  : AnalysisResults :=
  mkResults (applied_axial_load r) (maximum_abs_moment r)
    (lowest_eigenvalue r) (extreme_comp_strain r)
    (maximum_concrete_compression_strain r) (maximum_steel_strain r)
    (exit_message r) (Some p) (Some m).

(** The keyword arguments of [run_ops_analysis]; a threshold that is
    [None] switches its monitor off. *)
Record options : Type := mkOptions {
  e : pyfloat;
  P : pyfloat;
  num_steps_vertical : nat;
  load_incr_factor : pyfloat;
  disp_incr_factor : pyfloat;
  eigenvalue_limit : option pyfloat;
  percent_load_drop_limit : option pyfloat;
  concrete_strain_limit : option pyfloat;
  steel_strain_limit : option pyfloat;
  try_smaller_steps : bool
}.

Definition default_options : options :=
  mkOptions (Fin 0) (Fin 0) 20 (Fin (1 # 100000)) (Fin (1 # 10000000))
    (Some (Fin 0)) (Some (Fin (5 # 100))) (Some (Fin (- (1 # 100))))
    (Some (Fin (5 # 100))) true.

(** [l[-1]]; the controller reads it only right after an append. *)
Definition last_of (l : list pyfloat) : pyfloat := List.last l NaN.

(** [l[i]] *)
Definition item (l : list pyfloat) (i : nat) : result pyfloat :=
  match nth_error l i with
  | Some v => Ok v
  | None => Raise IndexError
  end.

(** Modelled from the spec: [interpolate_list] is imported from the
    package's [__init__] and is not among the sources.  Section 4.2 has
    the locator "linearly interpolate between the bracketing two steps
    to obtain a fractional position" and "apply that fractional
    position" to a series: the value at index [ind] plus the fraction
    [x] of the step to index [ind + 1]; an index without a following
    step raises, as list indexing does. *)
Definition interpolate_list (l : list pyfloat) (ind : nat) (x : pyfloat)
  : result pyfloat :=
  try! lo := item l ind in
  try! hi := item l (ind + 1) in
  Ok (fadd lo (fmul x (fsub hi lo))).

(** [ok != 0] *)
Definition nonzero (ok : Z) : bool := negb (ok =? 0)%Z.

(** The tolerance [1e-3] of the convergence test both paths start with
    and go back to after a converged increment. *)
Definition tol_default : pyfloat := Fin (1 # 1000).

Section Analysis.
Context {S : Type} `{Solver S}.

(** [self.section.maximum_concrete_compression_strain] and
    [self.section.maximum_tensile_steel_strain], of the section object
    the controller was built with. *)
Variable section_maximum_concrete_compression_strain
  : pyfloat -> pyfloat -> pyfloat.
Variable section_maximum_tensile_steel_strain
  : pyfloat -> pyfloat -> pyfloat.

(** [find_limit_point_in_list], imported from the package's [__init__]
    and not among the sources: a series and a target value to an index
    and a fractional position. *)
Variable find_limit_point_in_list
  : list pyfloat -> option pyfloat -> result (nat * pyfloat).

Variable opts : options.

(** Lines 56-74. *)
Definition find_limit_point (results : AnalysisResults)
  : result AnalysisResults :=
  match exit_message results with
  | None =>
      Raise (AttributeError "'AnalysisResults' object has no attribute 'exit_message'")
  | Some msg =>
      try! ix :=
        (if contains "Analysis Failed" msg then
           try! top := py_max (maximum_abs_moment results) in
           find_limit_point_in_list (maximum_abs_moment results) (Some top)
         else if contains "Eigenvalue Limit" msg then
           find_limit_point_in_list (lowest_eigenvalue results)
             (eigenvalue_limit opts)
         else if contains
                   "Extreme Compressive Concrete Fiber Strain Limit Reached"
                   msg then
           find_limit_point_in_list
             (maximum_concrete_compression_strain results)
             (concrete_strain_limit opts)
         else if contains "Extreme Steel Fiber Strain Limit Reached" msg then
           find_limit_point_in_list (maximum_steel_strain results)
             (steel_strain_limit opts)
         else if contains "Load Drop Limit Reached" msg then
           try! top := py_max (maximum_abs_moment results) in
           find_limit_point_in_list (maximum_abs_moment results) (Some top)
         else Raise (Exception "Unknown limit point")) in
      try! p := interpolate_list (applied_axial_load results) (fst ix) (snd ix) in
      try! m := interpolate_list (maximum_abs_moment results) (fst ix) (snd ix) in
      Ok (set_limit_point results p m)
  end.

(** [record] of lines 92-102, and again of lines 202-212. *)
Definition record_time (results : AnalysisResults) : ctl S AnalysisResults :=
  let* time := ops_getTime in
  let* ev := ops_eigen in
  let* axial_strain := ops_nodeDisp 2 1 in
  let* curvatureX := ops_nodeDisp 2 3 in
  ret (append_record results time (Fin 0) ev
         (section_maximum_concrete_compression_strain axial_strain curvatureX)
         (section_maximum_tensile_steel_strain axial_strain curvatureX)).

(** [record] of lines 238-248. *)
Definition record_lateral (results : AnalysisResults)
  : ctl S AnalysisResults :=
  let* time := ops_getTime in
  let* force := ops_eleForce 1 3 in
  let* ev := ops_eigen in
  let* axial_strain := ops_nodeDisp 2 1 in
  let* curvatureX := ops_nodeDisp 2 3 in
  ret (append_record results (P opts) (fabs force) ev
         (section_maximum_concrete_compression_strain axial_strain curvatureX)
         (section_maximum_tensile_steel_strain axial_strain curvatureX)).

(** [if ok != 0: <retry>], the value of [ok] afterwards. *)
Definition if_failed (ok : Z) (retry : ctl S Z) : ctl S Z :=
  if nonzero ok then retry else ret ok.

(** The same for the two rungs that also change the step size. *)
Definition if_failed_reduce (ok : Z) (step : pyfloat) (retry : ctl S Z)
  : ctl S (Z * pyfloat) :=
  if nonzero ok then
    let* ok' := retry in
    if (ok' =? 0)%Z then ret (ok', fdiv_lit step 10) else ret (ok', step)
  else ret (ok, step).

(** Lines 108-146: one increment of the proportional path with its
    retries; the status and the step size afterwards. *)
Definition proportional_increment (load_incr : pyfloat)
  : ctl S (Z * pyfloat) :=
  let* ok := ops_analyze in
  let* (ok, load_incr) :=
    if try_smaller_steps opts then
      let* ok := if_failed ok
        (ops (integrator (LoadControl (fdiv_lit load_incr 10))) ;;;
         ops_analyze) in
      let* ok := if_failed ok
        (ops (integrator (LoadControl (fdiv_lit load_incr 100))) ;;;
         ops_analyze) in
      let* (ok, load_incr) := if_failed_reduce ok load_incr
        (ops (integrator (LoadControl (fdiv_lit load_incr 1000))) ;;;
         ops_analyze) in
      let* (ok, load_incr) := if_failed_reduce ok load_incr
        (ops (integrator (LoadControl (fdiv_lit load_incr 10000))) ;;;
         ops_analyze) in
      ret (ok, load_incr)
    else ret (ok, load_incr) in
  let* ok := if_failed ok
    (ops (algorithm "ModifiedNewton") ;;; ops_analyze) in
  let* ok := if_failed ok
    (ops (algorithm "KrylovNewton") ;;; ops_analyze) in
  let* ok := if_failed ok
    (ops (algorithm "KrylovNewton") ;;;
     ops (test "NormUnbalance" (Fin (1 # 100)) 10) ;;;
     ops_analyze) in
  ret (ok, load_incr).

(** Lines 257-305: the same for the lateral phase of the
    non-proportional path. *)
Definition lateral_increment (disp_incr : pyfloat) : ctl S (Z * pyfloat) :=
  let* ok := ops_analyze in
  let* (ok, disp_incr) :=
    if try_smaller_steps opts then
      let* ok := if_failed ok
        (ops (integrator (DisplacementControl 1 3 (fdiv_lit disp_incr 10))) ;;;
         ops_analyze) in
      let* ok := if_failed ok
        (ops (integrator (DisplacementControl 1 3 (fdiv_lit disp_incr 100))) ;;;
         ops_analyze) in
      let* (ok, disp_incr) := if_failed_reduce ok disp_incr
        (ops (integrator (DisplacementControl 1 3 (fdiv_lit disp_incr 1000))) ;;;
         ops_analyze) in
      let* (ok, disp_incr) := if_failed_reduce ok disp_incr
        (ops (integrator (DisplacementControl 1 3 (fdiv_lit disp_incr 10000))) ;;;
         ops_analyze) in
      ret (ok, disp_incr)
    else ret (ok, disp_incr) in
  let* ok := if_failed ok
    (ops (algorithm "ModifiedNewton") ;;; ops_analyze) in
  let* ok := if_failed ok
    (ops (algorithm "KrylovNewton") ;;; ops_analyze) in
  let* ok := if_failed ok
    (ops (algorithm "KrylovNewton") ;;;
     ops (test "NormUnbalance" (Fin (1 # 10000)) 10) ;;;
     ops_analyze) in
  ret (ok, disp_incr).

(** Lines 159-183: the monitors of the proportional path, in the order
    of the source; the running maximum afterwards and the exit message
    of the first monitor that fires. *)
Definition proportional_monitors (maximum_applied_axial_load : pyfloat)
  (results : AnalysisResults) : pyfloat * option string :=
  let current_applied_axial_load := last_of (applied_axial_load results) in
  let maximum_applied_axial_load :=
    match percent_load_drop_limit opts with
    | Some _ => py_max2 maximum_applied_axial_load current_applied_axial_load
    | None => maximum_applied_axial_load
    end in
  if match percent_load_drop_limit opts with
     | Some pct =>
         flt current_applied_axial_load
           (fmul (fsub (Fin 1) pct) maximum_applied_axial_load)
     | None => false
     end
  then (maximum_applied_axial_load, Some "Load Drop Limit Reached")
  else if match eigenvalue_limit opts with
          | Some limit => flt (last_of (lowest_eigenvalue results)) limit
          | None => false
          end
  then (maximum_applied_axial_load, Some "Eigenvalue Limit Reached")
  else if match concrete_strain_limit opts with
          | Some limit =>
              flt (last_of (maximum_concrete_compression_strain results)) limit
          | None => false
          end
  then (maximum_applied_axial_load,
        Some "Extreme Compressive Concrete Fiber Strain Limit Reached")
  else if match steel_strain_limit opts with
          | Some limit => fgt (last_of (maximum_steel_strain results)) limit
          | None => false
          end
  then (maximum_applied_axial_load,
        Some "Extreme Steel Fiber Strain Limit Reached")
  else (maximum_applied_axial_load, None).

(** Lines 318-342: the monitors of the lateral phase; [current_time] is
    [ops.getTime()]. *)
Definition lateral_monitors (maximum_time current_time : pyfloat)
  (results : AnalysisResults) : pyfloat * option string :=
  let maximum_time :=
    match percent_load_drop_limit opts with
    | Some _ => py_max2 maximum_time current_time
    | None => maximum_time
    end in
  if match percent_load_drop_limit opts with
     | Some pct => flt current_time (fmul (fsub (Fin 1) pct) maximum_time)
     | None => false
     end
  then (maximum_time, Some "Load Drop Limit Reached")
  else if match eigenvalue_limit opts with
          | Some _ => flt (last_of (lowest_eigenvalue results)) (Fin 0)
          | None => false
          end
  then (maximum_time, Some "Eigenvalue Limit Reached")
  else if match concrete_strain_limit opts with
          | Some limit =>
              flt (last_of (maximum_concrete_compression_strain results)) limit
          | None => false
          end
  then (maximum_time,
        Some "Extreme Compressive Concrete Fiber Strain Limit Reached")
  else if match steel_strain_limit opts with
          | Some limit => fgt (last_of (maximum_steel_strain results)) limit
          | None => false
          end
  then (maximum_time, Some "Extreme Steel Fiber Strain Limit Reached")
  else (maximum_time, None).

(** Lines 107-183: the [while True] loop of the proportional path, cut
    off after [fuel] increments. *)
Fixpoint proportional_loop (fuel : nat) (load_incr maximum : pyfloat)
  (results : AnalysisResults) : ctl S AnalysisResults :=
  match fuel with
  | O => lift Diverged
  | Datatypes.S fuel' =>
      let* (ok, load_incr) := proportional_increment load_incr in
      if (ok =? 0)%Z then
        ops (algorithm "Newton") ;;;
        ops (test "NormUnbalance" tol_default 10) ;;;
        ops (integrator (LoadControl load_incr)) ;;;
        let* results := record_time results in
        match proportional_monitors maximum results with
        | (_, Some msg) => ret (set_exit_message results msg)
        | (maximum, None) =>
            proportional_loop fuel' load_incr maximum results
        end
      else ret (set_exit_message results "Analysis Failed")
  end.

(** Lines 256-342: the loop of the lateral phase. *)
Fixpoint lateral_loop (fuel : nat) (disp_incr maximum_time : pyfloat)
  (results : AnalysisResults) : ctl S AnalysisResults :=
  match fuel with
  | O => lift Diverged
  | Datatypes.S fuel' =>
      let* (ok, disp_incr) := lateral_increment disp_incr in
      if (ok =? 0)%Z then
        ops (algorithm "Newton") ;;;
        ops (test "NormUnbalance" tol_default 10) ;;;
        ops (integrator (LoadControl disp_incr)) ;;;
        let* results := record_lateral results in
        let* current_time := ops_getTime in
        match lateral_monitors maximum_time current_time results with
        | (_, Some msg) => ret (set_exit_message results msg)
        | (maximum_time, None) =>
            lateral_loop fuel' disp_incr maximum_time results
        end
      else ret (set_exit_message results "Analysis Failed")
  end.

(** How a loop with a [return] in its body ends. *)
Inductive flow : Type :=
| Return (results : AnalysisResults)
| Next (results : AnalysisResults).

(** Lines 217-224: the vertical-load phase, [n] increments to go. *)
Fixpoint vertical_loop (n : nat) (results : AnalysisResults) : ctl S flow :=
  match n with
  | O => ret (Next results)
  | Datatypes.S n' =>
      let* ok := ops_analyze in
      if nonzero ok then
        ret (Return (set_exit_message results
                       "Analysis Failed In Vertical Loading"))
      else
        let* results := record_time results in
        vertical_loop n' results
  end.

(** Lines 77-186. *)
Definition proportional_limit_point (fuel : nat) : ctl S AnalysisResults :=
  ops (timeSeries "Linear" 1) ;;;
  ops (pattern "Plain" 1 1) ;;;
  ops (load 2 (Fin (-1)) (Fin 0) (e opts)) ;;;
  ops (integrator (LoadControl (load_incr_factor opts))) ;;;
  ops (system "SparseGeneral" ["-piv"]) ;;;
  ops (test "NormUnbalance" tol_default 10) ;;;
  ops (numberer "Plain") ;;;
  ops (constraints "Plain") ;;;
  ops (algorithm "Newton") ;;;
  ops (analysis "Static") ;;;
  ops_analyze ;;;
  let* results := record_time new_results in
  let* results :=
    proportional_loop fuel (load_incr_factor opts) (Fin 0) results in
  lift (find_limit_point results).

(** Lines 190-215: the set-up of the vertical-load phase and the first
    record. *)
Definition vertical_setup : ctl S AnalysisResults :=
  ops (timeSeries "Linear" 100) ;;;
  ops (pattern "Plain" 200 100) ;;;
  ops (load 2 (Fin (-1)) (Fin 0) (Fin 0)) ;;;
  ops (constraints "Plain") ;;;
  ops (numberer "RCM") ;;;
  ops (system "UmfPack" []) ;;;
  ops (test "NormUnbalance" tol_default 10) ;;;
  ops (algorithm "Newton") ;;;
  let* vertical_incr :=
    lift (fdiv (P opts) (of_Z (Z.of_nat (num_steps_vertical opts)))) in
  ops (integrator (LoadControl vertical_incr)) ;;;
  ops (analysis "Static") ;;;
  record_time new_results.

(** Lines 188-345. *)
Definition nonproportional_limit_point (fuel : nat) : ctl S AnalysisResults :=
  let* results := vertical_setup in
  let* ended := vertical_loop (num_steps_vertical opts) results in
  match ended with
  | Return results => ret results
  | Next results =>
      ops (loadConst (Fin 0)) ;;;
      ops (timeSeries "Linear" 101) ;;;
      ops (pattern "Plain" 201 101) ;;;
      ops (load 2 (Fin 0) (Fin 0) (Fin 1)) ;;;
      ops (integrator (DisplacementControl 2 3 (disp_incr_factor opts))) ;;;
      ops (analysis "Static") ;;;
      let* results := record_lateral results in
      let* results :=
        lateral_loop fuel (disp_incr_factor opts) (Fin 0) results in
      lift (find_limit_point results)
  end.

(** [run_ops_analysis]; [fuel] bounds the increments of each loop. *)
Definition run_ops_analysis (analysis_type : string) (fuel : nat)
  : ctl S AnalysisResults :=
  ops (build_ops_model 1) ;;;
  if String.eqb (lower analysis_type) "proportional_limit_point" then
    proportional_limit_point fuel
  else if String.eqb (lower analysis_type) "nonproportional_limit_point" then
    nonproportional_limit_point fuel
  else
    raise (ValueError ("Analysis type " ++ analysis_type ++ " not implemented")).

End Analysis.

(* ------------------------------------------------------------------ *)
(** *** The interaction sweep ([run_ops_interaction], lines 350-372) *)

(** The values the guard [P in [None, [None]]] compares. *)
#[warnings="-register-all"]
Inductive pyobj : Type :=
| PyNone
| PyFloat (a : pyfloat)
| PyList (l : list pyobj).

Definition feq (a b : pyfloat) : bool :=
  match a, b with
  | Fin p, Fin q => Qeq_bool p q
  | PosInf, PosInf | NegInf, NegInf => true
  | _, _ => false
  end.

Fixpoint py_eq (a b : pyobj) : bool :=
  match a, b with
  | PyNone, PyNone => true
  | PyFloat u, PyFloat v => feq u v
  | PyList l, PyList l' =>
      (fix all2 (l : list pyobj) (l' : list pyobj) : bool :=
         match l, l' with
         | [], [] => true
         | u :: l, v :: l' => py_eq u v && all2 l l'
         | _, _ => false
         end) l l'
  | _, _ => false
  end.

(** [a in l] *)
Definition py_in (a : pyobj) (l : list pyobj) : bool := existsb (py_eq a) l.

Section Interaction.
Context {S : Type} `{Solver S}.

Variable section_maximum_concrete_compression_strain
  : pyfloat -> pyfloat -> pyfloat.
Variable section_maximum_tensile_steel_strain
  : pyfloat -> pyfloat -> pyfloat.
Variable find_limit_point_in_list
  : list pyfloat -> option pyfloat -> result (nat * pyfloat).

Definition with_load_incr_factor (o : options) (f : pyfloat) : options :=
  mkOptions (e o) (P o) (num_steps_vertical o) f (disp_incr_factor o)
    (eigenvalue_limit o) (percent_load_drop_limit o)
    (concrete_strain_limit o) (steel_strain_limit o) (try_smaller_steps o).

Definition with_P (o : options) (p : pyfloat) : options :=
  mkOptions (e o) p (num_steps_vertical o) (load_incr_factor o)
    (disp_incr_factor o) (eigenvalue_limit o) (percent_load_drop_limit o)
    (concrete_strain_limit o) (steel_strain_limit o) (try_smaller_steps o).

Definition analysis (o : options) (analysis_type : string) (fuel : nat)
  : ctl S AnalysisResults :=
  run_ops_analysis section_maximum_concrete_compression_strain
    section_maximum_tensile_steel_strain find_limit_point_in_list o
    analysis_type fuel.

(** Lines 365-370: the loop [for i in range(1, num_points)], over the
    values of [i] still to come. *)
Fixpoint interaction_loop (num_points : nat) (nonprop_load_incr_factor : pyfloat)
  (fuel : nat) (todo : list nat) (Ps Ms : list pyfloat)
  : ctl S (list pyfloat * list pyfloat) :=
  match todo with
  | [] => ret (Ps, Ms)
  | i :: todo' =>
      let* P0 := lift (item Ps 0) in
      let* iP :=
        lift (fdiv (fmul P0 (of_Z (Z.of_nat num_points - 1 - Z.of_nat i)))
                   (of_Z (Z.of_nat num_points - 1))) in
      let* results :=
        analysis
          (with_load_incr_factor (with_P default_options iP)
             nonprop_load_incr_factor)
          "nonproportional_limit_point" fuel in
      let* top := lift (py_max (maximum_abs_moment results)) in
      interaction_loop num_points nonprop_load_incr_factor fuel todo'
        (Ps ++ [iP]) (Ms ++ [top])
  end.

(** [run_ops_interaction]: the lists under ['P'] and ['M']. *)
Definition run_ops_interaction (num_points : nat)
  (prop_load_incr_factor nonprop_load_incr_factor : pyfloat) (fuel : nat)
  : ctl S (list pyfloat * list pyfloat) :=
  let* results :=
    analysis (with_load_incr_factor default_options prop_load_incr_factor)
      "proportional_limit_point" fuel in
  let* top := lift (py_max (applied_axial_load results)) in
  let Ps := [top] in
  let Ms := [Fin 0] in
  if py_in (PyList (map PyFloat Ps)) [PyNone; PyList [PyNone]] then
    raise (ValueError "Analysis failed at axial only loading")
  else
    interaction_loop num_points nonprop_load_incr_factor fuel
      (seq 1 (num_points - 1)) Ps Ms.

End Interaction.

End Controller.

(* ================================================================== *)
(** ** A scripted solver and a sample locator, for running the model *)

Module Scripted.
Import PyFloat Ops Controller.

(** A test double of the solver: the statuses of the coming [analyze]
    calls and the eigenvalues of the coming [eigen] calls are scripted,
    a converged increment advances the clock by the current step, and
    the element moment reads the clock. *)
Record script : Type := mkScript {
  statuses : list Z;
  eigenvalues : list pyfloat;
  clock : pyfloat;
  step : pyfloat
}.

Definition script_exec (c : command) (s : script) : script :=
  match c with
  | build_ops_model _ => mkScript (statuses s) (eigenvalues s) (Fin 0) (Fin 0)
  | integrator (LoadControl d) | integrator (DisplacementControl _ _ d) =>
      mkScript (statuses s) (eigenvalues s) (clock s) d
  | loadConst t => mkScript (statuses s) (eigenvalues s) t (step s)
  | _ => s
  end.

Definition script_analyze (s : script) : Z * script :=
  match statuses s with
  | [] => (0%Z, mkScript [] (eigenvalues s) (fadd (clock s) (step s)) (step s))
  | 0%Z :: rest =>
      (0%Z, mkScript rest (eigenvalues s) (fadd (clock s) (step s)) (step s))
  | status :: rest => (status, mkScript rest (eigenvalues s) (clock s) (step s))
  end.

Definition script_eigen (s : script) : pyfloat * script :=
  match eigenvalues s with
  | [] => (Fin 1, s)
  | v :: rest => (v, mkScript (statuses s) rest (clock s) (step s))
  end.

#[export] Instance script_solver : Solver script := {|
  exec := script_exec;
  analyze := script_analyze;
  getTime := clock;
  eigen := script_eigen;
  nodeDisp := fun _ _ _ => Fin 0;
  eleForce := fun _ _ s => clock s
|}.

Definition start (sts : list Z) (evs : list pyfloat) : world script :=
  mkWorld (mkScript sts evs (Fin 0) (Fin 0)) [].

(** A section whose extreme strains are both the axial strain. *)
Definition flat_strain (axial_strain curvatureX : pyfloat) : pyfloat :=
  axial_strain.

(** A locator for the runs below: the first index of the series, at
    fraction zero; an empty series has no limit point. *)
Definition first_step (l : list pyfloat) (target : option pyfloat)
  : result (nat * pyfloat) :=
  match l with
  | [] => Raise IndexError
  | _ => Ok (0%nat, Fin 0)
  end.

End Scripted.

(* ================================================================== *)
(** ** The engine as an object: its set-up methods and the registry
       ([ACI_strain_compatibility.py], lines 93-134 and 177-180) *)

Module EngineObjects.
Import Material StrainCompatibility.
Local Open Scope string_scope.
Local Open Scope result_scope.

(** A positional argument of [add_material]: a number or a string. *)
Inductive argument : Type :=
| Float (q : Q)
| Str (s : string).

(** An object of one of the two material classes, with the attributes
    its [__init__] was given; [__init__] checks nothing. *)
Inductive material_object : Type :=
| SteelObject (Fy Es : argument)
| ConcreteObject (fc units : argument).

(** The material the laws of [Material] compute with, for an object
    whose attributes are of the types the constructors note: floats,
    and a string for [units]. *)
Definition typed (o : material_object) : option material :=
  match o with
  | SteelObject (Float Fy) (Float Es) => Some (Steel (SteelMaterial Fy Es))
  | ConcreteObject (Float fc) (Str units) =>
      Some (Concrete (ConcreteMaterial fc units))
  | _ => None
  end.

(** What [add_material] takes as [material_type]: an object of one of
    the two material classes, or a string. *)
Inductive material_type_arg : Type :=
| OfClass (o : material_object)
| OfName (s : string).

(** [fiber_section], by what its two methods return. *)
Record FiberSection : Type := mkFiberSection {
  unique_mat_ids : list Z;
  get_fiber_data : list Fiber
}.

(** The attributes of one engine.  A boundary array that has not been
    assigned on the object reads as the class attribute, the empty
    array; [uniq_mats] and the fiber arrays exist after [build_data]. *)
Record engine : Type := mkObject {
  fiber_section : FiberSection;
  axes_origin : string;
  _concrete_boundary : list BoundaryPoint;
  _steel_boundary : list BoundaryPoint;
  built : option (list Z * list Fiber)
}.

(** The class and its instances, by address.  [_materials] is an
    attribute of the class: one dict, which every engine reads and
    [add_material] changes in place. *)
Record heap : Type := mkHeap {
  _materials : gmap Z material_object;
  engines : list engine
}.

(** [AciStrainCompatibility(fiber_section, axes_origin)]: the address of
    the new engine and the heap with it. *)
Definition init (fiber_section : FiberSection) (axes_origin : string)
  (h : heap) : nat * heap :=
  (length (engines h),
   mkHeap (_materials h)
     (engines h ++ [mkObject fiber_section axes_origin [] [] None])).

(** [add_concrete_boundary(x, y, r)] and [add_steel_boundary(x, y, r)]
    for numbers [x], [y], [r]: [np.vstack] puts one row under each of
    the three arrays and the result is assigned on the object. *)
Definition add_concrete_boundary (self : nat) (x y r : Q) (h : heap) : heap :=
  mkHeap (_materials h)
    (alter (fun o => mkObject (fiber_section o) (axes_origin o)
                       (_concrete_boundary o ++ [mkBoundaryPoint x y r])
                       (_steel_boundary o) (built o))
           self (engines h)).

Definition add_steel_boundary (self : nat) (x y r : Q) (h : heap) : heap :=
  mkHeap (_materials h)
    (alter (fun o => mkObject (fiber_section o) (axes_origin o)
                       (_concrete_boundary o)
                       (_steel_boundary o ++ [mkBoundaryPoint x y r])
                       (built o))
           self (engines h)).

(** [args[i]] *)
Definition arg (args : list argument) (i : nat) : result argument :=
  match nth_error args i with
  | Some a => Ok a
  | None => Raise IndexError
  end.

(** [add_material(name, material_type, *args)].  The dict found through
    [self] is the one of the class. *)
Definition add_material (self : nat) (name : Z)
  (material_type : material_type_arg) (args : list argument) (h : heap)
  : result heap :=
  try! mat :=
    match material_type with
    | OfClass o => Ok o
    | OfName s =>
        if String.eqb (lower s) "steel" then
          try! a0 := arg args 0 in
          try! a1 := arg args 1 in
          Ok (SteelObject a0 a1)
        else if String.eqb (lower s) "concrete" then
          try! a0 := arg args 0 in
          try! a1 := arg args 1 in
          Ok (ConcreteObject a0 a1)
        else Raise (ValueError ("Unknown material type: " ++ s))
    end in
  Ok (mkHeap (<[name := mat]> (_materials h)) (engines h)).

(** [build_data()] *)
Definition build_data (self : nat) (h : heap) : heap :=
  mkHeap (_materials h)
    (alter (fun o => mkObject (fiber_section o) (axes_origin o)
                       (_concrete_boundary o) (_steel_boundary o)
                       (Some (unique_mat_ids (fiber_section o),
                              get_fiber_data (fiber_section o))))
           self (engines h)).

(** The engine the methods of [StrainCompatibility] compute with: the
    object at [self] after [build_data], with the materials of the
    class.  It is there when every material that [uniq_mats] names and
    the registry holds is a typed one. *)
Definition usable (m : gmap Z material_object) (i : Z) : bool :=
  match m !! i with
  | Some o => match typed o with Some _ => true | None => false end
  | None => true
  end.

Definition engine_of (h : heap) (self : nat) : option AciStrainCompatibility :=
  match engines h !! self with
  | Some o =>
      match built o with
      | Some (uniq_mats, fibers) =>
          if forallb (usable (_materials h)) uniq_mats then
            Some (mkEngine (_concrete_boundary o) (_steel_boundary o)
                    (omap typed (_materials h)) uniq_mats fibers)
          else None
      | None => None
      end
  | None => None
  end.

End EngineObjects.

(* ================================================================== *)
(** ** A solver that never fails, for running the model *)

Module Steady.
Import PyFloat Ops.

(** A solver on which every increment converges; its clock counts
    them. *)
#[export] Instance steady_solver : Solver nat := {|
  exec := fun _ s => s;
  analyze := fun s => (0%Z, Datatypes.S s);
  getTime := fun s => of_Z (Z.of_nat s);
  eigen := fun s => (Fin 1, s);
  nodeDisp := fun _ _ _ => Fin 0;
  eleForce := fun _ _ s => of_Z (Z.of_nat s)
|}.

End Steady.

(* ================================================================== *)
(** * Vocabulary of the properties *)

(** ** Material laws *)

Module MaterialSpec.
Import Material.
Local Open Scope Q_scope.

(** The elastic-perfectly-plastic law as one expression. *)
Definition plastic_law (m : AciStrainCompatibilitySteelMaterial) (s : Q) : Q :=
  let y := Fy m / Es m in
  if Qle_bool s (- y) then - Fy m
  else if Qle_bool s y then s * Es m
  else Fy m.

(** The unit systems [beta1] knows, in any letter case. *)
Definition supported (u : string) : Prop :=
  lower u = "us"%string \/ lower u = "si"%string.

(** [beta1] as a function of [fc], for a supported unit string. *)
Definition beta1_of (u : string) (f : Q) : Q :=
  if String.eqb (lower u) "us" then
    if Qle_bool f 4 then 0.85
    else if Qle_bool f 8 then 0.85 - 0.05 * (f - 4)
    else 0.65
  else
    if Qle_bool f 28 then 0.85
    else if Qle_bool f 55 then 0.85 - 0.05 * (f - 28) / 7
    else 0.65.

(** Away from the SI break point 55 the table is Lipschitz: both
    arguments on the same side of 55, or US units. *)
Definition same_piece (u : string) (f1 f2 : Q) : Prop :=
  lower u = "us"%string \/ (f1 <= 55 /\ f2 <= 55) \/ (55 < f1 /\ 55 < f2).

(** Continuity of the table in [fc] at [f], in terms of [beta1]. *)
Definition beta1_continuous_at (u : string) (f : Q) : Prop :=
  forall eps : Q, 0 < eps ->
    exists delta : Q, 0 < delta /\
      forall f' : Q, Qabs (f' - f) < delta ->
        exists b b' : Q,
          beta1 (ConcreteMaterial f u) = Ok b
          /\ beta1 (ConcreteMaterial f' u) = Ok b'
          /\ Qabs (b' - b) < eps.

(** Continuity as the specification states it: for US and for SI units
    [beta1] is continuous in [fc], everywhere. *)
Definition continuous_for_US_and_SI : Prop :=
  forall (u : string) (f : Q), supported u -> beta1_continuous_at u f.

End MaterialSpec.

(** ** The strain-compatibility engine *)

Module EngineSpec.
Import Material StrainCompatibility MaterialSpec.
Local Open Scope Q_scope.

(** The sum of a list, as mathematics writes it. *)
Fixpoint sigma (l : list Q) : Q :=
  match l with
  | [] => 0
  | v :: l' => v + sigma l'
  end.

(** [v] is the least element of [l]. *)
Definition is_minimum (v : Q) (l : list Q) : Prop :=
  In v l /\ Forall (fun d => v <= d) l.

(** [v] is the greatest element of [l]. *)
Definition is_maximum (v : Q) (l : list Q) : Prop :=
  In v l /\ Forall (fun d => d <= v) l.

(** The stress block of a concrete with [beta1 = b], one strain. *)
Definition block_law (cm : AciStrainCompatibilityConcreteMaterial) (b s : Q)
  : Q :=
  if Qle_bool s (extreme_concrete_compression_strain * (1 - b))
  then - 0.85 * fc cm else 0.

(** A material whose stress law cannot raise. *)
Definition material_ok (mat : material) : Prop :=
  match mat with
  | Steel m => ~ Es m == 0
  | Concrete m => supported (units m)
  end.

(** What the loop over the materials [mats] leaves in the stress array
    when every one of them follows [law]: the law at the strain of the
    fiber where the fiber's material is among [mats], the old entry
    elsewhere. *)
Fixpoint settle (mats : list Z) (law : Q -> Q) (fs : list Fiber)
  (strain stress : list Q) : list Q :=
  match fs, strain, stress with
  | f :: fs', s :: strain', o :: stress' =>
      (if existsb (Z.eqb (fm f)) mats then law s else o)
        :: settle mats law fs' strain' stress'
  | _, _, _ => []
  end.

Section Line.

Variables sin cos : Q -> Q.
Variable self : AciStrainCompatibility.
Variables xpt ypt angle : Q.

(** The signed distance of a point from the neutral axis. *)
Definition dist (px py : Q) : Q := line_distance sin cos xpt ypt angle px py.

(** The edge distances the two extreme-fiber queries range over. *)
Definition concrete_edges : list Q :=
  map (fun p => dist (bx p) (by' p) - br p) (concrete_boundary self).

Definition steel_edges : list Q :=
  map (fun p => dist (bx p) (by' p) + br p) (steel_boundary self).

(** Every material of [uniq_mats] is registered and cannot raise. *)
Definition registry_ok : Prop :=
  forall i : Z, In i (uniq_mats self) ->
    exists mat : material, materials self !! i = Some mat /\ material_ok mat.

(** The three resultants over the fibers, as sums. *)
Definition resultants (stress : list Q) : Q * Q * Q :=
  let sf := combine stress (fibers self) in
  (sigma (map (fun sf => fst sf * fA (snd sf)) sf),
   sigma (map (fun sf => fst sf * fA (snd sf) * - fy (snd sf)) sf),
   sigma (map (fun sf => fst sf * fA (snd sf) * fx (snd sf)) sf)).

(** No steel in the section: every material of [uniq_mats] is the
    concrete [cm], and every fiber is of one of them. *)
Definition all_concrete (cm : AciStrainCompatibilityConcreteMaterial) : Prop :=
  (forall i : Z, In i (uniq_mats self) ->
     materials self !! i = Some (Concrete cm))
  /\ Forall (fun f => In (fm f) (uniq_mats self)) (fibers self).

End Line.

(** A plain concrete section for running the engine: a strip of
    height 10 in two fibers, one (placeholder) bar position, and the
    neutral axis horizontal, so [sin] and [cos] are those of angle 0. *)
Definition sin0 (angle : Q) : Q := 0.
Definition cos0 (angle : Q) : Q := 1.

Definition plain_concrete : AciStrainCompatibilityConcreteMaterial :=
  ConcreteMaterial 4 "US".

Definition plain_section : AciStrainCompatibility :=
  mkEngine [mkBoundaryPoint 0 10 0; mkBoundaryPoint 0 0 0]
    [mkBoundaryPoint 0 1 0]
    {[ 1%Z := Concrete plain_concrete ]}
    [1%Z]
    [mkFiber 20 0 (5 # 2) 1; mkFiber 20 0 (15 # 2) 1].

End EngineSpec.

(** ** The continuation controller *)

Module ControllerSpec.
Import PyFloat Ops Controller.
Local Open Scope string_scope.
Local Open Scope list_scope.
Local Open Scope ctl_scope.

(** One rung of the retry ladder: the configuration calls made before
    the increment is tried again, and whether a converged retry narrows
    the step size for the increments to come. *)
Record rung : Type := mkRung {
  setup : list command;
  narrows : bool
}.

Definition proportional_ladder (step : pyfloat) : list rung :=
  [ mkRung [integrator (LoadControl (fdiv_lit step 10))] false;
    mkRung [integrator (LoadControl (fdiv_lit step 100))] false;
    mkRung [integrator (LoadControl (fdiv_lit step 1000))] true;
    mkRung [integrator (LoadControl (fdiv_lit step 10000))] true;
    mkRung [algorithm "ModifiedNewton"] false;
    mkRung [algorithm "KrylovNewton"] false;
    mkRung [algorithm "KrylovNewton";
            test "NormUnbalance" (Fin (1 # 100)) 10] false ].

Definition lateral_ladder (step tol : pyfloat) : list rung :=
  [ mkRung [integrator (DisplacementControl 1 3 (fdiv_lit step 10))] false;
    mkRung [integrator (DisplacementControl 1 3 (fdiv_lit step 100))] false;
    mkRung [integrator (DisplacementControl 1 3 (fdiv_lit step 1000))] true;
    mkRung [integrator (DisplacementControl 1 3 (fdiv_lit step 10000))] true;
    mkRung [algorithm "ModifiedNewton"] false;
    mkRung [algorithm "KrylovNewton"] false;
    mkRung [algorithm "KrylovNewton"; test "NormUnbalance" tol 10] false ].

(** The events of trying the rungs in order, with the statuses [sts]. *)
Fixpoint attempts (rungs : list rung) (sts : list Z) : list event :=
  match rungs, sts with
  | r :: rungs', st :: sts' =>
      map Command (setup r) ++ Analyze st :: attempts rungs' sts'
  | _, _ => []
  end.

(** Whether the attempt that ended the climb was on a narrowing rung. *)
Definition ended_on_narrowing (rungs : list rung) (sts : list Z) : bool :=
  match sts with
  | [] => false
  | _ :: sts' =>
      match nth_error rungs (length sts') with
      | Some r => narrows r
      | None => false
      end
  end.

Section Climb.
Context {S : Type} `{Solver S}.

(** The configuration calls of a list, in order. *)
Fixpoint ops_all (cs : list command) : ctl S unit :=
  match cs with
  | [] => ret tt
  | c :: cs' => ops c ;;; ops_all cs'
  end.

(** The ladder as the specification words it: while the increment has
    not converged, make the calls of the next rung and try again. *)
Fixpoint climb (rungs : list rung) (step : pyfloat) (ok : Z)
  : ctl S (Z * pyfloat) :=
  match rungs with
  | [] => ret (ok, step)
  | r :: rungs' =>
      if nonzero ok then
        ops_all (setup r) ;;;
        let* ok' := ops_analyze in
        if (ok' =? 0)%Z then
          ret (ok', if narrows r then fdiv_lit step 10 else step)
        else climb rungs' step ok'
      else ret (ok, step)
  end.

(** What a climb from [before] to [after] did: the first attempt and
    then the rungs in order, each attempt but the last a failure, up to
    the first converged attempt or the end of the ladder; and the step
    size left for the next increment. *)
Definition climbs (rungs : list rung) (step : pyfloat)
  (before after : world S) (ok : Z) (step' : pyfloat) : Prop :=
  exists (st0 : Z) (sts : list Z),
    log after = log before ++ Analyze st0 :: attempts rungs sts
    /\ (length sts <= length rungs)%nat
    /\ Forall (fun st => st <> 0%Z) (removelast (st0 :: sts))
    /\ ok = List.last (st0 :: sts) 0%Z
    /\ (ok <> 0%Z -> length sts = length rungs)
    /\ step' = if (ok =? 0)%Z && ended_on_narrowing rungs sts
               then fdiv_lit step 10 else step.

End Climb.

(** The exit conditions of the specification, and how the limit-point
    search tells them apart: by the first of its phrases that occurs in
    the exit message. *)
Inductive ExitCondition : Type :=
| AnalysisFailed
| EigenvalueLimit
| ConcreteStrainLimit
| SteelStrainLimit
| LoadDropLimit.

Definition exit_tag (msg : string) : option ExitCondition :=
  if contains "Analysis Failed" msg then Some AnalysisFailed
  else if contains "Eigenvalue Limit" msg then Some EigenvalueLimit
  else if contains "Extreme Compressive Concrete Fiber Strain Limit Reached"
            msg then Some ConcreteStrainLimit
  else if contains "Extreme Steel Fiber Strain Limit Reached" msg
  then Some SteelStrainLimit
  else if contains "Load Drop Limit Reached" msg then Some LoadDropLimit
  else None.

(** The exit messages the two loops of [run_ops_analysis] set. *)
Definition exit_message_of (tag : ExitCondition) : string :=
  match tag with
  | AnalysisFailed => "Analysis Failed"
  | EigenvalueLimit => "Eigenvalue Limit Reached"
  | ConcreteStrainLimit =>
      "Extreme Compressive Concrete Fiber Strain Limit Reached"
  | SteelStrainLimit => "Extreme Steel Fiber Strain Limit Reached"
  | LoadDropLimit => "Load Drop Limit Reached"
  end.

(** The series the search is made in, and the value searched for. *)
Definition governing_series (tag : ExitCondition) (r : AnalysisResults)
  : list pyfloat :=
  match tag with
  | AnalysisFailed | LoadDropLimit => maximum_abs_moment r
  | EigenvalueLimit => lowest_eigenvalue r
  | ConcreteStrainLimit => maximum_concrete_compression_strain r
  | SteelStrainLimit => maximum_steel_strain r
  end.

Definition governing_target (opts : options) (tag : ExitCondition)
  (r : AnalysisResults) : result (option pyfloat) :=
  match tag with
  | AnalysisFailed | LoadDropLimit =>
      rbind (py_max (maximum_abs_moment r)) (fun top => Ok (Some top))
  | EigenvalueLimit => Ok (eigenvalue_limit opts)
  | ConcreteStrainLimit => Ok (concrete_strain_limit opts)
  | SteelStrainLimit => Ok (steel_strain_limit opts)
  end.

(** The lengths of the five recorded series. *)
Definition history_lengths (r : AnalysisResults) : list nat :=
  [ length (applied_axial_load r); length (maximum_abs_moment r);
    length (lowest_eigenvalue r);
    length (maximum_concrete_compression_strain r);
    length (maximum_steel_strain r) ].

(** Every entry of a series is the constant 0. *)
Definition all_zero (l : list pyfloat) : Prop := Forall (eq (Fin 0)) l.

(** A monitor on a threshold that may be switched off. *)
Definition below (limit : option pyfloat) (v : pyfloat) : bool :=
  match limit with
  | Some l => flt v l
  | None => false
  end.

Definition above (limit : option pyfloat) (v : pyfloat) : bool :=
  match limit with
  | Some l => fgt v l
  | None => false
  end.

(** The load-drop monitor: the response [current] against the running
    maximum [maximum] it has been entered into. *)
Definition dropped (fraction : option pyfloat) (maximum current : pyfloat)
  : bool :=
  match fraction with
  | Some pct => flt current (fmul (fsub (Fin 1) pct) (py_max2 maximum current))
  | None => false
  end.

(** The message of the first check that holds. *)
Fixpoint first_hit (checks : list (bool * string)) : option string :=
  match checks with
  | [] => None
  | (true, msg) :: _ => Some msg
  | (false, _) :: checks' => first_hit checks'
  end.

(** The axial load of the [i]-th analysis of a sweep of [num_points]
    points below the capacity [top]. *)
Definition spaced (num_points : nat) (top : pyfloat) (i : nat) (iP : pyfloat)
  : Prop :=
  fdiv (fmul top (of_Z (Z.of_nat num_points - 1 - Z.of_nat i)))
       (of_Z (Z.of_nat num_points - 1)) = Ok iP.

Section Phases.
Context {S : Type} `{Solver S}.

Variable strain_c strain_s : pyfloat -> pyfloat -> pyfloat.
Variable locate : list pyfloat -> option pyfloat -> result (nat * pyfloat).
Variable opts : options.

(** The world after a [record]: only [ops.eigen] touches the solver. *)
Definition after_record (w : world S) : world S :=
  mkWorld (snd (eigen (solver w))) (log w).

(** The solver fails the vertical-load phase at its [k]-th increment:
    from [w], the first [k - 1] calls of [analyze] return 0, each
    followed by a record, and the [k]-th does not. *)
Fixpoint vertical_fails_at (k : nat) (w : world S) : Prop :=
  match k with
  | O => False
  | Datatypes.S k' =>
      let ok := fst (analyze (solver w)) in
      let w1 := mkWorld (snd (analyze (solver w))) (log w ++ [Analyze ok]) in
      match k' with
      | O => ok <> 0%Z
      | Datatypes.S _ => ok = 0%Z /\ vertical_fails_at k' (after_record w1)
      end
  end.

(** The world in which the vertical-load loop starts. *)
Definition vertical_start (w : world S) : world S :=
  snd ((ops (build_ops_model 1) ;;; vertical_setup strain_c strain_s opts) w).

(** The limit point the search of [tag] gives for the history [r]. *)
Definition limit_point_for (tag : ExitCondition) (r : AnalysisResults)
  : result AnalysisResults :=
  rbind (governing_target opts tag r) (fun target =>
  rbind (locate (governing_series tag r) target) (fun ix =>
  rbind (interpolate_list (applied_axial_load r) (fst ix) (snd ix)) (fun p =>
  rbind (interpolate_list (maximum_abs_moment r) (fst ix) (snd ix)) (fun m =>
  Ok (set_limit_point r p m))))).

(** Whatever the locator is asked, the fraction it returns is a finite
    number. *)
Definition finite_fractions : Prop :=
  forall (l : list pyfloat) (target : option pyfloat) (i : nat) (x : pyfloat),
    locate l target = Ok (i, x) -> is_finite x = true.

(** The non-proportional analyses of a sweep, one for each [i] of a
    list, run one after the other from one world to the next, with the
    pair of axial load and maximum moment each of them gives. *)
Inductive swept (num_points : nat) (nonprop : pyfloat) (fuel : nat)
  (top : pyfloat)
  : list nat -> world S -> list (pyfloat * pyfloat) -> world S -> Prop :=
| swept_nil (w : world S) : swept num_points nonprop fuel top [] w [] w
| swept_cons (i : nat) (todo : list nat) (w w1 w2 : world S)
    (iP m : pyfloat) (r : AnalysisResults) (pairs : list (pyfloat * pyfloat)) :
    spaced num_points top i iP ->
    analysis strain_c strain_s locate
      (with_load_incr_factor (with_P default_options iP) nonprop)
      "nonproportional_limit_point" fuel w = (Ok r, w1) ->
    py_max (maximum_abs_moment r) = Ok m ->
    swept num_points nonprop fuel top todo w1 pairs w2 ->
    swept num_points nonprop fuel top (i :: todo) w ((iP, m) :: pairs) w2.

End Phases.

(** Ten vertical increments, an axial load of 100. *)
Definition ten_steps : options :=
  mkOptions (Fin 0) (Fin 100) 10 (Fin (1 # 100000)) (Fin (1 # 10000000))
    (Some (Fin 0)) (Some (Fin (5 # 100))) (Some (Fin (- (1 # 100))))
    (Some (Fin (5 # 100))) true.

(** An eigenvalue threshold of -1, two vertical increments. *)
Definition threshold_minus_one : options :=
  mkOptions (Fin 0) (Fin 0) 2 (Fin (1 # 100000)) (Fin (1 # 10000000))
    (Some (Fin (-1))) (Some (Fin (5 # 100))) (Some (Fin (- (1 # 100))))
    (Some (Fin (5 # 100))) true.

(** The statuses of the [analyze] calls of a log. *)
Fixpoint statuses_of (l : list event) : list Z :=
  match l with
  | [] => []
  | Analyze st :: l' => st :: statuses_of l'
  | Command _ :: l' => statuses_of l'
  end.

(** A two-record history that ended on the eigenvalue monitor. *)
Definition eigenvalue_exit : AnalysisResults :=
  mkResults [Fin 1; Fin 2] [Fin 0; Fin 0] [Fin 1; Fin (-1)] []
    [Fin 0; Fin 0] [Fin 0; Fin 0] (Some "Eigenvalue Limit Reached")
    None None.

End ControllerSpec.

(** ** Stresses, bounds and errors of the engine *)

Module StressSpec.
Import Material StrainCompatibility MaterialSpec EngineSpec.
Local Open Scope Q_scope.

(** The stress law of a material at one strain. *)
Definition scalar_law (mat : material) (s : Q) : Q :=
  match mat with
  | Steel m => plastic_law m s
  | Concrete cm => block_law cm (beta1_of (units cm) (fc cm)) s
  end.

(** What the loop over the materials [mats] leaves in the stress array
    when the material [i] follows [law i]: the law of the fiber's
    material at the strain of the fiber where that material is among
    [mats], the old entry elsewhere. *)
Fixpoint assigned (mats : list Z) (law : Z -> Q -> Q) (fs : list Fiber)
  (strain stress : list Q) : list Q :=
  match fs, strain, stress with
  | f :: fs', s :: strain', o :: stress' =>
      (if existsb (Z.eqb (fm f)) mats then law (fm f) s else o)
        :: assigned mats law fs' strain' stress'
  | _, _, _ => []
  end.

(** The law the registry gives the material id [i]. *)
Definition law_of (self : AciStrainCompatibility) (i : Z) (s : Q) : Q :=
  match materials self !! i with
  | Some mat => scalar_law mat s
  | None => 0
  end.

(** A material with the signs its law is meant for. *)
Definition good (mat : material) : Prop :=
  match mat with
  | Steel m => 0 < Fy m /\ 0 < Es m
  | Concrete cm => supported (units cm) /\ 0 <= fc cm
  end.

(** The least and the greatest stress the material registered under
    [i] can give: minus and plus the yield stress of a steel, the block
    stress and zero of a concrete. *)
Definition least_stress (self : AciStrainCompatibility) (i : Z) : Q :=
  match materials self !! i with
  | Some (Steel m) => - Fy m
  | Some (Concrete cm) => - 0.85 * fc cm
  | None => 0
  end.

Definition greatest_stress (self : AciStrainCompatibility) (i : Z) : Q :=
  match materials self !! i with
  | Some (Steel m) => Fy m
  | Some (Concrete cm) => 0
  | None => 0
  end.

(** Every material of [uniq_mats] is registered and good. *)
Definition sound (self : AciStrainCompatibility) : Prop :=
  forall i : Z, In i (uniq_mats self) ->
    exists mat : material, materials self !! i = Some mat /\ good mat.

(** The bounds of one fiber: those of its material where [uniq_mats]
    lists it, zero elsewhere. *)
Definition fiber_least (self : AciStrainCompatibility) (f : Fiber) : Q :=
  if existsb (Z.eqb (fm f)) (uniq_mats self)
  then least_stress self (fm f) else 0.

Definition fiber_greatest (self : AciStrainCompatibility) (f : Fiber) : Q :=
  if existsb (Z.eqb (fm f)) (uniq_mats self)
  then greatest_stress self (fm f) else 0.

(** A section with both materials: a strip of concrete in two fibers
    and one steel bar; the last fiber is of a material that
    [uniq_mats] does not list. *)
Definition mixed_section : AciStrainCompatibility :=
  mkEngine [mkBoundaryPoint 0 10 0; mkBoundaryPoint 0 0 0]
    [mkBoundaryPoint 0 2 (1 # 2)]
    {[ 1%Z := Concrete (ConcreteMaterial 4 "US");
       2%Z := Steel (SteelMaterial 60 29000) ]}
    [1%Z; 2%Z]
    [mkFiber 20 0 (5 # 2) 1; mkFiber 20 0 (15 # 2) 1; mkFiber 1 0 2 2;
     mkFiber 1 0 5 3].

(** Every material the registry holds under an id of [uniq_mats] is a
    usable one. *)
Definition registered_ok (self : AciStrainCompatibility) : Prop :=
  forall (i : Z) (mat : material),
    In i (uniq_mats self) -> materials self !! i = Some mat -> material_ok mat.

(** Two results that are the same up to [R] on the values: both return,
    with related values, or both raise the same exception. *)
Definition agree {A : Type} (R : A -> A -> Prop) (r r' : result A) : Prop :=
  match r, r' with
  | Ok a, Ok a' => R a a'
  | Raise e, Raise e' => e = e'
  | Diverged, Diverged => True
  | _, _ => False
  end.

(** The four numbers [compute_point] returns, compared as rationals. *)
Definition same_point (p p' : Q * Q * Q * Q) : Prop :=
  fst (fst (fst p)) == fst (fst (fst p'))
  /\ snd (fst (fst p)) == snd (fst (fst p'))
  /\ snd (fst p) == snd (fst p')
  /\ snd p == snd p'.

End StressSpec.

(** ** The engine as an object *)

Module ObjectSpec.
Import Material StrainCompatibility EngineObjects.
Local Open Scope Q_scope.
Local Open Scope string_scope.

(** An engine with another concrete boundary, another steel boundary
    or another registry. *)
Definition with_concrete (e : AciStrainCompatibility) (p : BoundaryPoint)
  : AciStrainCompatibility :=
  mkEngine (concrete_boundary e ++ [p]) (steel_boundary e) (materials e)
    (uniq_mats e) (fibers e).

Definition with_steel (e : AciStrainCompatibility) (p : BoundaryPoint)
  : AciStrainCompatibility :=
  mkEngine (concrete_boundary e) (steel_boundary e ++ [p]) (materials e)
    (uniq_mats e) (fibers e).

Definition with_material (e : AciStrainCompatibility) (name : Z)
  (mat : material) : AciStrainCompatibility :=
  mkEngine (concrete_boundary e) (steel_boundary e)
    (<[name := mat]> (materials e)) (uniq_mats e) (fibers e).

(** A fiber section of one concrete fiber, and two engines on it: the
    first with a concrete boundary point, both after [build_data]. *)
Definition strip : FiberSection :=
  mkFiberSection [1%Z] [mkFiber 20 0 (5 # 2) 1].

Definition two_engines : heap :=
  build_data 1
    (build_data 0
       (add_concrete_boundary 0 0 10 0
          (snd (init strip "AsDefined"
                  (snd (init strip "AsDefined" (mkHeap empty []))))))).

(** The two as the methods of the engine see them. *)
Definition first_engine : AciStrainCompatibility :=
  mkEngine [mkBoundaryPoint 0 10 0] [] empty [1%Z] [mkFiber 20 0 (5 # 2) 1].

Definition second_engine : AciStrainCompatibility :=
  mkEngine [] [] empty [1%Z] [mkFiber 20 0 (5 # 2) 1].

End ObjectSpec.

(** ** Runs of the controller *)

Module RunSpec.
Import PyFloat Ops Controller ControllerSpec.
Local Open Scope string_scope.
Local Open Scope list_scope.

(** The rungs that are left of the ladder with [try_smaller_steps] off:
    the two alternate algorithms, and the second with the changed
    tolerance [tol]. *)
Definition algorithm_ladder (tol : pyfloat) : list rung :=
  [ mkRung [algorithm "ModifiedNewton"] false;
    mkRung [algorithm "KrylovNewton"] false;
    mkRung [algorithm "KrylovNewton"; test "NormUnbalance" tol 10] false ].

(** The ladder of an increment of each path, for the options given. *)
Definition proportional_rungs (opts : options) (step : pyfloat) : list rung :=
  if try_smaller_steps opts then proportional_ladder step
  else algorithm_ladder (Fin (1 # 100)).

Definition lateral_rungs (opts : options) (step : pyfloat) : list rung :=
  if try_smaller_steps opts then lateral_ladder step (Fin (1 # 10000))
  else algorithm_ladder (Fin (1 # 10000)).

(** The exit condition [tag] can end a run with the options [opts]: a
    failed increment always can, a monitor when its threshold is not
    [None]. *)
Definition armed (opts : options) (tag : ExitCondition) : Prop :=
  match tag with
  | AnalysisFailed => True
  | EigenvalueLimit => eigenvalue_limit opts <> None
  | ConcreteStrainLimit => concrete_strain_limit opts <> None
  | SteelStrainLimit => steel_strain_limit opts <> None
  | LoadDropLimit => percent_load_drop_limit opts <> None
  end.

(** A property of the history that holds at [k] records and goes on to
    hold when a record of the vertical kind, or of the lateral kind, is
    appended. *)
Definition kept_by_time_records (I : nat -> AnalysisResults -> Prop) : Prop :=
  forall (k : nat) (r : AnalysisResults) (p ev ec es : pyfloat),
    I k r -> I (Datatypes.S k) (append_record r p (Fin 0) ev ec es).

Definition kept_by_lateral_records (opts : options)
  (I : nat -> AnalysisResults -> Prop) : Prop :=
  forall (k : nat) (r : AnalysisResults) (f ev ec es : pyfloat),
    I k r -> I (Datatypes.S k) (append_record r (P opts) (fabs f) ev ec es).

(** The history has [k] records in each of the five series that
    [record] appends to, and none in [extreme_comp_strain]. *)
Definition aligned (k : nat) (r : AnalysisResults) : Prop :=
  history_lengths r = repeat k 5 /\ extreme_comp_strain r = [].

(** No limit point has been set. *)
Definition no_limit_point (r : AnalysisResults) : Prop :=
  applied_axial_load_at_limit_point r = None
  /\ maximum_abs_moment_at_limit_point r = None.

(** Every monitor is switched off. *)
Definition unmonitored (opts : options) : Prop :=
  percent_load_drop_limit opts = None /\ eigenvalue_limit opts = None
  /\ concrete_strain_limit opts = None /\ steel_strain_limit opts = None.

(** The defaults with the four thresholds set to [None]. *)
Definition no_limits : options :=
  mkOptions (Fin 0) (Fin 0) 20 (Fin (1 # 100000)) (Fin (1 # 10000000))
    None None None None true.

(** The calls of the set-up of the vertical-load phase up to the
    division [P / num_steps_vertical]. *)
Definition vertical_calls : list command :=
  [ build_ops_model 1; timeSeries "Linear" 100; pattern "Plain" 200 100;
    load 2 (Fin (-1)) (Fin 0) (Fin 0); constraints "Plain"; numberer "RCM";
    system "UmfPack" []; test "NormUnbalance" tol_default 10;
    algorithm "Newton" ].

(** The three calls that follow a converged increment. *)
Definition reset_calls (step : pyfloat) : list event :=
  [ Command (algorithm "Newton");
    Command (test "NormUnbalance" tol_default 10);
    Command (integrator (LoadControl step)) ].

(** A moment as the lateral record takes it: an absolute value. *)
Definition is_abs (m : pyfloat) : Prop := exists f : pyfloat, m = fabs f.

(** A number that is not negative: a rational that is, or plus
    infinity; NaN is none. *)
Definition not_negative (a : pyfloat) : Prop :=
  match a with
  | Fin q => (0 <= q)%Q
  | PosInf => True
  | _ => False
  end.

(** The history of a non-proportional run at [j] records of the
    lateral phase, after the [n + 1] records of the vertical phase. *)
Definition lateral_history (opts : options) (j : nat) (r : AnalysisResults)
  : Prop :=
  exists times moments : list pyfloat,
    length times = Datatypes.S (num_steps_vertical opts)
    /\ length moments = j
    /\ applied_axial_load r = times ++ repeat (P opts) j
    /\ maximum_abs_moment r
       = repeat (Fin 0) (Datatypes.S (num_steps_vertical opts)) ++ moments
    /\ Forall is_abs moments.

(** The number of converged attempts among the events of a log: the
    calls of [analyze] that returned 0. *)
Fixpoint converged (evs : list event) : nat :=
  match evs with
  | [] => 0
  | Analyze st :: evs' => (if (st =? 0)%Z then 1 else 0) + converged evs'
  | Command _ :: evs' => converged evs'
  end.

(** What the loops ask of the solver: to analyse an increment, and to
    set the integrator, the algorithm or the convergence test. *)
Definition tuning (e : event) : Prop :=
  match e with
  | Analyze _ => True
  | Command (integrator _) => True
  | Command (algorithm _) => True
  | Command (test _ _ _) => True
  | Command _ => False
  end.

(** The results a loop with a [return] in it ends with. *)
Definition results_of (ended : flow) : AnalysisResults :=
  match ended with
  | Return r => r
  | Next r => r
  end.

(** The calls of the set-up of the proportional path, the building of
    the model first. *)
Definition proportional_calls (opts : options) : list command :=
  [ build_ops_model 1; timeSeries "Linear" 1; pattern "Plain" 1 1;
    load 2 (Fin (-1)) (Fin 0) (e opts);
    integrator (LoadControl (load_incr_factor opts));
    system "SparseGeneral" ["-piv"]; test "NormUnbalance" tol_default 10;
    numberer "Plain"; constraints "Plain"; algorithm "Newton";
    Ops.analysis "Static" ].

(** The calls of the set-up of the vertical-load phase, for the step
    [v] of the vertical load. *)
Definition vertical_phase_calls (v : pyfloat) : list command :=
  vertical_calls ++ [integrator (LoadControl v); Ops.analysis "Static"].

(** The calls that open the lateral phase. *)
Definition lateral_calls (opts : options) : list command :=
  [ loadConst (Fin 0); timeSeries "Linear" 101; pattern "Plain" 201 101;
    load 2 (Fin 0) (Fin 0) (Fin 1);
    integrator (DisplacementControl 2 3 (disp_incr_factor opts));
    Ops.analysis "Static" ].

(** The defaults with [try_smaller_steps] off. *)
Definition plain_retries : options :=
  mkOptions (Fin 0) (Fin 0) 20 (Fin (1 # 100000)) (Fin (1 # 10000000))
    (Some (Fin 0)) (Some (Fin (5 # 100))) (Some (Fin (- (1 # 100))))
    (Some (Fin (5 # 100))) false.

(** The defaults with no vertical step. *)
Definition zero_steps : options :=
  mkOptions (Fin 0) (Fin 0) 0 (Fin (1 # 100000)) (Fin (1 # 10000000))
    (Some (Fin 0)) (Some (Fin (5 # 100))) (Some (Fin (- (1 # 100))))
    (Some (Fin (5 # 100))) true.

End RunSpec.

(* ================================================================== *)
(** * Properties *)

(** ** The material laws *)

Module MaterialFacts.
Import Material MaterialSpec.
Local Open Scope Q_scope.

Lemma Qle_bool_spec (a b : Q) : BoolSpec (a <= b) (b < a) (Qle_bool a b).
Proof.
  destruct (Qle_bool a b) eqn:E; constructor.
  - now apply Qle_bool_iff.
  - apply Qnot_le_lt. intro Hle. apply Qle_bool_iff in Hle. congruence.
Qed.

Ltac case_Qle :=
  match goal with
  | |- context [Qle_bool ?a ?b] => destruct (Qle_bool_spec a b)
  end.

Lemma ey_ok (m : AciStrainCompatibilitySteelMaterial) :
  0 < Es m -> ey m = Ok (Fy m / Es m).
Proof.
  intro HEs. unfold ey.
  destruct (Qeq_bool (Es m) 0) eqn:E; [|reflexivity].
  apply Qeq_bool_iff in E. lra.
Qed.

Lemma yield_strain_times_modulus (m : AciStrainCompatibilitySteelMaterial) :
  0 < Es m -> Fy m / Es m * Es m == Fy m.
Proof. intro HEs. field. lra. Qed.

Lemma steel_stress_ok (m : AciStrainCompatibilitySteelMaterial) (s : Q) :
  0 < Es m -> steel_stress m s = Ok (plastic_law m s).
Proof.
  intro HEs. unfold steel_stress, plastic_law. rewrite (ey_ok m HEs). simpl.
  repeat case_Qle; reflexivity.
Qed.

Lemma plastic_law_bounded (m : AciStrainCompatibilitySteelMaterial) (s : Q) :
  0 < Fy m -> 0 < Es m -> - Fy m <= plastic_law m s <= Fy m.
Proof.
  intros HFy HEs. pose proof (yield_strain_times_modulus m HEs) as Hy.
  unfold plastic_law. cbv zeta.
  set (y := Fy m / Es m) in *.
  repeat case_Qle; try lra.
  split; nra.
Qed.

Lemma plastic_law_monotone (m : AciStrainCompatibilitySteelMaterial)
  (s1 s2 : Q) :
  0 < Fy m -> 0 < Es m -> s1 <= s2 -> plastic_law m s1 <= plastic_law m s2.
Proof.
  intros HFy HEs Hle. pose proof (yield_strain_times_modulus m HEs) as Hy.
  unfold plastic_law. cbv zeta.
  set (y := Fy m / Es m) in *.
  repeat case_Qle; try lra; nra.
Qed.

Lemma plastic_law_zero (m : AciStrainCompatibilitySteelMaterial) :
  0 < Fy m -> 0 < Es m -> plastic_law m 0 == 0.
Proof.
  intros HFy HEs. pose proof (yield_strain_times_modulus m HEs) as Hy.
  unfold plastic_law. cbv zeta.
  set (y := Fy m / Es m) in *.
  assert (0 < y) by nra.
  repeat case_Qle; lra.
Qed.



Lemma inv7 : / 7 = 1 # 7.
Proof. reflexivity. Qed.

Lemma beta1_ok (u : string) (f : Q) :
  supported u -> beta1 (ConcreteMaterial f u) = Ok (beta1_of u f).
Proof.
  intros [Hu | Hu]; unfold beta1, beta1_of; cbn [fc units]; rewrite Hu;
    cbn -[Qle_bool Qminus Qmult Qdiv]; repeat case_Qle; reflexivity.
Qed.

Lemma beta1_of_range (u : string) (f : Q) :
  0.65 <= beta1_of u f <= 0.85.
Proof.
  unfold beta1_of, Qdiv. rewrite inv7.
  destruct (String.eqb (lower u) "us"); repeat case_Qle; lra.
Qed.

Lemma beta1_of_monotone (u : string) (f1 f2 : Q) :
  f1 <= f2 -> beta1_of u f2 <= beta1_of u f1.
Proof.
  intro Hle. unfold beta1_of, Qdiv. rewrite inv7.
  destruct (String.eqb (lower u) "us"); repeat case_Qle; lra.
Qed.

Lemma beta1_of_lipschitz (u : string) (f1 f2 : Q) :
  same_piece u f1 f2 -> f1 <= f2 ->
  beta1_of u f1 - beta1_of u f2 <= 0.05 * (f2 - f1).
Proof.
  intros Hsame Hle. unfold beta1_of, Qdiv. rewrite inv7.
  destruct Hsame as [Hu | [[H1 H2] | [H1 H2]]].
  - rewrite Hu. cbn -[Qle_bool Qminus Qmult]. repeat case_Qle; lra.
  - destruct (String.eqb (lower u) "us"); repeat case_Qle; lra.
  - destruct (String.eqb (lower u) "us"); repeat case_Qle; lra.
Qed.

Lemma same_piece_sym (u : string) (f1 f2 : Q) :
  same_piece u f1 f2 -> same_piece u f2 f1.
Proof. unfold same_piece. tauto. Qed.

Lemma beta1_of_close (u : string) (f f' : Q) :
  same_piece u f f' ->
  Qabs (beta1_of u f' - beta1_of u f) <= 0.05 * Qabs (f' - f).
Proof.
  intro Hsame. destruct (Qlt_le_dec f f') as [Hlt | Hle].
  - assert (Hle : f <= f') by lra.
    pose proof (beta1_of_monotone u f f' Hle).
    pose proof (beta1_of_lipschitz u f f' Hsame Hle).
    rewrite (Qabs_pos (f' - f)) by lra.
    apply Qabs_Qle_condition. lra.
  - pose proof (beta1_of_monotone u f' f Hle).
    pose proof (beta1_of_lipschitz u f' f (same_piece_sym _ _ _ Hsame) Hle).
    rewrite (Qabs_neg (f' - f)) by lra.
    apply Qabs_Qle_condition. lra.
Qed.

Lemma Qabs_lt_bounds (a d : Q) : Qabs a < d -> - d < a /\ a < d.
Proof.
  intro Habs. destruct (Qlt_le_dec a 0) as [Hneg | Hpos].
  - rewrite Qabs_neg in Habs by lra. lra.
  - rewrite Qabs_pos in Habs by lra. lra.
Qed.

Lemma beta1_continuous (u : string) (f : Q) :
  supported u -> (lower u = "si"%string -> ~ f == 55) ->
  beta1_continuous_at u f.
Proof.
  intros Hu Hbreak eps Heps.
  assert (Hgap : exists gap : Q, 0 < gap /\
            forall f' : Q, Qabs (f' - f) < gap -> same_piece u f f').
  { destruct Hu as [Hu | Hu].
    - exists 1. split; [lra|]. intros f' _. now left.
    - specialize (Hbreak Hu).
      destruct (Qlt_le_dec f 55) as [Hlow | Hhigh].
      + exists (55 - f). split; [lra|]. intros f' Hclose.
        apply Qabs_lt_bounds in Hclose. right. left. lra.
      + assert (55 < f) by (destruct (Qeq_dec f 55); [contradiction | lra]).
        exists (f - 55). split; [lra|]. intros f' Hclose.
        apply Qabs_lt_bounds in Hclose. right. right. lra. }
  destruct Hgap as (gap & Hgap & Hsame).
  assert (Hdelta : exists delta : Q,
            0 < delta /\ delta <= gap /\ delta <= 20 * eps).
  { destruct (Qlt_le_dec gap (20 * eps)).
    - exists gap. lra.
    - exists (20 * eps). lra. }
  destruct Hdelta as (delta & Hpos & Hd1 & Hd2).
  exists delta. split; [assumption|].
  intros f' Hclose. exists (beta1_of u f), (beta1_of u f').
  split; [now apply beta1_ok | split; [now apply beta1_ok |]].
  assert (Hs : same_piece u f f') by (apply Hsame; lra).
  pose proof (beta1_of_close u f f' Hs). lra.
Qed.




End MaterialFacts.

(** ** The strain-compatibility engine *)

Module EngineFacts.
Import Material StrainCompatibility MaterialSpec EngineSpec MaterialFacts.
Local Open Scope Q_scope.

Lemma fold_left_Qplus (l : list Q) (a : Q) :
  fold_left Qplus l a == a + sigma l.
Proof.
  revert a. induction l as [|v l IH]; intro a; simpl.
  - lra.
  - rewrite IH. lra.
Qed.

Lemma py_sum_sigma (l : list Q) : py_sum l == sigma l.
Proof. unfold py_sum. rewrite fold_left_Qplus. lra. Qed.

Lemma Qmin_cases (a b : Q) :
  (Qmin a b = a /\ a <= b) \/ (Qmin a b = b /\ b <= a).
Proof.
  unfold Qmin, GenericMinMax.gmin.
  destruct (a ?= b) eqn:E.
  - left. split; [reflexivity|]. apply Qeq_alt in E. lra.
  - left. split; [reflexivity|]. apply Qlt_alt in E. lra.
  - right. split; [reflexivity|]. apply Qgt_alt in E. lra.
Qed.

Lemma Qmax_cases (a b : Q) :
  (Qmax a b = a /\ b <= a) \/ (Qmax a b = b /\ a <= b).
Proof.
  unfold Qmax, GenericMinMax.gmax.
  destruct (a ?= b) eqn:E.
  - left. split; [reflexivity|]. apply Qeq_alt in E. lra.
  - right. split; [reflexivity|]. apply Qlt_alt in E. lra.
  - left. split; [reflexivity|]. apply Qgt_alt in E. lra.
Qed.

Lemma fold_min_is_minimum (l : list Q) (a : Q) :
  is_minimum (fold_left Qmin l a) (a :: l).
Proof.
  revert a. induction l as [|b l IH]; intro a.
  - split; [now left | constructor; [apply Qle_refl | constructor]].
  - simpl. destruct (IH (Qmin a b)) as [Hin Hall].
    apply Forall_cons_iff in Hall as [Hhd Htl].
    destruct (Qmin_cases a b) as [[E Hle] | [E Hle]]; rewrite E in *.
    + split.
      * destruct Hin as [<- | Hin]; [now left | right; now right].
      * constructor; [assumption|]. constructor; [lra | assumption].
    + split.
      * destruct Hin as [<- | Hin]; [right; now left | right; now right].
      * constructor; [lra|]. constructor; assumption.
Qed.

Lemma fold_max_is_maximum (l : list Q) (a : Q) :
  is_maximum (fold_left Qmax l a) (a :: l).
Proof.
  revert a. induction l as [|b l IH]; intro a.
  - split; [now left | constructor; [apply Qle_refl | constructor]].
  - simpl. destruct (IH (Qmax a b)) as [Hin Hall].
    apply Forall_cons_iff in Hall as [Hhd Htl].
    destruct (Qmax_cases a b) as [[E Hle] | [E Hle]]; rewrite E in *.
    + split.
      * destruct Hin as [<- | Hin]; [now left | right; now right].
      * constructor; [assumption|]. constructor; [lra | assumption].
    + split.
      * destruct Hin as [<- | Hin]; [right; now left | right; now right].
      * constructor; [lra|]. constructor; assumption.
Qed.

Lemma amin_is_minimum (l : list Q) :
  l <> [] -> exists v : Q, amin l = Ok v /\ is_minimum v l.
Proof.
  destruct l as [|a l]; [congruence|]. intros _.
  exists (fold_left Qmin l a). split; [reflexivity|].
  apply fold_min_is_minimum.
Qed.

Lemma amax_is_maximum (l : list Q) :
  l <> [] -> exists v : Q, amax l = Ok v /\ is_maximum v l.
Proof.
  destruct l as [|a l]; [congruence|]. intros _.
  exists (fold_left Qmax l a). split; [reflexivity|].
  apply fold_max_is_maximum.
Qed.

Lemma put_mask_length (mask : list bool) (vals old : list Q) :
  length (put_mask mask vals old) = length old.
Proof.
  revert vals old. induction mask as [|b mask IH]; intros vals old.
  - reflexivity.
  - destruct old as [|o old]; [now destruct b|].
    destruct b; [destruct vals|]; simpl; now rewrite IH.
Qed.

Lemma Qltb_spec (a b : Q) : BoolSpec (a < b) (b <= a) (Qltb a b).
Proof. unfold Qltb. destruct (Qle_bool_spec b a); constructor; assumption. Qed.

Lemma beta1_range (cm : AciStrainCompatibilityConcreteMaterial) (b : Q) :
  beta1 cm = Ok b -> 0.65 <= b <= 0.85.
Proof.
  unfold beta1, Qdiv. rewrite inv7.
  destruct (String.eqb (lower (units cm)) "us");
    [|destruct (String.eqb (lower (units cm)) "si")];
    repeat case_Qle; intro E; inversion E; subst; lra.
Qed.

Lemma concrete_get_stress_ok (cm : AciStrainCompatibilityConcreteMaterial)
  (b : Q) (strain : list Q) :
  beta1 cm = Ok b ->
  get_stress (Concrete cm) strain = Ok (map (block_law cm b) strain).
Proof. intro Hb. simpl. unfold concrete_get_stress. now rewrite Hb. Qed.

Lemma get_stress_total (mat : material) (strain : list Q) :
  material_ok mat -> exists s : list Q, get_stress mat strain = Ok s.
Proof.
  destruct mat as [m | m]; simpl; intro Hok.
  - unfold steel_get_stress.
    induction strain as [|v strain [s IH]]; [now exists []|].
    simpl. rewrite IH.
    unfold steel_stress, ey.
    destruct (Qeq_bool (Es m) 0) eqn:E;
      [apply Qeq_bool_iff in E; contradiction|].
    simpl. repeat case_Qle; eexists; reflexivity.
  - destruct m as [f u]. simpl in Hok.
    unfold concrete_get_stress. rewrite (beta1_ok u f Hok).
    eexists. reflexivity.
Qed.

Lemma put_take_settle (i : Z) (law : Q -> Q) (fs : list Fiber)
  (strain stress : list Q) :
  length strain = length fs -> length stress = length fs ->
  put_mask (map (fun f => Z.eqb (fm f) i) fs)
    (map law (take_mask (map (fun f => Z.eqb (fm f) i) fs) strain)) stress
  = settle [i] law fs strain stress.
Proof.
  revert strain stress.
  induction fs as [|f fs IH]; intros [|s strain] [|o stress];
    simpl; try discriminate; try reflexivity.
  intros Hs Ho. injection Hs as Hs. injection Ho as Ho.
  destruct (Z.eqb (fm f) i); simpl; now rewrite IH.
Qed.

Lemma settle_cons (i : Z) (mats : list Z) (law : Q -> Q) (fs : list Fiber)
  (strain stress : list Q) :
  settle mats law fs strain (settle [i] law fs strain stress)
  = settle (i :: mats) law fs strain stress.
Proof.
  revert strain stress.
  induction fs as [|f fs IH]; intros [|s strain] [|o stress];
    simpl; try reflexivity.
  rewrite IH. destruct (Z.eqb (fm f) i), (existsb (Z.eqb (fm f)) mats);
    reflexivity.
Qed.

Lemma settle_length (mats : list Z) (law : Q -> Q) (fs : list Fiber)
  (strain stress : list Q) :
  length strain = length fs -> length stress = length fs ->
  length (settle mats law fs strain stress) = length fs.
Proof.
  revert strain stress.
  induction fs as [|f fs IH]; intros [|s strain] [|o stress];
    simpl; try discriminate; try reflexivity.
  intros Hs Ho. injection Hs as Hs. injection Ho as Ho. now rewrite IH.
Qed.

Lemma settle_everywhere (mats : list Z) (law : Q -> Q) (fs : list Fiber)
  (strain stress : list Q) :
  length strain = length fs -> length stress = length fs ->
  Forall (fun f => In (fm f) mats) fs ->
  settle mats law fs strain stress = map law strain.
Proof.
  revert strain stress.
  induction fs as [|f fs IH]; intros [|s strain] [|o stress];
    simpl; try discriminate; try reflexivity.
  intros Hs Ho Hall. injection Hs as Hs. injection Ho as Ho.
  apply Forall_cons_iff in Hall as [Hin Hall].
  rewrite IH by assumption.
  replace (existsb (Z.eqb (fm f)) mats) with true; [reflexivity|].
  symmetry. apply existsb_exists. exists (fm f). split; [assumption|].
  apply Z.eqb_refl.
Qed.

Lemma sigma_scale (c : Q) (fs : list Fiber) (stress : list Q) :
  length stress = length fs ->
  Forall (fun t => t == c) stress ->
  sigma (map (fun sf => fst sf * fA (snd sf)) (combine stress fs))
  == c * sigma (map fA fs).
Proof.
  revert stress. induction fs as [|f fs IH]; intros [|t stress];
    simpl; try discriminate.
  - intros _ _. lra.
  - intros Hlen Hall. injection Hlen as Hlen.
    apply Forall_cons_iff in Hall as [Ht Hall].
    rewrite (IH stress Hlen Hall), Ht. lra.
Qed.

Section EngineProperties.

Variables sin cos : Q -> Q.
Variable self : AciStrainCompatibility.
Variables xpt ypt angle : Q.

Local Abbreviation dist := (EngineSpec.dist sin cos xpt ypt angle).
Local Abbreviation concrete_edges :=
  (EngineSpec.concrete_edges sin cos self xpt ypt angle).
Local Abbreviation steel_edges :=
  (EngineSpec.steel_edges sin cos self xpt ypt angle).
Local Abbreviation registry_ok := (EngineSpec.registry_ok self).
Local Abbreviation resultants := (EngineSpec.resultants self).
Local Abbreviation all_concrete := (EngineSpec.all_concrete self).

Lemma stress_loop_length (mats : list Z) (strain stress out : list Q) :
  stress_loop self mats strain stress = Ok out -> length out = length stress.
Proof.
  revert stress. induction mats as [|i mats IH]; intros stress; simpl.
  - intro E. now inversion E.
  - destruct (materials self !! i) as [mat|]; [|discriminate].
    destruct (get_stress mat _) as [s| |]; simpl; try discriminate.
    intro E. apply IH in E. now rewrite put_mask_length in E.
Qed.

Lemma stress_loop_total (mats : list Z) (strain stress : list Q) :
  (forall i : Z, In i mats ->
     exists mat : material, materials self !! i = Some mat /\ material_ok mat) ->
  exists out : list Q, stress_loop self mats strain stress = Ok out.
Proof.
  revert stress. induction mats as [|i mats IH]; intros stress Hreg; simpl.
  - now exists stress.
  - destruct (Hreg i (or_introl eq_refl)) as (mat & -> & Hok).
    destruct (get_stress_total mat
                (take_mask (map (fun f => Z.eqb (fm f) i) (fibers self)) strain)
                Hok) as [s ->].
    simpl. apply IH. intros j Hj. apply Hreg. now right.
Qed.

Lemma concrete_edge_is_minimum :
  concrete_boundary self <> [] ->
  exists yc : Q,
    extreme_concrete_compression_fiber sin cos self xpt ypt angle = Ok yc
    /\ is_minimum yc concrete_edges.
Proof.
  intro Hne. apply amin_is_minimum. unfold concrete_edges.
  destruct (concrete_boundary self); [congruence | simpl; discriminate].
Qed.

Lemma steel_edge_is_maximum :
  steel_boundary self <> [] ->
  exists yt : Q,
    extreme_steel_tension_fiber sin cos self xpt ypt angle = Ok yt
    /\ is_maximum yt steel_edges.
Proof.
  intro Hne. apply amax_is_maximum. unfold steel_edges.
  destruct (steel_boundary self); [congruence | simpl; discriminate].
Qed.

Lemma fiber_strains_length (yc : Q) :
  extreme_concrete_compression_fiber sin cos self xpt ypt angle = Ok yc ->
  exists strain : list Q,
    fiber_strains sin cos self xpt ypt angle = Ok strain
    /\ length strain = length (fibers self).
Proof.
  intro Hyc. unfold fiber_strains. rewrite Hyc. simpl.
  destruct (Qltb yc 0); eexists; (split; [reflexivity|]).
  - now rewrite length_map.
  - now rewrite length_map, repeat_length.
Qed.

Lemma pair_map_ext (g h : Q * Fiber -> Q) (l : list (Q * Fiber)) :
  (forall s f, g (s, f) = h (s, f)) -> map g l = map h l.
Proof. intro E. apply map_ext. intros [s f]. apply E. Qed.

Lemma compute_point_ok (strain stress : list Q) (et : Q) :
  fiber_strains sin cos self xpt ypt angle = Ok strain ->
  fiber_stresses self strain = Ok stress ->
  extreme_steel_tensile_strain sin cos self xpt ypt angle = Ok et ->
  exists P Mx My : Q,
    compute_point sin cos self xpt ypt angle = Ok (P, Mx, My, et)
    /\ P == fst (fst (resultants stress))
    /\ Mx == snd (fst (resultants stress))
    /\ My == snd (resultants stress).
Proof.
  intros Hstrain Hstress Het. unfold compute_point.
  rewrite Hstrain. simpl. rewrite Hstress. simpl. rewrite Het. simpl.
  do 3 eexists. split; [reflexivity|].
  unfold resultants. cbn [fst snd].
  repeat split; rewrite py_sum_sigma;
    (erewrite pair_map_ext; [reflexivity | reflexivity]).
Qed.

Lemma tensile_strain_ok (yc : Q) :
  extreme_concrete_compression_fiber sin cos self xpt ypt angle = Ok yc ->
  steel_boundary self <> [] ->
  exists (yt et : Q),
    extreme_steel_tension_fiber sin cos self xpt ypt angle = Ok yt
    /\ extreme_steel_tensile_strain sin cos self xpt ypt angle = Ok et
    /\ et = if Qltb yc 0
            then yt * (engine_extreme_concrete_compression_strain / yc)
            else default_tensile_strain.
Proof.
  intros Hyc Hne. destruct (steel_edge_is_maximum Hne) as (yt & Hyt & _).
  exists yt. unfold extreme_steel_tensile_strain. rewrite Hyc, Hyt. simpl.
  destruct (Qltb yc 0); eexists; repeat split; reflexivity.
Qed.


Lemma concrete_stress_loop (cm : AciStrainCompatibilityConcreteMaterial)
  (b : Q) (mats : list Z) (strain stress : list Q) :
  beta1 cm = Ok b ->
  (forall i : Z, In i mats -> materials self !! i = Some (Concrete cm)) ->
  length strain = length (fibers self) ->
  length stress = length (fibers self) ->
  stress_loop self mats strain stress
  = Ok (match mats with
        | [] => stress
        | _ => settle mats (block_law cm b) (fibers self) strain stress
        end).
Proof.
  intros Hb. revert stress.
  induction mats as [|i mats IH]; intros stress Hreg Hs Ho; [reflexivity|].
  simpl stress_loop. rewrite (Hreg i (or_introl eq_refl)).
  rewrite (concrete_get_stress_ok cm b _ Hb). simpl rbind.
  rewrite put_take_settle by assumption.
  rewrite IH.
  - destruct mats as [|j mats]; [reflexivity|]. now rewrite settle_cons.
  - intros j Hj. apply Hreg. now right.
  - assumption.
  - now apply settle_length.
Qed.

Lemma concrete_fiber_stresses (cm : AciStrainCompatibilityConcreteMaterial)
  (b : Q) (strain : list Q) :
  beta1 cm = Ok b -> all_concrete cm ->
  length strain = length (fibers self) ->
  fiber_stresses self strain = Ok (map (block_law cm b) strain).
Proof.
  intros Hb [Hreg Hall] Hlen. unfold fiber_stresses.
  rewrite (concrete_stress_loop cm b) by
    (try assumption; now rewrite repeat_length).
  destruct (uniq_mats self) as [|i mats] eqn:E.
  - destruct (fibers self) as [|f fs] eqn:Ef.
    + now destruct strain.
    + apply Forall_cons_iff in Hall as [[] _].
  - rewrite settle_everywhere; try assumption; try reflexivity.
    now rewrite repeat_length.
Qed.


End EngineProperties.

Lemma plain_section_all_concrete : all_concrete plain_section plain_concrete.
Proof.
  split.
  - intros i [<- | []]. reflexivity.
  - repeat constructor.
Defined.



(** Without a steel boundary point [compute_point] has no result: the
    extreme steel tension fiber is a maximum over an empty array. *)
Lemma compute_point_needs_steel_boundary :
  compute_point sin0 cos0
    (mkEngine (concrete_boundary plain_section) [] (materials plain_section)
       (uniq_mats plain_section) (fibers plain_section)) 0 (-100) 0
  = Raise empty_reduction.
Proof. reflexivity. Qed.

End EngineFacts.

(** ** The continuation controller *)

Module ControllerFacts.
Import PyFloat Ops Controller ControllerSpec.
Local Open Scope string_scope.
Local Open Scope list_scope.
Local Open Scope ctl_scope.

Section Ladder.
Context {S : Type} `{Solver S}.

Variable strain_c strain_s : pyfloat -> pyfloat -> pyfloat.
Variable locate : list pyfloat -> option pyfloat -> result (nat * pyfloat).
Variable opts : options.

Lemma proportional_increment_climbs (step : pyfloat) (w : world S) :
  try_smaller_steps opts = true ->
  proportional_increment opts step w
  = (let* ok := ops_analyze in climb (proportional_ladder step) step ok) w.
Proof.
  intro Htry. unfold proportional_increment. rewrite Htry.
  unfold bind, ops_analyze, if_failed, if_failed_reduce, nonzero, ret.
  cbn [climb proportional_ladder setup narrows ops_all].
  unfold bind, ops_analyze, ops, nonzero, ret. cbn -[fdiv_lit].
  repeat (match goal with
          | |- context [(?ok =? 0)%Z] =>
              destruct (ok =? 0)%Z eqn:?; cbn -[fdiv_lit]
          | |- context [analyze ?s] =>
              destruct (analyze s) as [? ?]; cbn -[fdiv_lit]
          end; try reflexivity; try congruence).
Qed.

Lemma lateral_increment_climbs (step : pyfloat) (w : world S) :
  try_smaller_steps opts = true ->
  lateral_increment opts step w
  = (let* ok := ops_analyze in
     climb (lateral_ladder step (Fin (1 # 10000))) step ok) w.
Proof.
  intro Htry. unfold lateral_increment. rewrite Htry.
  unfold bind, ops_analyze, if_failed, if_failed_reduce, nonzero, ret.
  cbn [climb lateral_ladder setup narrows ops_all].
  unfold bind, ops_analyze, ops, nonzero, ret. cbn -[fdiv_lit].
  repeat (match goal with
          | |- context [(?ok =? 0)%Z] =>
              destruct (ok =? 0)%Z eqn:?; cbn -[fdiv_lit]
          | |- context [analyze ?s] =>
              destruct (analyze s) as [? ?]; cbn -[fdiv_lit]
          end; try reflexivity; try congruence).
Qed.

Lemma ops_all_log (cs : list command) (w : world S) :
  exists w' : world S,
    ops_all cs w = (Ok tt, w') /\ log w' = log w ++ map Command cs.
Proof.
  revert w. induction cs as [|c cs IH]; intro w.
  - exists w. split; [reflexivity|]. simpl. now rewrite app_nil_r.
  - cbn [ops_all]. unfold bind at 1. unfold ops at 1.
    destruct (IH (mkWorld (exec c (solver w)) (log w ++ [Command c])))
      as (w' & -> & Hlog).
    exists w'. split; [reflexivity|]. rewrite Hlog. cbn [log map].
    now rewrite <- app_assoc.
Qed.

Lemma attempts_nil (rungs : list rung) : attempts rungs [] = [].
Proof. now destruct rungs. Qed.

Lemma climb_spec (rungs : list rung) (step : pyfloat) (ok : Z) (w : world S) :
  exists (sts : list Z) (ok' : Z) (w' : world S),
    climb rungs step ok w
    = (Ok (ok', if (ok' =? 0)%Z && ended_on_narrowing rungs sts
                then fdiv_lit step 10 else step), w')
    /\ log w' = log w ++ attempts rungs sts
    /\ (length sts <= length rungs)%nat
    /\ Forall (fun st => st <> 0%Z) (removelast (ok :: sts))
    /\ ok' = List.last (ok :: sts) 0%Z
    /\ (ok' <> 0%Z -> length sts = length rungs).
Proof.
  revert ok w. induction rungs as [|r rungs IH]; intros ok w.
  - exists [], ok, w. cbn. rewrite andb_false_r, app_nil_r.
    repeat split; auto; constructor.
  - cbn [climb]. unfold nonzero. destruct (Z.eqb_spec ok 0) as [-> | Hok].
    + exists [], 0%Z, w. cbn. rewrite app_nil_r.
      repeat split; try lia; constructor.
    + cbn [negb]. unfold bind at 1.
      destruct (ops_all_log (setup r) w) as (w1 & -> & Hlog1).
      unfold bind at 1. unfold ops_analyze at 1.
      destruct (analyze (solver w1)) as [ok1 s1].
      destruct (Z.eqb_spec ok1 0) as [-> | Hok1].
      * eexists [0%Z], 0%Z, _. cbn -[fdiv_lit attempts].
        split; [reflexivity|]. cbn [log attempts].
        rewrite attempts_nil, Hlog1, <- app_assoc.
        repeat split; try lia.
        constructor; [assumption | constructor].
      * destruct (IH ok1 (mkWorld s1 (log w1 ++ [Analyze ok1])))
          as (sts & ok' & w' & Hclimb & Hlog & Hlen & Hfail & Hlast & Hall).
        exists (ok1 :: sts), ok', w'. rewrite Hclimb.
        split; [|split; [|split; [|split; [|split]]]].
        -- f_equal. f_equal. f_equal.
           destruct (Z.eqb_spec ok' 0) as [E | E]; [|reflexivity].
           destruct sts as [|st sts']; [cbn in Hlast; congruence|].
           reflexivity.
        -- rewrite Hlog. cbn [log attempts]. rewrite Hlog1.
           rewrite <- !app_assoc. reflexivity.
        -- cbn [length]. lia.
        -- change (removelast (ok :: ok1 :: sts))
             with (ok :: removelast (ok1 :: sts)).
           now constructor.
        -- exact Hlast.
        -- intro Hne. cbn [length]. now rewrite (Hall Hne).
Qed.

Lemma increment_climbs (rungs : list rung) (step : pyfloat) (w : world S) :
  exists (ok : Z) (step' : pyfloat) (w' : world S),
    (let* ok := ops_analyze in climb rungs step ok) w = (Ok (ok, step'), w')
    /\ climbs rungs step w w' ok step'.
Proof.
  unfold bind, ops_analyze. destruct (analyze (solver w)) as [st0 s0].
  destruct (climb_spec rungs step st0 (mkWorld s0 (log w ++ [Analyze st0])))
    as (sts & ok & w' & Hclimb & Hlog & Hlen & Hfail & Hlast & Hall).
  eexists ok, _, w'. split; [exact Hclimb|].
  exists st0, sts. repeat split; try assumption.
  rewrite Hlog. cbn [log]. now rewrite <- app_assoc.
Qed.

Lemma narrowing_rungs (step tol : pyfloat) (sts : list Z) :
  (ended_on_narrowing (proportional_ladder step) sts = true
   <-> length sts = 3%nat \/ length sts = 4%nat)
  /\ (ended_on_narrowing (lateral_ladder step tol) sts = true
      <-> length sts = 3%nat \/ length sts = 4%nat).
Proof.
  do 8 (destruct sts as [|? sts];
        [cbn; split; split; intros; try lia; try discriminate;
         intuition discriminate|]).
  cbn [ended_on_narrowing proportional_ladder lateral_ladder length nth_error].
  destruct (length sts); cbn; split; split; intros; try discriminate; lia.
Qed.

Lemma proportional_loop_gives_up (fuel : nat) (step maximum step' : pyfloat)
  (results : AnalysisResults) (ok : Z) (w w' : world S) :
  proportional_increment opts step w = (Ok (ok, step'), w') ->
  ok <> 0%Z ->
  proportional_loop strain_c strain_s opts (Datatypes.S fuel) step maximum
    results w
  = (Ok (set_exit_message results "Analysis Failed"), w').
Proof.
  intros Hinc Hok. cbn [proportional_loop]. unfold bind at 1. rewrite Hinc.
  destruct (Z.eqb_spec ok 0); [contradiction | reflexivity].
Qed.

Lemma lateral_loop_gives_up (fuel : nat) (step maximum step' : pyfloat)
  (results : AnalysisResults) (ok : Z) (w w' : world S) :
  lateral_increment opts step w = (Ok (ok, step'), w') ->
  ok <> 0%Z ->
  lateral_loop strain_c strain_s opts (Datatypes.S fuel) step maximum
    results w
  = (Ok (set_exit_message results "Analysis Failed"), w').
Proof.
  intros Hinc Hok. cbn [lateral_loop]. unfold bind at 1. rewrite Hinc.
  destruct (Z.eqb_spec ok 0); [contradiction | reflexivity].
Qed.


End Ladder.

Section Paths.
Context {S : Type} `{Solver S}.

Variable strain_c strain_s : pyfloat -> pyfloat -> pyfloat.
Variable locate : list pyfloat -> option pyfloat -> result (nat * pyfloat).
Variable opts : options.

Local Abbreviation vertical_start :=
  (ControllerSpec.vertical_start strain_c strain_s opts).
Local Abbreviation limit_point_for := (ControllerSpec.limit_point_for locate opts).

Lemma record_time_run (r : AnalysisResults) (w : world S) :
  exists p ev ec es : pyfloat,
    record_time strain_c strain_s r w
    = (Ok (append_record r p (Fin 0) ev ec es), after_record w).
Proof.
  unfold record_time, bind, ops_getTime, ops_eigen, ops_nodeDisp, ret,
    after_record.
  destruct (eigen (solver w)) as [ev s]. cbn [solver log fst snd].
  do 4 eexists. reflexivity.
Qed.

Lemma record_lateral_run (r : AnalysisResults) (w : world S) :
  exists m ev ec es : pyfloat,
    record_lateral strain_c strain_s opts r w
    = (Ok (append_record r (P opts) m ev ec es), after_record w).
Proof.
  unfold record_lateral, bind, ops_getTime, ops_eigen, ops_nodeDisp,
    ops_eleForce, ret, after_record.
  destruct (eigen (solver w)) as [ev s]. cbn [solver log fst snd].
  do 4 eexists. reflexivity.
Qed.

Lemma history_lengths_append (r : AnalysisResults) (p m ev ec es : pyfloat) :
  history_lengths (append_record r p m ev ec es)
  = map Datatypes.S (history_lengths r).
Proof.
  unfold history_lengths, append_record. cbn.
  rewrite !length_app. cbn. repeat f_equal; lia.
Qed.

Lemma vertical_loop_fails (k n : nat) (r : AnalysisResults) (w : world S) :
  vertical_fails_at k w -> (k <= n)%nat ->
  exists (r' : AnalysisResults) (w' : world S),
    vertical_loop strain_c strain_s n r w = (Ok (Return r'), w')
    /\ exit_message r' = Some "Analysis Failed In Vertical Loading"
    /\ applied_axial_load_at_limit_point r'
       = applied_axial_load_at_limit_point r
    /\ maximum_abs_moment_at_limit_point r'
       = maximum_abs_moment_at_limit_point r
    /\ history_lengths r' = map (fun len => len + (k - 1))%nat (history_lengths r)
    /\ exists st : Z,
         st <> 0%Z
         /\ log w' = log w ++ map Analyze (repeat 0%Z (k - 1) ++ [st]).
Proof.
  revert n r w. induction k as [|k IH]; intros n r w Hfail Hle; [contradiction|].
  destruct n as [|n]; [lia|].
  cbn [vertical_loop]. unfold bind at 1. unfold ops_analyze at 1.
  cbn [vertical_fails_at] in Hfail.
  destruct (analyze (solver w)) as [ok s]. cbn [fst snd] in Hfail.
  destruct k as [|k].
  - unfold nonzero. destruct (Z.eqb_spec ok 0); [contradiction|].
    cbn [negb]. do 2 eexists. split; [reflexivity|].
    split; [reflexivity|]. split; [reflexivity|]. split; [reflexivity|].
    split.
    + unfold history_lengths. cbn. repeat f_equal; lia.
    + exists ok. split; [assumption | reflexivity].
  - destruct Hfail as [-> Hfail]. cbn [nonzero Z.eqb negb].
    unfold bind at 1.
    destruct (record_time_run r (mkWorld s (log w ++ [Analyze 0%Z])))
      as (p & ev & ec & es & ->).
    destruct (IH n (append_record r p (Fin 0) ev ec es) _ Hfail)
      as (r' & w' & Hloop & Hmsg & Hp & Hm & Hlen & st & Hst & Hlog); [lia|].
    exists r', w'. split; [exact Hloop|].
    split; [assumption|]. split; [assumption|]. split; [assumption|].
    split.
    + rewrite Hlen, history_lengths_append, map_map.
      apply map_ext. intro len. lia.
    + exists st. split; [assumption|]. rewrite Hlog.
      cbn [after_record log]. rewrite <- app_assoc.
      replace (Datatypes.S (Datatypes.S k) - 1)%nat with (Datatypes.S k) by lia.
      replace (Datatypes.S k - 1)%nat with k by lia.
      reflexivity.
Qed.

(** X2.  After a recorded increment the four monitors are tried in the
    order load drop, eigenvalue, concrete strain, steel strain; the
    first that holds gives the exit message, and a monitor whose
    threshold is [None] never holds.  On the proportional path the
    eigenvalue is compared with [eigenvalue_limit]; on the lateral path
    with 0, [eigenvalue_limit] only switching the monitor on. *)
Theorem monitors_first_hit (maximum current_time : pyfloat)
  (r : AnalysisResults) :
  snd (proportional_monitors opts maximum r)
  = first_hit
      [ (dropped (percent_load_drop_limit opts) maximum
           (last_of (applied_axial_load r)),
         "Load Drop Limit Reached");
        (below (eigenvalue_limit opts) (last_of (lowest_eigenvalue r)),
         "Eigenvalue Limit Reached");
        (below (concrete_strain_limit opts)
           (last_of (maximum_concrete_compression_strain r)),
         "Extreme Compressive Concrete Fiber Strain Limit Reached");
        (above (steel_strain_limit opts) (last_of (maximum_steel_strain r)),
         "Extreme Steel Fiber Strain Limit Reached") ]
  /\ snd (lateral_monitors opts maximum current_time r)
     = first_hit
         [ (dropped (percent_load_drop_limit opts) maximum current_time,
            "Load Drop Limit Reached");
           (below (option_map (fun _ => Fin 0) (eigenvalue_limit opts))
              (last_of (lowest_eigenvalue r)),
            "Eigenvalue Limit Reached");
           (below (concrete_strain_limit opts)
              (last_of (maximum_concrete_compression_strain r)),
            "Extreme Compressive Concrete Fiber Strain Limit Reached");
           (above (steel_strain_limit opts) (last_of (maximum_steel_strain r)),
            "Extreme Steel Fiber Strain Limit Reached") ].
Proof.
  unfold proportional_monitors, lateral_monitors, dropped, below, above.
  split;
    destruct (percent_load_drop_limit opts) as [pct|];
    destruct (eigenvalue_limit opts) as [ev|];
    destruct (concrete_strain_limit opts) as [cl|];
    destruct (steel_strain_limit opts) as [sl|];
    cbn [option_map first_hit];
    repeat match goal with
      | |- context [if ?b then _ else _] => destruct b; cbn [first_hit snd]
      | |- context [match ?b with true => _ | false => _ end] =>
          destruct b; cbn [first_hit snd]
      end;
    reflexivity.
Qed.

Lemma fdiv_by_positive (a : pyfloat) (n : nat) :
  (1 <= n)%nat -> exists v : pyfloat, fdiv a (of_Z (Z.of_nat n)) = Ok v.
Proof.
  intro Hn. unfold fdiv, of_Z, Qsign. cbn [Qnum inject_Z].
  destruct (Z.compare_spec (Z.of_nat n) 0) as [E | E | E]; try lia.
  destruct a; eexists; reflexivity.
Qed.

Lemma vertical_setup_run (w : world S) :
  (1 <= num_steps_vertical opts)%nat ->
  exists r0 : AnalysisResults,
    vertical_setup strain_c strain_s opts w
    = (Ok r0, snd (vertical_setup strain_c strain_s opts w))
    /\ history_lengths r0 = [1; 1; 1; 1; 1]%nat
    /\ applied_axial_load_at_limit_point r0 = None
    /\ maximum_abs_moment_at_limit_point r0 = None.
Proof.
  intro Hn. unfold vertical_setup.
  destruct (fdiv_by_positive (P opts) _ Hn) as [v Hv]. rewrite Hv.
  unfold bind, ops, lift. cbn [solver log].
  match goal with
  | |- context [record_time _ _ _ ?w0] =>
      destruct (record_time_run new_results w0) as (p & ev & ec & es & ->)
  end.
  eexists. split; [reflexivity|]. repeat split.
Qed.

(** C4, amended.  On the non-proportional path, if the vertical-load
    phase fails at increment [k] of [num_steps_vertical] (the [k]-th
    call of the solver is the first to return a nonzero status), the
    analysis returns at once: the exit message is
    'Analysis Failed In Vertical Loading', an analysis-failed exit, no
    limit point is set, and each series of the history holds the
    initial record and one record per converged increment, [k] records
    in all: three for a failure at increment 3 of 10. *)
Theorem vertical_failure_returns (fuel k : nat) (w : world S) :
  (k <= num_steps_vertical opts)%nat ->
  vertical_fails_at k (vertical_start w) ->
  exists (r : AnalysisResults) (w' : world S),
    run_ops_analysis strain_c strain_s locate opts
      "nonproportional_limit_point" fuel w = (Ok r, w')
    /\ exit_message r = Some "Analysis Failed In Vertical Loading"
    /\ exit_tag "Analysis Failed In Vertical Loading" = Some AnalysisFailed
    /\ applied_axial_load_at_limit_point r = None
    /\ maximum_abs_moment_at_limit_point r = None
    /\ history_lengths r = [k; k; k; k; k]
    /\ (k = 3%nat -> length (applied_axial_load r) = 3%nat)
    /\ exists st : Z,
         st <> 0%Z
         /\ log w'
            = log (vertical_start w) ++ map Analyze (repeat 0%Z (k - 1) ++ [st]).
Proof.
  intros Hle Hfail.
  assert (Hk : (1 <= k)%nat) by (destruct k; [contradiction | lia]).
  unfold vertical_start in Hfail.
  unfold run_ops_analysis.
  change (String.eqb (lower "nonproportional_limit_point")
            "proportional_limit_point") with false.
  change (String.eqb (lower "nonproportional_limit_point")
            "nonproportional_limit_point") with true.
  cbv iota. unfold bind at 1. unfold bind at 1 in Hfail.
  destruct (ops (build_ops_model 1) w) as [[[]| |] w0] eqn:Hbuild;
    try discriminate Hbuild.
  unfold nonproportional_limit_point. unfold bind at 1.
  destruct (vertical_setup_run w0) as (r0 & Hsetup & Hlen0 & Hp0 & Hm0);
    [lia|].
  rewrite Hsetup. unfold bind at 1.
  destruct (vertical_loop_fails k (num_steps_vertical opts) r0 _ Hfail Hle)
    as (r & w' & Hloop & Hmsg & Hp & Hm & Hlen & st & Hst & Hlog).
  rewrite Hloop. exists r, w'. split; [reflexivity|].
  assert (Hhist : history_lengths r = [k; k; k; k; k]).
  { rewrite Hlen, Hlen0. cbn [map]. repeat f_equal; lia. }
  split; [assumption|]. split; [reflexivity|].
  split; [congruence|]. split; [congruence|]. split; [assumption|].
  split.
  - intros ->. unfold history_lengths in Hhist. now inversion Hhist.
  - exists st. split; [assumption|]. rewrite Hlog.
    unfold ControllerSpec.vertical_start, bind. rewrite Hbuild.
    rewrite Hsetup. reflexivity.
Qed.

Lemma find_limit_point_by_tag (r : AnalysisResults) (msg : string) :
  exit_message r = Some msg ->
  find_limit_point locate opts r
  = match exit_tag msg with
    | Some tag => limit_point_for tag r
    | None => Raise (Exception "Unknown limit point")
    end.
Proof.
  intro Hmsg. unfold find_limit_point, exit_tag, ControllerSpec.limit_point_for.
  rewrite Hmsg.
  destruct (contains "Analysis Failed" msg);
    [|destruct (contains "Eigenvalue Limit" msg);
      [|destruct (contains
                    "Extreme Compressive Concrete Fiber Strain Limit Reached"
                    msg);
        [|destruct (contains "Extreme Steel Fiber Strain Limit Reached" msg);
          [|destruct (contains "Load Drop Limit Reached" msg)]]]];
    cbn [governing_target governing_series];
    try reflexivity;
    destruct (py_max (maximum_abs_moment r)); reflexivity.
Qed.


Lemma item_in (l : list pyfloat) (i : nat) (v : pyfloat) :
  item l i = Ok v -> In v l.
Proof.
  unfold item. destruct (nth_error l i) eqn:E; [|discriminate].
  intro Hv. inversion Hv; subst. eapply nth_error_In. exact E.
Qed.

Lemma interpolate_zero (l : list pyfloat) (i : nat) (x m : pyfloat) :
  all_zero l -> is_finite x = true ->
  interpolate_list l i x = Ok m -> m = Fin 0.
Proof.
  intros Hzero Hfin. unfold interpolate_list.
  destruct (item l i) as [lo| |] eqn:Elo; try discriminate.
  cbn [rbind].
  destruct (item l (i + 1)) as [hi| |] eqn:Ehi; try discriminate.
  cbn [rbind]. intro Hm. inversion Hm; subst m.
  apply item_in in Elo, Ehi.
  pose proof (proj1 (List.Forall_forall _ _) Hzero lo Elo) as <-.
  pose proof (proj1 (List.Forall_forall _ _) Hzero hi Ehi) as <-.
  destruct x as [q| | |]; try discriminate Hfin.
  change (fsub (Fin 0) (Fin 0)) with (Fin 0).
  unfold fmul, fin.
  assert (E : Qred (q * 0) = 0%Q).
  { change 0%Q with (Qred 0) at 2. apply Qred_complete. ring. }
  rewrite E. reflexivity.
Qed.

Lemma limit_point_for_ok (tag : ExitCondition) (r r' : AnalysisResults) :
  limit_point_for tag r = Ok r' ->
  exists (target : option pyfloat) (i : nat) (x p m : pyfloat),
    locate (governing_series tag r) target = Ok (i, x)
    /\ interpolate_list (maximum_abs_moment r) i x = Ok m
    /\ r' = set_limit_point r p m.
Proof.
  unfold limit_point_for.
  destruct (governing_target opts tag r) as [target| |]; try discriminate.
  cbn [rbind].
  destruct (locate (governing_series tag r) target) as [[i x]| |] eqn:El;
    try discriminate.
  cbn [rbind fst snd].
  destruct (interpolate_list (applied_axial_load r) i x) as [p| |];
    try discriminate.
  cbn [rbind].
  destruct (interpolate_list (maximum_abs_moment r) i x) as [m| |] eqn:Em;
    try discriminate.
  cbn [rbind]. intro E. inversion E.
  exists target, i, x, p, m. now rewrite El.
Qed.

Lemma find_limit_point_ok (r r' : AnalysisResults) :
  find_limit_point locate opts r = Ok r' ->
  exists (tag : ExitCondition) (target : option pyfloat) (i : nat)
    (x p m : pyfloat),
    locate (governing_series tag r) target = Ok (i, x)
    /\ interpolate_list (maximum_abs_moment r) i x = Ok m
    /\ r' = set_limit_point r p m.
Proof.
  intro Hfind.
  destruct (exit_message r) as [msg|] eqn:Hmsg;
    [|unfold find_limit_point in Hfind; rewrite Hmsg in Hfind; discriminate].
  rewrite (find_limit_point_by_tag r msg Hmsg) in Hfind.
  destruct (exit_tag msg) as [tag|]; [|discriminate].
  exists tag. now apply limit_point_for_ok.
Qed.

Lemma proportional_loop_moments (fuel : nat) (step maximum : pyfloat)
  (r r' : AnalysisResults) (w w' : world S) :
  proportional_loop strain_c strain_s opts fuel step maximum r w = (Ok r', w') ->
  all_zero (maximum_abs_moment r) -> all_zero (maximum_abs_moment r').
Proof.
  revert step maximum r w.
  induction fuel as [|fuel IH]; intros step maximum r w Hloop Hzero;
    [discriminate|].
  cbn [proportional_loop] in Hloop. unfold bind at 1 in Hloop.
  destruct (proportional_increment opts step w) as [[[ok step']| |] w1];
    try discriminate Hloop.
  destruct (ok =? 0)%Z.
  - unfold bind, ops in Hloop. cbn [solver log] in Hloop.
    match type of Hloop with
    | context [record_time _ _ _ ?w0] =>
        destruct (record_time_run r w0) as (p & ev & ec & es & Hrec)
    end.
    rewrite Hrec in Hloop.
    assert (Hzero' : all_zero
                       (maximum_abs_moment (append_record r p (Fin 0) ev ec es))).
    { cbn. apply Forall_app. split; [assumption | now constructor]. }
    destruct (proportional_monitors opts maximum _) as [maximum' [msg|]].
    + inversion Hloop; subst. exact Hzero'.
    + eapply IH; eassumption.
  - inversion Hloop; subst. exact Hzero.
Qed.

Lemma proportional_moments (fuel : nat) (r : AnalysisResults) (w w' : world S) :
  (forall l t i x, locate l t = Ok (i, x) -> is_finite x = true) ->
  proportional_limit_point strain_c strain_s locate opts fuel w = (Ok r, w') ->
  all_zero (maximum_abs_moment r)
  /\ maximum_abs_moment_at_limit_point r = Some (Fin 0).
Proof.
  intros Hfinite Hrun. unfold proportional_limit_point in Hrun.
  unfold bind, ops, ops_analyze in Hrun. cbn [solver log] in Hrun.
  destruct (analyze _) as [ok0 s0] in Hrun. cbn [solver log] in Hrun.
  match type of Hrun with
  | context [record_time _ _ _ ?w0] =>
      destruct (record_time_run new_results w0) as (p & ev & ec & es & Hrec)
  end.
  rewrite Hrec in Hrun.
  match type of Hrun with
  | context [proportional_loop _ _ _ ?f ?s ?m ?r0 ?w0] =>
      destruct (proportional_loop strain_c strain_s opts f s m r0 w0)
        as [[r1| |] w1] eqn:Hloop; try discriminate Hrun
  end.
  apply proportional_loop_moments in Hloop;
    [|cbn; repeat constructor].
  unfold lift in Hrun. inversion Hrun as [[Hfind Hw]].
  destruct (find_limit_point_ok r1 r Hfind)
    as (tag & target & i & x & p' & m & Hloc & Hint & ->).
  cbn [set_limit_point maximum_abs_moment maximum_abs_moment_at_limit_point].
  split; [exact Hloop|]. f_equal.
  eapply interpolate_zero; [exact Hloop | | exact Hint].
  eapply Hfinite. exact Hloc.
Qed.

Lemma run_proportional_moments (fuel : nat) (r : AnalysisResults)
  (w w' : world S) :
  (forall l t i x, locate l t = Ok (i, x) -> is_finite x = true) ->
  run_ops_analysis strain_c strain_s locate opts "proportional_limit_point"
    fuel w = (Ok r, w') ->
  all_zero (maximum_abs_moment r)
  /\ maximum_abs_moment_at_limit_point r = Some (Fin 0).
Proof.
  intros Hfinite Hrun. unfold run_ops_analysis in Hrun.
  change (String.eqb (lower "proportional_limit_point")
            "proportional_limit_point") with true in Hrun.
  cbv iota in Hrun. unfold bind at 1 in Hrun. unfold ops at 1 in Hrun.
  eapply proportional_moments; eassumption.
Qed.

End Paths.

Section Sweep.
Context {S : Type} `{Solver S}.

Variable strain_c strain_s : pyfloat -> pyfloat -> pyfloat.
Variable locate : list pyfloat -> option pyfloat -> result (nat * pyfloat).

Local Abbreviation finite_fractions := (ControllerSpec.finite_fractions locate).
Local Abbreviation swept := (ControllerSpec.swept strain_c strain_s locate).

Lemma interaction_loop_head (num_points : nat) (nonprop : pyfloat)
  (fuel : nat) (todo : list nat) (Ps Ms Ps' Ms' : list pyfloat)
  (w w' : world S) (v : pyfloat) :
  interaction_loop strain_c strain_s locate num_points nonprop fuel todo
    Ps Ms w = (Ok (Ps', Ms'), w') ->
  nth_error Ms 0 = Some v -> nth_error Ms' 0 = Some v.
Proof.
  revert Ps Ms w. induction todo as [|i todo IH]; intros Ps Ms w Hrun Hhead.
  - inversion Hrun; subst. exact Hhead.
  - cbn [interaction_loop] in Hrun. unfold bind, lift in Hrun.
    destruct (item Ps 0) as [P0| |]; try discriminate Hrun.
    destruct (fdiv _ _) as [iP| |]; try discriminate Hrun.
    destruct (analysis _ _ _ _ _ _ _) as [[results| |] w1];
      try discriminate Hrun.
    destruct (py_max _) as [top| |]; try discriminate Hrun.
    eapply IH; [exact Hrun|].
    destruct Ms as [|m0 Ms]; [discriminate Hhead | exact Hhead].
Qed.

Lemma interaction_loop_swept (num_points : nat) (nonprop : pyfloat)
  (fuel : nat) (todo : list nat) (top : pyfloat)
  (Ps Ms Ps' Ms' : list pyfloat) (w w' : world S) :
  interaction_loop strain_c strain_s locate num_points nonprop fuel todo
    (top :: Ps) Ms w = (Ok (Ps', Ms'), w') ->
  exists pairs : list (pyfloat * pyfloat),
    swept num_points nonprop fuel top todo w pairs w'
    /\ Ps' = (top :: Ps) ++ map fst pairs
    /\ Ms' = Ms ++ map snd pairs.
Proof.
  revert Ps Ms w. induction todo as [|i todo IH]; intros Ps Ms w Hrun.
  - inversion Hrun; subst. exists []. cbn [map]. rewrite !app_nil_r.
    split; [constructor | split; reflexivity].
  - cbn [interaction_loop] in Hrun. unfold bind, lift in Hrun.
    cbn [item nth_error] in Hrun.
    destruct (fdiv _ _) as [iP| |] eqn:HiP; try discriminate Hrun.
    destruct (analysis _ _ _ _ _ _ _) as [[r| |] w1] eqn:Hr;
      try discriminate Hrun.
    destruct (py_max _) as [m| |] eqn:Hm; try discriminate Hrun.
    change ((top :: Ps) ++ [iP]) with (top :: (Ps ++ [iP])) in Hrun.
    destruct (IH _ _ _ Hrun) as (pairs & Hswept & HPs & HMs).
    exists ((iP, m) :: pairs). split; [|split].
    + econstructor; eassumption.
    + rewrite HPs. cbn [map fst]. cbn [app]. now rewrite <- app_assoc.
    + rewrite HMs. cbn [map snd]. now rewrite <- app_assoc.
Qed.

(** X1.  A sweep that returns ran one proportional analysis, took the
    greatest applied axial load [top] of its history as the first
    point, with moment 0, and then ran [num_points - 1]
    non-proportional analyses, for [i] from 1 to [num_points - 1], at
    the axial load [top * (num_points - 1 - i) / (num_points - 1)],
    collecting that load and the greatest moment of each. *)
Theorem interaction_sweep_shape (num_points fuel : nat)
  (prop nonprop : pyfloat) (w w' : world S) (Ps Ms : list pyfloat) :
  run_ops_interaction strain_c strain_s locate num_points prop nonprop fuel w
  = (Ok (Ps, Ms), w') ->
  exists (r : AnalysisResults) (w1 : world S) (top : pyfloat)
    (pairs : list (pyfloat * pyfloat)),
    analysis strain_c strain_s locate
      (with_load_incr_factor default_options prop)
      "proportional_limit_point" fuel w = (Ok r, w1)
    /\ py_max (applied_axial_load r) = Ok top
    /\ swept num_points nonprop fuel top (seq 1 (num_points - 1)) w1 pairs w'
    /\ length pairs = (num_points - 1)%nat
    /\ Ps = top :: map fst pairs
    /\ Ms = Fin 0 :: map snd pairs.
Proof.
  intro Hrun. unfold run_ops_interaction, bind, lift in Hrun.
  destruct (analysis _ _ _ _ _ _ _) as [[r| |] w1] eqn:Hr;
    try discriminate Hrun.
  destruct (py_max _) as [top| |] eqn:Htop; try discriminate Hrun.
  destruct (py_in _ _); [discriminate Hrun|].
  destruct (interaction_loop_swept _ _ _ _ _ _ _ _ _ _ _ Hrun)
    as (pairs & Hswept & HPs & HMs).
  exists r, w1, top, pairs. repeat split; try assumption.
  clear - Hswept.
  assert (Hlen : length pairs = length (seq 1 (num_points - 1))).
  { induction Hswept; cbn [length]; congruence. }
  now rewrite Hlen, length_seq.
Qed.


End Sweep.
End ControllerFacts.

(** ** Runs of the controller on the scripted solver *)

Module Runs.
Import PyFloat Ops Controller Scripted ControllerSpec ControllerFacts.
Local Open Scope string_scope.
Local Open Scope list_scope.



(** On the lateral path the last rung sets the tolerance to 1e-4, one
    order of magnitude below the default 1e-3, where the proportional
    path sets 1e-2. *)
Lemma lateral_last_rung_tolerance :
  exists w' : world script,
    lateral_increment default_options (Fin 1)
      (start [1; 1; 1; 1; 1; 1; 1; 1]%Z []) = (Ok (1%Z, Fin 1), w')
    /\ List.last (removelast (log w')) (Analyze 0)
       = Command (test "NormUnbalance" (Fin (1 # 10000)) 10)
    /\ tol_default = Fin (1 # 1000).
Proof.
  eexists. split; [vm_compute; reflexivity|]. split; reflexivity.
Qed.

(** Against C4 as stated: the third call of the solver in the vertical
    phase fails, of ten increments, and the history has three records,
    not four. *)
Lemma third_increment_failure_leaves_three_records :
  exists (r : AnalysisResults) (w' : world script),
    run_ops_analysis flat_strain flat_strain first_step ten_steps
      "nonproportional_limit_point" 0 (start [0; 0; 1]%Z []) = (Ok r, w')
    /\ statuses_of (log w') = [0; 0; 1]%Z
    /\ exit_message r = Some "Analysis Failed In Vertical Loading"
    /\ applied_axial_load r = [Fin 0; Fin 10; Fin 20]
    /\ length (applied_axial_load r) <> 4%nat.
Proof.
  do 2 eexists. split; [vm_compute; reflexivity|].
  repeat split. discriminate.
Qed.

Lemma vertical_failure_returns_witness :
  exists (r : AnalysisResults) (w' : world script),
    run_ops_analysis flat_strain flat_strain first_step ten_steps
      "nonproportional_limit_point" 0 (start [0; 0; 1]%Z []) = (Ok r, w')
    /\ exit_message r = Some "Analysis Failed In Vertical Loading"
    /\ exit_tag "Analysis Failed In Vertical Loading" = Some AnalysisFailed
    /\ applied_axial_load_at_limit_point r = None
    /\ maximum_abs_moment_at_limit_point r = None
    /\ history_lengths r = [3; 3; 3; 3; 3]%nat
    /\ (3 = 3 -> length (applied_axial_load r) = 3)%nat
    /\ exists st : Z,
         st <> 0%Z
         /\ log w'
            = log (vertical_start flat_strain flat_strain ten_steps
                     (start [0; 0; 1]%Z []))
              ++ map Analyze (repeat 0%Z (3 - 1) ++ [st]).
Proof.
  apply (vertical_failure_returns flat_strain flat_strain first_step ten_steps
           0 3 (start [0; 0; 1]%Z [])).
  - cbn. lia.
  - vm_compute. repeat split. intro E. discriminate E.
Defined.

(** C2, where the code departs from it: on the lateral path, with the
    eigenvalue threshold configured as -1, the eigenvalue monitor fires
    at an eigenvalue of -1/2, which has not fallen below the
    threshold. *)
Lemma lateral_eigenvalue_monitor_compares_with_zero :
  exists (r : AnalysisResults) (w' : world script),
    run_ops_analysis flat_strain flat_strain first_step threshold_minus_one
      "nonproportional_limit_point" 5
      (start [] [Fin 1; Fin 1; Fin 1; Fin 1; Fin (- (1 # 2))]) = (Ok r, w')
    /\ exit_message r = Some "Eigenvalue Limit Reached"
    /\ eigenvalue_limit threshold_minus_one = Some (Fin (-1))
    /\ last_of (lowest_eigenvalue r) = Fin (- (1 # 2))
    /\ flt (Fin (- (1 # 2))) (Fin (-1)) = false.
Proof.
  do 2 eexists. split; [vm_compute; reflexivity|]. repeat split.
Qed.

(** The same readings on the proportional path: the monitor compares
    with the threshold and does not fire. *)
Lemma proportional_eigenvalue_monitor_compares_with_threshold :
  snd (proportional_monitors threshold_minus_one (Fin 0)
         (mkResults [Fin 0; Fin 0] [Fin 0; Fin 0] [Fin 1; Fin (- (1 # 2))] []
            [Fin 0; Fin 0] [Fin 0; Fin 0] None None None)) = None
  /\ snd (lateral_monitors threshold_minus_one (Fin 0) (Fin 0)
            (mkResults [Fin 0; Fin 0] [Fin 0; Fin 0] [Fin 1; Fin (- (1 # 2))]
               [] [Fin 0; Fin 0] [Fin 0; Fin 0] None None None))
     = Some "Eigenvalue Limit Reached".
Proof. split; reflexivity. Qed.


(** The guard of [run_ops_interaction] compares a one-element list of
    a float with [None] and [[None]]: it is false for every float. *)
Lemma axial_guard_never_fires (top : pyfloat) :
  py_in (PyList (map PyFloat [top])) [PyNone; PyList [PyNone]] = false.
Proof. reflexivity. Qed.

(** C9, where the code departs from it: an axial-only analysis whose
    recorded loads are all infinite has no finite maximum load, and the
    sweep does not raise; it goes on with the infinite capacity. *)
Lemma infinite_axial_capacity_is_accepted :
  exists w' : world script,
    run_ops_interaction flat_strain flat_strain first_step 2 PosInf
      (Fin (1 # 100)) 5 (start [0; 0; 1; 1; 1; 1; 1; 1; 1; 1; 1]%Z [])
    = (Ok ([PosInf; NaN], [Fin 0; Fin 0]), w')
    /\ is_finite PosInf = false.
Proof. eexists. split; [vm_compute; reflexivity | reflexivity]. Qed.

Lemma first_step_finite : finite_fractions first_step.
Proof.
  intros l target i x. unfold first_step.
  destruct l; intro E; inversion E. reflexivity.
Defined.


Lemma interaction_sweep_shape_witness :
  exists (Ps Ms : list pyfloat) (w' : world script),
    run_ops_interaction flat_strain flat_strain first_step 3 (Fin 1)
      (Fin (1 # 100)) 5
      (start [0; 0; 1; 1; 1; 1; 1; 1; 1; 1; 1; 1; 1]%Z []) = (Ok (Ps, Ms), w')
    /\ exists (r : AnalysisResults) (w1 : world script) (top : pyfloat)
         (pairs : list (pyfloat * pyfloat)),
         analysis flat_strain flat_strain first_step
           (with_load_incr_factor default_options (Fin 1))
           "proportional_limit_point" 5
           (start [0; 0; 1; 1; 1; 1; 1; 1; 1; 1; 1; 1; 1]%Z []) = (Ok r, w1)
         /\ py_max (applied_axial_load r) = Ok top
         /\ swept flat_strain flat_strain first_step 3 (Fin (1 # 100)) 5 top
              (seq 1 (3 - 1)) w1 pairs w'
         /\ length pairs = (3 - 1)%nat
         /\ Ps = top :: map fst pairs
         /\ Ms = Fin 0 :: map snd pairs.
Proof.
  do 3 eexists. split; [vm_compute; reflexivity|].
  eapply interaction_sweep_shape. vm_compute. reflexivity.
Defined.

End Runs.

Module MaterialEdges.
Import Material MaterialSpec MaterialFacts.
Local Open Scope Q_scope.

Lemma steel_stress_law (m : AciStrainCompatibilitySteelMaterial) (s : Q) :
  ~ Es m == 0 -> steel_stress m s = Ok (plastic_law m s).
Proof.
  intro HEs. unfold steel_stress, ey, plastic_law.
  destruct (Qeq_bool (Es m) 0) eqn:E.
  - apply Qeq_bool_iff in E. contradiction.
  - cbn [rbind]. repeat case_Qle; reflexivity.
Qed.

Lemma steel_get_stress_law (m : AciStrainCompatibilitySteelMaterial)
  (strain : list Q) :
  ~ Es m == 0 -> steel_get_stress m strain = Ok (map (plastic_law m) strain).
Proof.
  intro HEs. unfold steel_get_stress.
  induction strain as [|s strain IH]; [reflexivity|].
  cbn [map_result map]. rewrite (steel_stress_law m s HEs), IH. reflexivity.
Qed.

Lemma plastic_law_odd (m : AciStrainCompatibilitySteelMaterial) (s : Q) :
  0 < Fy m -> 0 < Es m -> plastic_law m (- s) == - plastic_law m s.
Proof.
  intros HFy HEs. pose proof (yield_strain_times_modulus m HEs) as Hy.
  unfold plastic_law. cbv zeta.
  set (y := Fy m / Es m) in *.
  assert (0 < y) by nra.
  repeat case_Qle; try lra; nra.
Qed.



(** X4.  The steel [get_stress] on an array: an empty array gives an empty
    one whatever the material; a zero modulus raises the division
    error of [ey] on every array that is not empty, and on no other
    material does the method raise: it gives one stress for each
    strain, in order. *)
Theorem steel_get_stress_edges (m : AciStrainCompatibilitySteelMaterial) :
  steel_get_stress m [] = Ok []
  /\ (forall strain : list Q, Es m == 0 -> strain <> [] ->
        steel_get_stress m strain = Raise ZeroDivisionError)
  /\ (forall strain : list Q, ~ Es m == 0 ->
        exists stress : list Q,
          steel_get_stress m strain = Ok stress
          /\ length stress = length strain
          /\ Forall2 (fun s t => steel_stress m s = Ok t) strain stress).
Proof.
  split; [reflexivity|]. split.
  - intros [|s strain] HEs Hne; [contradiction|].
    unfold steel_get_stress. cbn [map_result]. unfold steel_stress, ey.
    apply Qeq_bool_iff in HEs. rewrite HEs. reflexivity.
  - intros strain HEs. exists (map (plastic_law m) strain).
    split; [now apply steel_get_stress_law|].
    split; [now rewrite length_map|].
    induction strain as [|s strain IH]; cbn [map]; constructor;
      [now apply steel_stress_law | exact IH].
Qed.

Lemma steel_get_stress_edges_witness :
  steel_get_stress (SteelMaterial 60 0) [1 # 1000] = Raise ZeroDivisionError
  /\ exists stress : list Q,
       steel_get_stress (SteelMaterial 60 29000) [1 # 1000; 1 # 100]
       = Ok stress
       /\ length stress = 2%nat
       /\ Forall2 (fun s t => steel_stress (SteelMaterial 60 29000) s = Ok t)
            [1 # 1000; 1 # 100] stress.
Proof.
  split.
  - apply (proj1 (proj2 (steel_get_stress_edges (SteelMaterial 60 0))));
      [reflexivity | discriminate].
  - apply (proj2 (proj2 (steel_get_stress_edges (SteelMaterial 60 29000)))).
    discriminate.
Defined.

(** The strain below which the stress block acts lies between
    [-0.00105] and [-0.00045] whatever the strength and the units. *)
Lemma block_threshold (b : Q) :
  0.65 <= b <= 0.85 ->
  - 0.00105 <= extreme_concrete_compression_strain * (1 - b) <= - 0.00045.
Proof. unfold extreme_concrete_compression_strain. intros [H1 H2]. split; lra. Qed.



End MaterialEdges.

Module EngineLaws.
Import Material StrainCompatibility MaterialSpec EngineSpec StressSpec
  MaterialFacts EngineFacts MaterialEdges.
Local Open Scope Q_scope.

Lemma get_stress_law (mat : material) (strain : list Q) :
  material_ok mat -> get_stress mat strain = Ok (map (scalar_law mat) strain).
Proof.
  destruct mat as [m | [f u]]; cbn [material_ok get_stress scalar_law];
    intro Hok.
  - now apply steel_get_stress_law.
  - cbn [units fc] in *. unfold concrete_get_stress.
    rewrite (beta1_ok u f Hok). reflexivity.
Qed.

Lemma put_take_assigned (i : Z) (law : Z -> Q -> Q) (fs : list Fiber)
  (strain stress : list Q) :
  length strain = length fs -> length stress = length fs ->
  put_mask (map (fun f => Z.eqb (fm f) i) fs)
    (map (law i) (take_mask (map (fun f => Z.eqb (fm f) i) fs) strain)) stress
  = assigned [i] law fs strain stress.
Proof.
  revert strain stress.
  induction fs as [|f fs IH]; intros [|s strain] [|o stress];
    simpl; try discriminate; try reflexivity.
  intros Hs Ho. injection Hs as Hs. injection Ho as Ho.
  destruct (Z.eqb_spec (fm f) i) as [-> | Hne]; simpl; now rewrite IH.
Qed.

Lemma assigned_cons (i : Z) (mats : list Z) (law : Z -> Q -> Q)
  (fs : list Fiber) (strain stress : list Q) :
  assigned mats law fs strain (assigned [i] law fs strain stress)
  = assigned (i :: mats) law fs strain stress.
Proof.
  revert strain stress.
  induction fs as [|f fs IH]; intros [|s strain] [|o stress];
    simpl; try reflexivity.
  rewrite IH. destruct (Z.eqb (fm f) i), (existsb (Z.eqb (fm f)) mats);
    reflexivity.
Qed.

Lemma assigned_nil (law : Z -> Q -> Q) (fs : list Fiber)
  (strain stress : list Q) :
  length strain = length fs -> length stress = length fs ->
  assigned [] law fs strain stress = stress.
Proof.
  revert strain stress.
  induction fs as [|f fs IH]; intros [|s strain] [|o stress];
    simpl; try discriminate; try reflexivity.
  intros Hs Ho. injection Hs as Hs. injection Ho as Ho. now rewrite IH.
Qed.

Lemma assigned_length (mats : list Z) (law : Z -> Q -> Q) (fs : list Fiber)
  (strain stress : list Q) :
  length strain = length fs -> length stress = length fs ->
  length (assigned mats law fs strain stress) = length fs.
Proof.
  revert strain stress.
  induction fs as [|f fs IH]; intros [|s strain] [|o stress];
    simpl; try discriminate; try reflexivity.
  intros Hs Ho. injection Hs as Hs. injection Ho as Ho. now rewrite IH.
Qed.

Lemma assigned_nth (mats : list Z) (law : Z -> Q -> Q) (fs : list Fiber)
  (strain stress : list Q) (j : nat) (f : Fiber) (s : Q) :
  length stress = length fs ->
  nth_error fs j = Some f -> nth_error strain j = Some s ->
  exists o : Q,
    nth_error stress j = Some o
    /\ nth_error (assigned mats law fs strain stress) j
       = Some (if existsb (Z.eqb (fm f)) mats then law (fm f) s else o).
Proof.
  revert strain stress j.
  induction fs as [|f0 fs IH]; intros [|s0 strain] [|o0 stress] [|j];
    simpl; try discriminate.
  - intros _ Hf Hs. inversion Hf; inversion Hs; subst.
    exists o0. split; reflexivity.
  - intros Hlen Hf Hs. injection Hlen as Hlen. now apply IH.
Qed.

Section Laws.

Variable self : AciStrainCompatibility.

Lemma stress_loop_assigned (mats : list Z) (strain stress : list Q) :
  (forall i : Z, In i mats ->
     exists mat : material, materials self !! i = Some mat /\ material_ok mat) ->
  length strain = length (fibers self) ->
  length stress = length (fibers self) ->
  stress_loop self mats strain stress
  = Ok (assigned mats (law_of self) (fibers self) strain stress).
Proof.
  revert stress. induction mats as [|i mats IH]; intros stress Hreg Hs Ho.
  - cbn [stress_loop]. now rewrite assigned_nil.
  - cbn [stress_loop].
    destruct (Hreg i (or_introl eq_refl)) as (mat & Hmat & Hok).
    rewrite Hmat, (get_stress_law mat _ Hok). cbn [rbind].
    replace (scalar_law mat) with ((law_of self) i)
      by (unfold law_of; now rewrite Hmat).
    rewrite put_take_assigned by assumption.
    rewrite IH.
    + now rewrite assigned_cons.
    + intros j Hj. apply Hreg. now right.
    + assumption.
    + now apply assigned_length.
Qed.

Lemma fiber_stresses_assigned (strain : list Q) :
  registry_ok self -> length strain = length (fibers self) ->
  fiber_stresses self strain
  = Ok (assigned (uniq_mats self) (law_of self) (fibers self) strain
          (repeat 0 (length (fibers self)))).
Proof.
  intros Hreg Hlen. unfold fiber_stresses.
  apply stress_loop_assigned; try assumption. apply repeat_length.
Qed.

Lemma existsb_In (i : Z) (mats : list Z) :
  existsb (Z.eqb i) mats = true <-> In i mats.
Proof.
  rewrite existsb_exists. split.
  - intros (j & Hj & E). apply Z.eqb_eq in E. now subst.
  - intro Hin. exists i. split; [assumption | apply Z.eqb_refl].
Qed.

(** X6.  Lines 199-203.  The materials of [uniq_mats] being registered and
    usable, the loop over them gives every fiber one stress: for a
    fiber whose material id is in [uniq_mats], what the [get_stress] of
    the material registered under that id gives for the strain of that
    fiber; for any other fiber, zero.  So what counts of [uniq_mats]
    is which ids are in it, not their order or their repetitions. *)
Theorem fiber_stresses_by_material (strain : list Q) :
  registry_ok self -> length strain = length (fibers self) ->
  exists stress : list Q,
    fiber_stresses self strain = Ok stress
    /\ length stress = length (fibers self)
    /\ forall (j : nat) (f : Fiber) (s : Q),
         nth_error (fibers self) j = Some f -> nth_error strain j = Some s ->
         exists t : Q,
           nth_error stress j = Some t
           /\ (In (fm f) (uniq_mats self) ->
               exists mat : material,
                 materials self !! fm f = Some mat
                 /\ get_stress mat [s] = Ok [t])
           /\ (~ In (fm f) (uniq_mats self) -> t = 0).
Proof.
  intros Hreg Hlen. eexists. split; [now apply fiber_stresses_assigned|].
  split; [apply assigned_length; [assumption | apply repeat_length]|].
  intros j f s Hf Hs.
  destruct (assigned_nth (uniq_mats self) (law_of self) (fibers self) strain
              (repeat 0 (length (fibers self))) j f s
              (repeat_length _ _) Hf Hs) as (o & Ho & Hnth).
  assert (o = 0) as ->.
  { apply nth_error_In, repeat_spec in Ho. exact Ho. }
  eexists. split; [exact Hnth|]. split.
  - intro Hin. destruct (Hreg _ Hin) as (mat & Hmat & Hok).
    exists mat. split; [assumption|].
    apply existsb_In in Hin. rewrite Hin.
    rewrite (get_stress_law mat [s] Hok). unfold law_of. now rewrite Hmat.
  - intro Hnot.
    destruct (existsb (Z.eqb (fm f)) (uniq_mats self)) eqn:E; [|reflexivity].
    apply existsb_In in E. contradiction.
Qed.

End Laws.

End EngineLaws.

Module EngineBounds.
Import Material StrainCompatibility MaterialSpec EngineSpec StressSpec
  MaterialFacts EngineFacts MaterialEdges EngineLaws.
Local Open Scope Q_scope.

Lemma good_ok (mat : material) : good mat -> material_ok mat.
Proof.
  destruct mat as [m | cm]; cbn; [intros [_ HEs]; lra | now intros [Hu _]].
Qed.

Lemma sound_registry_ok (self : AciStrainCompatibility) :
  sound self -> registry_ok self.
Proof.
  intros Hs i Hi. destruct (Hs i Hi) as (mat & Hmat & Hgood).
  exists mat. split; [assumption | now apply good_ok].
Qed.

Lemma block_law_range (cm : AciStrainCompatibilityConcreteMaterial) (b s : Q) :
  0 <= fc cm -> - 0.85 * fc cm <= block_law cm b s <= 0.
Proof. intro Hfc. unfold block_law. case_Qle; split; lra. Qed.

Lemma law_of_range (self : AciStrainCompatibility) (i : Z) (s : Q) :
  sound self -> In i (uniq_mats self) ->
  least_stress self i <= law_of self i s <= greatest_stress self i.
Proof.
  intros Hs Hi. destruct (Hs i Hi) as (mat & Hmat & Hgood).
  unfold law_of, least_stress, greatest_stress. rewrite Hmat.
  destruct mat as [m | cm]; cbn [scalar_law].
  - destruct Hgood as [HFy HEs]. now apply plastic_law_bounded.
  - destruct Hgood as [_ Hfc]. now apply block_law_range.
Qed.

Lemma axial_sum_bounds (self : AciStrainCompatibility) (fs : list Fiber)
  (strain : list Q) :
  sound self -> length strain = length fs ->
  Forall (fun f => 0 <= fA f) fs ->
  sigma (map (fun f => fiber_least self f * fA f) fs)
  <= sigma (map (fun sf => fst sf * fA (snd sf))
              (combine (assigned (uniq_mats self) (law_of self) fs strain
                          (repeat 0 (length fs))) fs))
  <= sigma (map (fun f => fiber_greatest self f * fA f) fs).
Proof.
  intros Hs. revert strain.
  induction fs as [|f fs IH]; intros [|s strain] Hlen HA;
    try discriminate Hlen.
  - cbn. split; lra.
  - injection Hlen as Hlen. apply Forall_cons_iff in HA as [Hf HA].
    specialize (IH strain Hlen HA).
    cbn [length repeat assigned combine map sigma fst snd].
    unfold fiber_least at 1, fiber_greatest at 1.
    destruct (existsb (Z.eqb (fm f)) (uniq_mats self)) eqn:E.
    + apply existsb_In in E.
      pose proof (law_of_range self (fm f) s Hs E) as [H1 H2].
      split; nra.
    + split; lra.
Qed.

Section Bounds.

Variables sin cos : Q -> Q.
Variable self : AciStrainCompatibility.
Variables xpt ypt angle : Q.

Local Abbreviation resultants := (EngineSpec.resultants self).

Lemma compute_point_inv (P Mx My et : Q) :
  compute_point sin cos self xpt ypt angle = Ok (P, Mx, My, et) ->
  exists (yc : Q) (strain stress : list Q),
    extreme_concrete_compression_fiber sin cos self xpt ypt angle = Ok yc
    /\ fiber_strains sin cos self xpt ypt angle = Ok strain
    /\ length strain = length (fibers self)
    /\ fiber_stresses self strain = Ok stress
    /\ extreme_steel_tensile_strain sin cos self xpt ypt angle = Ok et
    /\ P == fst (fst (resultants stress))
    /\ Mx == snd (fst (resultants stress))
    /\ My == snd (resultants stress).
Proof.
  intro Hcp.
  destruct (extreme_concrete_compression_fiber sin cos self xpt ypt angle)
    as [yc| |] eqn:Hyc;
    try (unfold compute_point, fiber_strains in Hcp; rewrite Hyc in Hcp;
         discriminate Hcp).
  destruct (fiber_strains_length sin cos self xpt ypt angle yc Hyc)
    as (strain & Hstrain & Hlen).
  destruct (fiber_stresses self strain) as [stress| |] eqn:Hstress;
    try (unfold compute_point in Hcp; rewrite Hstrain in Hcp;
         cbn [rbind] in Hcp; rewrite Hstress in Hcp; discriminate Hcp).
  destruct (extreme_steel_tensile_strain sin cos self xpt ypt angle)
    as [et'| |] eqn:Het;
    try (unfold compute_point in Hcp; rewrite Hstrain in Hcp;
         cbn [rbind] in Hcp; rewrite Hstress in Hcp; cbn [rbind] in Hcp;
         rewrite Het in Hcp; discriminate Hcp).
  destruct (compute_point_ok sin cos self xpt ypt angle strain stress et'
              Hstrain Hstress Het) as (P' & Mx' & My' & Hcp' & HP & HMx & HMy).
  rewrite Hcp' in Hcp. inversion Hcp; subst.
  exists yc, strain, stress. repeat split; assumption.
Qed.


Lemma tension_sum_nonneg (fs : list Fiber) (strain : list Q) :
  sound self -> length strain = length fs ->
  Forall (fun f => 0 <= fA f) fs ->
  Forall (fun s => 0 < s) strain ->
  0 <= sigma (map (fun sf => fst sf * fA (snd sf))
            (combine (assigned (uniq_mats self) (law_of self) fs strain
                        (repeat 0 (length fs))) fs)).
Proof.
  intros Hs. revert strain.
  induction fs as [|f fs IH]; intros [|s strain] Hlen HA Hpos;
    try discriminate Hlen.
  - cbn. lra.
  - injection Hlen as Hlen. apply Forall_cons_iff in HA as [Hf HA].
    apply Forall_cons_iff in Hpos as [Hs0 Hpos].
    specialize (IH strain Hlen HA Hpos).
    cbn [length repeat assigned combine map sigma fst snd].
    assert (0 <= (if existsb (Z.eqb (fm f)) (uniq_mats self)
                  then law_of self (fm f) s else 0)); [|nra].
    destruct (existsb (Z.eqb (fm f)) (uniq_mats self)) eqn:E; [|lra].
    apply existsb_In in E. destruct (Hs _ E) as (mat & Hmat & Hgood).
    unfold law_of. rewrite Hmat.
    destruct mat as [m | cm]; cbn [scalar_law].
    + destruct Hgood as [HFy HEs].
      pose proof (yield_strain_times_modulus m HEs) as Hy.
      unfold plastic_law. cbv zeta. set (y := Fy m / Es m) in *.
      assert (0 < y) by nra.
      repeat case_Qle; try lra; nra.
    + unfold block_law.
      pose proof (block_threshold _ (beta1_of_range (units cm) (fc cm)))
        as [_ Hhi].
      case_Qle; lra.
Qed.

(** X8.  When no concrete is in compression (the extreme concrete
    compression fiber is not on the compression side of the axis) the
    section is in tension as a whole: with good materials and areas
    that are not negative, the axial force is not negative. *)
Theorem no_compression_gives_tension (yc P Mx My et : Q) :
  sound self ->
  Forall (fun f => 0 <= fA f) (fibers self) ->
  extreme_concrete_compression_fiber sin cos self xpt ypt angle = Ok yc ->
  0 <= yc ->
  compute_point sin cos self xpt ypt angle = Ok (P, Mx, My, et) ->
  0 <= P.
Proof.
  intros Hs HA Hyc Hpos Hcp.
  destruct (compute_point_inv P Mx My et Hcp)
    as (yc' & strain & stress & _ & Hstrain & Hlen & Hstress & _ & HP & _).
  rewrite (fiber_stresses_assigned self strain (sound_registry_ok self Hs) Hlen)
    in Hstress.
  inversion Hstress; subst stress. rewrite HP.
  unfold EngineSpec.resultants. cbn [fst snd].
  apply tension_sum_nonneg; try assumption.
  unfold fiber_strains in Hstrain. rewrite Hyc in Hstrain.
  cbn [rbind] in Hstrain.
  destruct (Qltb_spec yc 0); [lra|].
  inversion Hstrain. apply List.Forall_map. apply List.Forall_forall.
  intros one Hin. apply repeat_spec in Hin. subst one.
  unfold default_tensile_strain. lra.
Qed.

End Bounds.

End EngineBounds.

Module EngineAxis.
Import Material StrainCompatibility MaterialSpec EngineSpec StressSpec
  MaterialFacts EngineFacts MaterialEdges EngineLaws EngineBounds.
Local Open Scope Q_scope.

Lemma Qle_bool_compat (a a' b b' : Q) :
  a == a' -> b == b' -> Qle_bool a b = Qle_bool a' b'.
Proof.
  intros Ha Hb.
  destruct (Qle_bool_spec a b), (Qle_bool_spec a' b'); try reflexivity; lra.
Qed.

Lemma Qltb_compat (a a' b b' : Q) :
  a == a' -> b == b' -> Qltb a b = Qltb a' b'.
Proof. intros Ha Hb. unfold Qltb. f_equal. now apply Qle_bool_compat. Qed.

Lemma Qmin_compat (a a' b b' : Q) :
  a == a' -> b == b' -> Qmin a b == Qmin a' b'.
Proof.
  intros Ha Hb.
  destruct (Qmin_cases a b) as [[-> ?] | [-> ?]],
           (Qmin_cases a' b') as [[-> ?] | [-> ?]]; lra.
Qed.

Lemma Qmax_compat (a a' b b' : Q) :
  a == a' -> b == b' -> Qmax a b == Qmax a' b'.
Proof.
  intros Ha Hb.
  destruct (Qmax_cases a b) as [[-> ?] | [-> ?]],
           (Qmax_cases a' b') as [[-> ?] | [-> ?]]; lra.
Qed.

Lemma fold_min_compat (l l' : list Q) (a a' : Q) :
  Forall2 Qeq l l' -> a == a' -> fold_left Qmin l a == fold_left Qmin l' a'.
Proof.
  intro Hl. revert a a'. induction Hl as [|b b' l l' Hb Hl IH]; intros a a' Ha.
  - exact Ha.
  - cbn [fold_left]. apply IH. now apply Qmin_compat.
Qed.

Lemma fold_max_compat (l l' : list Q) (a a' : Q) :
  Forall2 Qeq l l' -> a == a' -> fold_left Qmax l a == fold_left Qmax l' a'.
Proof.
  intro Hl. revert a a'. induction Hl as [|b b' l l' Hb Hl IH]; intros a a' Ha.
  - exact Ha.
  - cbn [fold_left]. apply IH. now apply Qmax_compat.
Qed.

Lemma amin_compat (l l' : list Q) :
  Forall2 Qeq l l' -> agree Qeq (amin l) (amin l').
Proof.
  intros [|a a' l0 l0' Ha Hl]; cbn; [reflexivity|]. now apply fold_min_compat.
Qed.

Lemma amax_compat (l l' : list Q) :
  Forall2 Qeq l l' -> agree Qeq (amax l) (amax l').
Proof.
  intros [|a a' l0 l0' Ha Hl]; cbn; [reflexivity|]. now apply fold_max_compat.
Qed.

Lemma Forall2_map_same {A : Type} (g g' : A -> Q) (l : list A) :
  (forall a, g a == g' a) -> Forall2 Qeq (map g l) (map g' l).
Proof. intro E. induction l; cbn; constructor; auto. Qed.

Lemma steel_stress_compat (m : AciStrainCompatibilitySteelMaterial) (s s' : Q) :
  s == s' -> agree Qeq (steel_stress m s) (steel_stress m s').
Proof.
  intro Hs. unfold steel_stress. destruct (ey m) as [y| |]; cbn; try reflexivity.
  rewrite (Qle_bool_compat s s' (- y) (- y) Hs (Qeq_refl _)).
  rewrite (Qle_bool_compat s s' y y Hs (Qeq_refl _)).
  destruct (Qle_bool s' (- y)); cbn; [reflexivity|].
  destruct (Qle_bool s' y); cbn; [now rewrite Hs | reflexivity].
Qed.

Lemma get_stress_compat (mat : material) (strain strain' : list Q) :
  Forall2 Qeq strain strain' ->
  agree (Forall2 Qeq) (get_stress mat strain) (get_stress mat strain').
Proof.
  intro Hl. destruct mat as [m | cm]; cbn [get_stress].
  - unfold steel_get_stress.
    induction Hl as [|s s' l l' Hs Hl IH]; cbn; [constructor|].
    pose proof (steel_stress_compat m s s' Hs) as H1.
    destruct (steel_stress m s) as [t| |], (steel_stress m s') as [t'| |];
      cbn in H1 |- *; try contradiction; try assumption.
    destruct (map_result (steel_stress m) l) as [ts| |],
             (map_result (steel_stress m) l') as [ts'| |];
      cbn in IH |- *; try contradiction; try assumption.
    now constructor.
  - unfold concrete_get_stress. destruct (beta1 cm) as [b| |]; cbn;
      try reflexivity.
    induction Hl as [|s s' l l' Hs Hl IH]; cbn; constructor; [|exact IH].
    rewrite (Qle_bool_compat s s' _ _ Hs (Qeq_refl _)). reflexivity.
Qed.

Lemma take_mask_compat (mask : list bool) (l l' : list Q) :
  Forall2 Qeq l l' -> Forall2 Qeq (take_mask mask l) (take_mask mask l').
Proof.
  intro Hl. revert mask. induction Hl as [|s s' l l' Hs Hl IH]; intros [|[] mask];
    cbn; try constructor; auto.
Qed.

Lemma put_mask_compat (mask : list bool) (vals vals' old old' : list Q) :
  Forall2 Qeq vals vals' -> Forall2 Qeq old old' ->
  Forall2 Qeq (put_mask mask vals old) (put_mask mask vals' old').
Proof.
  intros Hv Ho. revert mask vals vals' Hv.
  induction Ho as [|o o' old old' Ho Hold IH]; intros mask vals vals' Hv.
  - destruct mask as [|[] mask]; cbn; constructor.
  - destruct mask as [|[] mask]; cbn.
    + now constructor.
    + destruct Hv as [|v v' vals vals' Hv Hvals]; cbn;
        (constructor; [assumption | apply IH; try assumption; constructor]).
    + constructor; [assumption | now apply IH].
Qed.

Lemma stress_loop_compat (self : AciStrainCompatibility) (mats : list Z)
  (strain strain' stress stress' : list Q) :
  Forall2 Qeq strain strain' -> Forall2 Qeq stress stress' ->
  agree (Forall2 Qeq) (stress_loop self mats strain stress)
    (stress_loop self mats strain' stress').
Proof.
  intro Hs. revert stress stress'.
  induction mats as [|i mats IH]; intros stress stress' Ho; cbn [stress_loop].
  - exact Ho.
  - destruct (materials self !! i) as [mat|]; [|reflexivity].
    pose proof (get_stress_compat mat _ _
                  (take_mask_compat
                     (map (fun f => Z.eqb (fm f) i) (fibers self)) _ _ Hs))
      as H1.
    destruct (get_stress mat (take_mask _ strain)) as [t| |],
             (get_stress mat (take_mask _ strain')) as [t'| |];
      cbn in H1 |- *; try contradiction; try assumption.
    apply IH. now apply put_mask_compat.
Qed.

Lemma Forall2_refl (l : list Q) : Forall2 Qeq l l.
Proof. induction l; constructor; auto. reflexivity. Qed.

Lemma py_sum_compat (g : Q * Fiber -> Q) (fs : list Fiber)
  (stress stress' : list Q) :
  (forall s s' f, s == s' -> g (s, f) == g (s', f)) ->
  Forall2 Qeq stress stress' ->
  py_sum (map g (combine stress fs)) == py_sum (map g (combine stress' fs)).
Proof.
  intros Hg Hl. rewrite !py_sum_sigma. revert fs.
  induction Hl as [|s s' l l' Hs Hl IH]; intros [|f fs]; cbn; try reflexivity.
  rewrite (Hg s s' f Hs), (IH fs). reflexivity.
Qed.

Section Axis.

Variables sin cos : Q -> Q.
Variable self : AciStrainCompatibility.
Variables xpt ypt angle : Q.

(** Another point of the same neutral axis: [t] along its direction. *)
Variable t : Q.

Local Abbreviation xpt' := (xpt + t * cos angle).
Local Abbreviation ypt' := (ypt + t * sin angle).

Lemma line_distance_along (px py : Q) :
  line_distance sin cos xpt' ypt' angle px py
  == line_distance sin cos xpt ypt angle px py.
Proof. unfold line_distance. ring. Qed.

Lemma concrete_fiber_along :
  agree Qeq (extreme_concrete_compression_fiber sin cos self xpt' ypt' angle)
    (extreme_concrete_compression_fiber sin cos self xpt ypt angle).
Proof.
  apply amin_compat, Forall2_map_same. intro p.
  now rewrite line_distance_along.
Qed.

Lemma steel_fiber_along :
  agree Qeq (extreme_steel_tension_fiber sin cos self xpt' ypt' angle)
    (extreme_steel_tension_fiber sin cos self xpt ypt angle).
Proof.
  apply amax_compat, Forall2_map_same. intro p.
  now rewrite line_distance_along.
Qed.

Lemma tensile_strain_along :
  agree Qeq (extreme_steel_tensile_strain sin cos self xpt' ypt' angle)
    (extreme_steel_tensile_strain sin cos self xpt ypt angle).
Proof.
  unfold extreme_steel_tensile_strain.
  pose proof concrete_fiber_along as Hc. pose proof steel_fiber_along as Hs.
  destruct (extreme_concrete_compression_fiber sin cos self xpt' ypt' angle)
    as [yc'| |],
    (extreme_concrete_compression_fiber sin cos self xpt ypt angle)
    as [yc| |]; cbn in Hc |- *; try contradiction; try assumption.
  destruct (extreme_steel_tension_fiber sin cos self xpt' ypt' angle)
    as [yt'| |],
    (extreme_steel_tension_fiber sin cos self xpt ypt angle)
    as [yt| |]; cbn in Hs |- *; try contradiction; try assumption.
  rewrite (Qltb_compat yc' yc 0 0 Hc (Qeq_refl _)).
  destruct (Qltb yc 0); cbn; [|reflexivity].
  now rewrite Hc, Hs.
Qed.

Lemma fiber_strains_along :
  agree (Forall2 Qeq) (fiber_strains sin cos self xpt' ypt' angle)
    (fiber_strains sin cos self xpt ypt angle).
Proof.
  unfold fiber_strains. pose proof concrete_fiber_along as Hc.
  destruct (extreme_concrete_compression_fiber sin cos self xpt' ypt' angle)
    as [yc'| |],
    (extreme_concrete_compression_fiber sin cos self xpt ypt angle)
    as [yc| |]; cbn in Hc |- *; try contradiction; try assumption.
  rewrite (Qltb_compat yc' yc 0 0 Hc (Qeq_refl _)).
  destruct (Qltb yc 0); cbn.
  - apply Forall2_map_same. intro f.
    now rewrite line_distance_along, Hc.
  - apply Forall2_refl.
Qed.


End Axis.

End EngineAxis.

Module EngineEdges.
Import Material StrainCompatibility MaterialSpec EngineSpec StressSpec
  MaterialFacts EngineFacts MaterialEdges EngineLaws EngineBounds EngineAxis.
Local Open Scope Q_scope.

Section Edges.

Variables sin cos : Q -> Q.
Variable self : AciStrainCompatibility.
Variables xpt ypt angle : Q.

Local Abbreviation dist := (EngineSpec.dist sin cos xpt ypt angle).
Local Abbreviation registry_ok := (EngineSpec.registry_ok self).

Lemma stress_loop_missing (mats : list Z) (strain stress : list Q) :
  (forall (i : Z) (mat : material),
     In i mats -> materials self !! i = Some mat -> material_ok mat) ->
  (exists i : Z, In i mats /\ materials self !! i = None) ->
  stress_loop self mats strain stress = Raise KeyError.
Proof.
  revert stress. induction mats as [|i mats IH]; intros stress Hok (j & Hj & Hnone).
  - destruct Hj.
  - cbn [stress_loop]. destruct (materials self !! i) as [mat|] eqn:Hmat;
      [|reflexivity].
    destruct (get_stress_total mat
                (take_mask (map (fun f => Z.eqb (fm f) i) (fibers self)) strain)
                (Hok i mat (or_introl eq_refl) Hmat)) as [s ->].
    cbn [rbind]. apply IH.
    + intros k mat' Hk. apply Hok. now right.
    + exists j. split; [|assumption].
      destruct Hj as [-> | Hj]; [congruence | assumption].
Qed.

Lemma no_concrete_boundary :
  concrete_boundary self = [] ->
  compute_point sin cos self xpt ypt angle = Raise empty_reduction.
Proof.
  intro E. unfold compute_point, fiber_strains,
    extreme_concrete_compression_fiber. now rewrite E.
Qed.

Lemma unregistered_material :
  concrete_boundary self <> [] -> registered_ok self ->
  (exists i : Z, In i (uniq_mats self) /\ materials self !! i = None) ->
  compute_point sin cos self xpt ypt angle = Raise KeyError.
Proof.
  intros Hc Hok Hmiss.
  destruct (concrete_edge_is_minimum sin cos self xpt ypt angle Hc)
    as (yc & Hyc & _).
  destruct (fiber_strains_length sin cos self xpt ypt angle yc Hyc)
    as (strain & Hstrain & _).
  unfold compute_point. rewrite Hstrain. cbn [rbind].
  unfold fiber_stresses. now rewrite stress_loop_missing.
Qed.

Lemma no_steel_boundary :
  concrete_boundary self <> [] -> registry_ok ->
  steel_boundary self = [] ->
  compute_point sin cos self xpt ypt angle = Raise empty_reduction.
Proof.
  intros Hc Hreg Hs.
  destruct (concrete_edge_is_minimum sin cos self xpt ypt angle Hc)
    as (yc & Hyc & _).
  destruct (fiber_strains_length sin cos self xpt ypt angle yc Hyc)
    as (strain & Hstrain & _).
  destruct (stress_loop_total self (uniq_mats self) strain
              (repeat 0 (length (fibers self))) Hreg) as [stress Hstress].
  unfold compute_point. rewrite Hstrain. cbn [rbind].
  unfold fiber_stresses. rewrite Hstress. cbn [rbind].
  unfold extreme_steel_tensile_strain. rewrite Hyc. cbn [rbind].
  unfold extreme_steel_tension_fiber. now rewrite Hs.
Qed.



End Edges.

End EngineEdges.

Module EngineObjectFacts.
Import Material StrainCompatibility EngineObjects MaterialSpec EngineSpec
  ObjectSpec MaterialFacts EngineFacts.
Local Open Scope Q_scope.
Local Open Scope string_scope.

Lemma engine_of_add_concrete (h : heap) (self : nat) (x y r : Q)
  (e : AciStrainCompatibility) :
  engine_of h self = Some e ->
  engine_of (add_concrete_boundary self x y r h) self
  = Some (with_concrete e (mkBoundaryPoint x y r)).
Proof.
  unfold engine_of, add_concrete_boundary. cbn [engines _materials].
  rewrite list_lookup_alter_eq.
  destruct (engines h !! self) as [o|]; [|discriminate]. cbn.
  destruct (built o) as [[uniq fs]|]; [|discriminate].
  destruct (forallb _ uniq); [|discriminate].
  intro E. inversion E. reflexivity.
Qed.

Lemma engine_of_add_steel (h : heap) (self : nat) (x y r : Q)
  (e : AciStrainCompatibility) :
  engine_of h self = Some e ->
  engine_of (add_steel_boundary self x y r h) self
  = Some (with_steel e (mkBoundaryPoint x y r)).
Proof.
  unfold engine_of, add_steel_boundary. cbn [engines _materials].
  rewrite list_lookup_alter_eq.
  destruct (engines h !! self) as [o|]; [|discriminate]. cbn.
  destruct (built o) as [[uniq fs]|]; [|discriminate].
  destruct (forallb _ uniq); [|discriminate].
  intro E. inversion E. reflexivity.
Qed.

Lemma amin_snoc (l : list Q) (v : Q) :
  amin (l ++ [v])
  = Ok (match amin l with Ok m => Qmin m v | _ => v end).
Proof.
  destruct l as [|a l]; [reflexivity|]. cbn [app amin].
  now rewrite fold_left_app.
Qed.

Lemma amax_snoc (l : list Q) (v : Q) :
  amax (l ++ [v])
  = Ok (match amax l with Ok m => Qmax m v | _ => v end).
Proof.
  destruct l as [|a l]; [reflexivity|]. cbn [app amax].
  now rewrite fold_left_app.
Qed.

Section Boundaries.

Variables sin cos : Q -> Q.
Variables xpt ypt angle : Q.

Local Abbreviation dist := (EngineSpec.dist sin cos xpt ypt angle).

(** X12.  What a boundary point added does to the two extreme fibers of an
    engine.  After [add_concrete_boundary(x, y, r)] the extreme
    concrete compression fiber is the lesser of what it was and the
    distance of the new point less its radius, or that alone if there
    was no point before: it does not raise any more and it can only
    move to the compression side; the extreme steel tension fiber is
    what it was.  After [add_steel_boundary(x, y, r)] the extreme steel
    tension fiber is the greater of what it was and the distance of the
    new point plus its radius, and the concrete one is what it was. *)
Theorem boundary_points_move_the_edges (h : heap) (self : nat) (x y r : Q)
  (e : AciStrainCompatibility) :
  engine_of h self = Some e ->
  (exists e' : AciStrainCompatibility,
     engine_of (add_concrete_boundary self x y r h) self = Some e'
     /\ extreme_concrete_compression_fiber sin cos e' xpt ypt angle
        = Ok (match extreme_concrete_compression_fiber sin cos e xpt ypt angle
              with
              | Ok yc => Qmin yc (dist x y - r)
              | _ => dist x y - r
              end)
     /\ (forall yc yc' : Q,
           extreme_concrete_compression_fiber sin cos e xpt ypt angle = Ok yc ->
           extreme_concrete_compression_fiber sin cos e' xpt ypt angle
           = Ok yc' ->
           (yc' <= yc)%Q)
     /\ extreme_steel_tension_fiber sin cos e' xpt ypt angle
        = extreme_steel_tension_fiber sin cos e xpt ypt angle)
  /\ (exists e' : AciStrainCompatibility,
        engine_of (add_steel_boundary self x y r h) self = Some e'
        /\ extreme_steel_tension_fiber sin cos e' xpt ypt angle
           = Ok (match extreme_steel_tension_fiber sin cos e xpt ypt angle
                 with
                 | Ok yt => Qmax yt (dist x y + r)
                 | _ => dist x y + r
                 end)
        /\ (forall yt yt' : Q,
              extreme_steel_tension_fiber sin cos e xpt ypt angle = Ok yt ->
              extreme_steel_tension_fiber sin cos e' xpt ypt angle = Ok yt' ->
              (yt <= yt')%Q)
        /\ extreme_concrete_compression_fiber sin cos e' xpt ypt angle
           = extreme_concrete_compression_fiber sin cos e xpt ypt angle).
Proof.
  intro He. split.
  - exists (with_concrete e (mkBoundaryPoint x y r)).
    split; [now apply engine_of_add_concrete|].
    assert (Hnew : extreme_concrete_compression_fiber sin cos
                     (with_concrete e (mkBoundaryPoint x y r)) xpt ypt angle
                   = Ok (match extreme_concrete_compression_fiber sin cos e
                                 xpt ypt angle with
                         | Ok yc => Qmin yc (dist x y - r)
                         | _ => dist x y - r
                         end)).
    { unfold extreme_concrete_compression_fiber, with_concrete.
      cbn [concrete_boundary]. rewrite map_app. cbn [map bx by' br].
      apply amin_snoc. }
    split; [exact Hnew|]. split; [|reflexivity].
    intros yc yc' Hyc Hyc'. rewrite Hnew, Hyc in Hyc'. inversion Hyc'.
    destruct (Qmin_cases yc (dist x y - r)) as [[-> ?] | [-> ?]];
      [apply Qle_refl | assumption].
  - exists (with_steel e (mkBoundaryPoint x y r)).
    split; [now apply engine_of_add_steel|].
    assert (Hnew : extreme_steel_tension_fiber sin cos
                     (with_steel e (mkBoundaryPoint x y r)) xpt ypt angle
                   = Ok (match extreme_steel_tension_fiber sin cos e
                                 xpt ypt angle with
                         | Ok yt => Qmax yt (dist x y + r)
                         | _ => dist x y + r
                         end)).
    { unfold extreme_steel_tension_fiber, with_steel.
      cbn [steel_boundary]. rewrite map_app. cbn [map bx by' br].
      apply amax_snoc. }
    split; [exact Hnew|]. split; [|reflexivity].
    intros yt yt' Hyt Hyt'. rewrite Hnew, Hyt in Hyt'. inversion Hyt'.
    destruct (Qmax_cases yt (dist x y + r)) as [[-> ?] | [-> ?]];
      [apply Qle_refl | assumption].
Qed.

End Boundaries.

Lemma usable_insert (m : gmap Z material_object) (name : Z)
  (o : material_object) (mat : material) (i : Z) :
  typed o = Some mat -> usable m i = true ->
  usable (<[name := o]> m) i = true.
Proof.
  intros Ho Hi. unfold usable.
  destruct (decide (name = i)) as [-> | Hne].
  - rewrite lookup_insert_eq, Ho. reflexivity.
  - rewrite lookup_insert_ne by assumption. exact Hi.
Qed.

Lemma engine_of_insert (h : heap) (self : nat) (name : Z)
  (o : material_object) (mat : material) (e : AciStrainCompatibility) :
  typed o = Some mat -> engine_of h self = Some e ->
  engine_of (mkHeap (<[name := o]> (_materials h)) (engines h)) self
  = Some (with_material e name mat).
Proof.
  intros Ho. unfold engine_of. cbn [engines _materials].
  destruct (engines h !! self) as [ob|]; [|discriminate].
  destruct (built ob) as [[uniq fs]|]; [|discriminate].
  destruct (forallb (usable (_materials h)) uniq) eqn:Hall; [|discriminate].
  intro E. inversion E. unfold with_material. cbn.
  replace (forallb (usable (<[name:=o]> (_materials h))) uniq) with true.
  - now rewrite (omap_insert_Some typed _ _ _ _ Ho).
  - symmetry. apply forallb_forall. intros i Hi.
    apply (usable_insert _ _ _ mat); [assumption|].
    eapply forallb_forall in Hall; eassumption.
Qed.

Lemma add_material_inv (self : nat) (name : Z) (mt : material_type_arg)
  (args : list argument) (h h' : heap) :
  add_material self name mt args h = Ok h' ->
  exists o : material_object,
    h' = mkHeap (<[name := o]> (_materials h)) (engines h)
    /\ match mt with
       | OfClass o' => o = o'
       | OfName s =>
           exists (a0 a1 : argument) (rest : list argument),
             args = a0 :: a1 :: rest
             /\ ((lower s = "steel" /\ o = SteelObject a0 a1)
                 \/ (lower s = "concrete" /\ o = ConcreteObject a0 a1))
       end.
Proof.
  unfold add_material. destruct mt as [o' | s].
  - cbn. intro E. inversion E. now exists o'.
  - destruct (String.eqb_spec (lower s) "steel") as [Es | Es].
    + destruct args as [|a0 [|a1 rest]]; cbn; try discriminate.
      intro E. inversion E. eexists. split; [reflexivity|].
      exists a0, a1, rest. split; [reflexivity|]. left. now split.
    + destruct (String.eqb_spec (lower s) "concrete") as [Ec | Ec];
        [|discriminate].
      destruct args as [|a0 [|a1 rest]]; cbn; try discriminate.
      intro E. inversion E. eexists. split; [reflexivity|].
      exists a0, a1, rest. split; [reflexivity|]. right. now split.
Qed.

(** X13.  [_materials] belongs to the class and the boundary arrays to the
    object.  A material that [add_material] registers through one
    engine is registered for every engine, [b] being any of them: from
    then on [b] computes with it under that name, in the place of what
    the name stood for before; all other names stand.  A boundary point
    added to one engine, and its [build_data], leave every other engine
    as it was. *)
Theorem materials_are_shared (h : heap) (a b : nat) :
  (forall (name : Z) (mt : material_type_arg) (args : list argument)
     (h' : heap),
     add_material a name mt args h = Ok h' ->
     exists o : material_object,
       _materials h' !! name = Some o
       /\ (forall i : Z, i <> name -> _materials h' !! i = _materials h !! i)
       /\ engines h' = engines h
       /\ forall (mat : material) (e : AciStrainCompatibility),
            typed o = Some mat -> engine_of h b = Some e ->
            engine_of h' b = Some (with_material e name mat)
            /\ materials (with_material e name mat) !! name = Some mat)
  /\ (a <> b ->
      forall x y r : Q,
        engine_of (add_concrete_boundary a x y r h) b = engine_of h b
        /\ engine_of (add_steel_boundary a x y r h) b = engine_of h b
        /\ engine_of (build_data a h) b = engine_of h b).
Proof.
  split.
  - intros name mt args h' Hadd.
    destruct (add_material_inv a name mt args h h' Hadd) as (o & -> & _).
    exists o. cbn [_materials engines].
    split; [apply lookup_insert_eq|].
    split; [intros i Hi; now apply lookup_insert_ne|].
    split; [reflexivity|].
    intros mat e Ho He. split; [now apply engine_of_insert|].
    unfold with_material. cbn [materials]. apply lookup_insert_eq.
  - intros Hab x y r.
    unfold engine_of, add_concrete_boundary, add_steel_boundary, build_data.
    cbn [engines _materials].
    rewrite !list_lookup_alter_ne by assumption. repeat split.
Qed.

(** X14.  What [add_material] takes.  The name of the material type is read
    in any letter case; 'steel' and 'concrete' build an object of the
    class from the first two of the further arguments, and fewer than
    two of them raise [IndexError]; any other string raises
    'Unknown material type', with the string as given; an object of one
    of the two classes is registered as it is, the further arguments
    unread. *)
Theorem add_material_reads (h : heap) (self : nat) (name : Z)
  (args : list argument) :
  (forall o : material_object,
     add_material self name (OfClass o) args h
     = Ok (mkHeap (<[name := o]> (_materials h)) (engines h)))
  /\ (forall s : string,
        lower s = "steel" \/ lower s = "concrete" ->
        add_material self name (OfName s) args h
        = match args with
          | a0 :: a1 :: _ =>
              Ok (mkHeap
                    (<[name := if String.eqb (lower s) "steel"
                               then SteelObject a0 a1
                               else ConcreteObject a0 a1]> (_materials h))
                    (engines h))
          | _ => Raise IndexError
          end)
  /\ (forall s : string,
        lower s <> "steel" -> lower s <> "concrete" ->
        add_material self name (OfName s) args h
        = Raise (ValueError ("Unknown material type: " ++ s))).
Proof.
  split; [reflexivity|]. split.
  - intros s [Es | Ec]; unfold add_material.
    + rewrite Es. cbn. destruct args as [|a0 [|a1 rest]]; reflexivity.
    + rewrite Ec. cbn. destruct args as [|a0 [|a1 rest]]; reflexivity.
  - intros s Hs Hc. unfold add_material.
    destruct (String.eqb_spec (lower s) "steel"); [contradiction|].
    destruct (String.eqb_spec (lower s) "concrete"); [contradiction|].
    reflexivity.
Qed.

End EngineObjectFacts.

Module ControllerInvariants.
Import PyFloat Ops Controller ControllerSpec RunSpec ControllerFacts.
Local Open Scope string_scope.
Local Open Scope list_scope.
Local Open Scope ctl_scope.

Section Increments.
Context {S : Type} `{Solver S}.

Variable strain_c strain_s : pyfloat -> pyfloat -> pyfloat.
Variable locate : list pyfloat -> option pyfloat -> result (nat * pyfloat).
Variable opts : options.

Lemma proportional_increment_rungs (step : pyfloat) (w : world S) :
  proportional_increment opts step w
  = (let* ok := ops_analyze in climb (proportional_rungs opts step) step ok) w.
Proof.
  unfold proportional_rungs.
  destruct (try_smaller_steps opts) eqn:Htry;
    [now apply proportional_increment_climbs|].
  unfold proportional_increment. rewrite Htry.
  unfold bind, ops_analyze, if_failed, nonzero, ret.
  cbn [climb algorithm_ladder setup narrows ops_all].
  unfold bind, ops_analyze, ops, nonzero, ret. cbn.
  repeat (match goal with
          | |- context [(?ok =? 0)%Z] =>
              destruct (ok =? 0)%Z eqn:?; cbn
          | |- context [analyze ?s] =>
              destruct (analyze s) as [? ?]; cbn
          end; try reflexivity; try congruence).
Qed.

Lemma lateral_increment_rungs (step : pyfloat) (w : world S) :
  lateral_increment opts step w
  = (let* ok := ops_analyze in climb (lateral_rungs opts step) step ok) w.
Proof.
  unfold lateral_rungs.
  destruct (try_smaller_steps opts) eqn:Htry;
    [now apply lateral_increment_climbs|].
  unfold lateral_increment. rewrite Htry.
  unfold bind, ops_analyze, if_failed, nonzero, ret.
  cbn [climb algorithm_ladder setup narrows ops_all].
  unfold bind, ops_analyze, ops, nonzero, ret. cbn.
  repeat (match goal with
          | |- context [(?ok =? 0)%Z] =>
              destruct (ok =? 0)%Z eqn:?; cbn
          | |- context [analyze ?s] =>
              destruct (analyze s) as [? ?]; cbn
          end; try reflexivity; try congruence).
Qed.

Lemma algorithm_ladder_keeps_step (tol : pyfloat) (sts : list Z) :
  ended_on_narrowing (algorithm_ladder tol) sts = false.
Proof.
  destruct sts as [|st sts]; [reflexivity|]. cbn.
  destruct (length sts) as [|[|[|[|n]]]]; reflexivity.
Qed.

Lemma proportional_increment_run (step : pyfloat) (w : world S) :
  exists (ok : Z) (step' : pyfloat) (w' : world S),
    proportional_increment opts step w = (Ok (ok, step'), w')
    /\ climbs (proportional_rungs opts step) step w w' ok step'.
Proof. rewrite proportional_increment_rungs. apply increment_climbs. Qed.

Lemma lateral_increment_run (step : pyfloat) (w : world S) :
  exists (ok : Z) (step' : pyfloat) (w' : world S),
    lateral_increment opts step w = (Ok (ok, step'), w')
    /\ climbs (lateral_rungs opts step) step w w' ok step'.
Proof. rewrite lateral_increment_rungs. apply increment_climbs. Qed.

(** X15.  With [try_smaller_steps] off an increment that does not converge is
    tried again three times at most, with ModifiedNewton, with
    KrylovNewton, and with KrylovNewton and the changed tolerance
    (1e-2 on the proportional path, 1e-4 on the lateral path): no
    integrator call is made, and the step size of the coming
    increments is the one it was. *)
Theorem without_smaller_steps :
  try_smaller_steps opts = false ->
  forall (step : pyfloat) (w : world S),
    (exists (ok : Z) (w' : world S),
       proportional_increment opts step w = (Ok (ok, step), w')
       /\ climbs (algorithm_ladder (Fin (1 # 100))) step w w' ok step)
    /\ (exists (ok : Z) (w' : world S),
          lateral_increment opts step w = (Ok (ok, step), w')
          /\ climbs (algorithm_ladder (Fin (1 # 10000))) step w w' ok step).
Proof.
  intros Htry step w. split.
  - destruct (proportional_increment_run step w) as (ok & step' & w' & Hinc & Hc).
    unfold proportional_rungs in Hc. rewrite Htry in Hc.
    assert (step' = step) as ->.
    { destruct Hc as (st0 & sts & _ & _ & _ & _ & _ & ->).
      now rewrite algorithm_ladder_keeps_step, andb_false_r. }
    now exists ok, w'.
  - destruct (lateral_increment_run step w) as (ok & step' & w' & Hinc & Hc).
    unfold lateral_rungs in Hc. rewrite Htry in Hc.
    assert (step' = step) as ->.
    { destruct Hc as (st0 & sts & _ & _ & _ & _ & _ & ->).
      now rewrite algorithm_ladder_keeps_step, andb_false_r. }
    now exists ok, w'.
Qed.

End Increments.

End ControllerInvariants.

Module ControllerLoops.
Import PyFloat Ops Controller ControllerSpec RunSpec ControllerFacts
  ControllerInvariants.
Local Open Scope string_scope.
Local Open Scope list_scope.
Local Open Scope ctl_scope.

Lemma proportional_monitors_message (opts : options) (maximum maximum' : pyfloat)
  (r : AnalysisResults) (msg : string) :
  proportional_monitors opts maximum r = (maximum', Some msg) ->
  exists tag : ExitCondition,
    msg = exit_message_of tag /\ tag <> AnalysisFailed /\ armed opts tag.
Proof.
  unfold proportional_monitors.
  destruct (percent_load_drop_limit opts) as [pct|] eqn:E1;
    destruct (eigenvalue_limit opts) as [ev|] eqn:E2;
    destruct (concrete_strain_limit opts) as [cl|] eqn:E3;
    destruct (steel_strain_limit opts) as [sl|] eqn:E4;
    repeat match goal with
      | |- context [if ?b then _ else _] => destruct b
      end;
    intro E; inversion E;
    first [ exists LoadDropLimit; cbn; rewrite ?E1; now repeat split
          | exists EigenvalueLimit; cbn; rewrite ?E2; now repeat split
          | exists ConcreteStrainLimit; cbn; rewrite ?E3; now repeat split
          | exists SteelStrainLimit; cbn; rewrite ?E4; now repeat split ].
Qed.

Lemma lateral_monitors_message (opts : options)
  (maximum current maximum' : pyfloat) (r : AnalysisResults) (msg : string) :
  lateral_monitors opts maximum current r = (maximum', Some msg) ->
  exists tag : ExitCondition,
    msg = exit_message_of tag /\ tag <> AnalysisFailed /\ armed opts tag.
Proof.
  unfold lateral_monitors.
  destruct (percent_load_drop_limit opts) as [pct|] eqn:E1;
    destruct (eigenvalue_limit opts) as [ev|] eqn:E2;
    destruct (concrete_strain_limit opts) as [cl|] eqn:E3;
    destruct (steel_strain_limit opts) as [sl|] eqn:E4;
    repeat match goal with
      | |- context [if ?b then _ else _] => destruct b
      end;
    intro E; inversion E;
    first [ exists LoadDropLimit; cbn; rewrite ?E1; now repeat split
          | exists EigenvalueLimit; cbn; rewrite ?E2; now repeat split
          | exists ConcreteStrainLimit; cbn; rewrite ?E3; now repeat split
          | exists SteelStrainLimit; cbn; rewrite ?E4; now repeat split ].
Qed.

Section Loops.
Context {S : Type} `{Solver S}.

Variable strain_c strain_s : pyfloat -> pyfloat -> pyfloat.
Variable locate : list pyfloat -> option pyfloat -> result (nat * pyfloat).
Variable opts : options.

Local Abbreviation kept_by_lateral_records :=
  (RunSpec.kept_by_lateral_records opts).

Lemma record_lateral_abs (r : AnalysisResults) (w : world S) :
  exists f ev ec es : pyfloat,
    record_lateral strain_c strain_s opts r w
    = (Ok (append_record r (P opts) (fabs f) ev ec es), after_record w).
Proof.
  unfold record_lateral, bind, ops_getTime, ops_eigen, ops_nodeDisp,
    ops_eleForce, ret, after_record.
  destruct (eigen (solver w)) as [ev s]. cbn [solver log fst snd].
  do 4 eexists. reflexivity.
Qed.

Lemma proportional_loop_ends (I : nat -> AnalysisResults -> Prop)
  (fuel : nat) (step maximum : pyfloat) (r r' : AnalysisResults)
  (w w' : world S) (k : nat) :
  kept_by_time_records I ->
  proportional_loop strain_c strain_s opts fuel step maximum r w = (Ok r', w') ->
  I k r ->
  exists (j : nat) (r0 : AnalysisResults) (tag : ExitCondition),
    I (k + j)%nat r0 /\ armed opts tag
    /\ r' = set_exit_message r0 (exit_message_of tag).
Proof.
  intro Hkeep. revert step maximum r w k.
  induction fuel as [|fuel IH]; intros step maximum r w k Hloop Hr;
    [discriminate|].
  cbn [proportional_loop] in Hloop. unfold bind at 1 in Hloop.
  destruct (proportional_increment opts step w) as [[[ok step']| |] w1];
    try discriminate Hloop.
  destruct (ok =? 0)%Z.
  - unfold bind, ops in Hloop. cbn [solver log] in Hloop.
    match type of Hloop with
    | context [record_time _ _ _ ?w0] =>
        destruct (record_time_run strain_c strain_s r w0)
          as (p & ev & ec & es & Hrec)
    end.
    rewrite Hrec in Hloop.
    pose proof (Hkeep k r p ev ec es Hr) as Hr'.
    destruct (proportional_monitors opts maximum _) as [maximum' [msg|]] eqn:Hm.
    + inversion Hloop; subst.
      destruct (proportional_monitors_message _ _ _ _ _ Hm)
        as (tag & -> & _ & Harmed).
      exists 1%nat, (append_record r p (Fin 0) ev ec es), tag.
      replace (k + 1)%nat with (Datatypes.S k) by lia. now repeat split.
    + destruct (IH _ _ _ _ _ Hloop Hr') as (j & r0 & tag & HI & Harmed & ->).
      exists (Datatypes.S j), r0, tag.
      replace (k + Datatypes.S j)%nat with (Datatypes.S k + j)%nat by lia.
      now repeat split.
  - inversion Hloop; subst. exists 0%nat, r, AnalysisFailed.
    rewrite Nat.add_0_r. now repeat split.
Qed.

Lemma lateral_loop_ends (I : nat -> AnalysisResults -> Prop)
  (fuel : nat) (step maximum : pyfloat) (r r' : AnalysisResults)
  (w w' : world S) (k : nat) :
  kept_by_lateral_records I ->
  lateral_loop strain_c strain_s opts fuel step maximum r w = (Ok r', w') ->
  I k r ->
  exists (j : nat) (r0 : AnalysisResults) (tag : ExitCondition),
    I (k + j)%nat r0 /\ armed opts tag
    /\ r' = set_exit_message r0 (exit_message_of tag).
Proof.
  intro Hkeep. revert step maximum r w k.
  induction fuel as [|fuel IH]; intros step maximum r w k Hloop Hr;
    [discriminate|].
  cbn [lateral_loop] in Hloop. unfold bind at 1 in Hloop.
  destruct (lateral_increment opts step w) as [[[ok step']| |] w1];
    try discriminate Hloop.
  destruct (ok =? 0)%Z.
  - unfold bind, ops in Hloop. cbn [solver log] in Hloop.
    match type of Hloop with
    | context [record_lateral _ _ _ _ ?w0] =>
        destruct (record_lateral_abs r w0) as (f & ev & ec & es & Hrec)
    end.
    rewrite Hrec in Hloop. unfold ops_getTime in Hloop.
    pose proof (Hkeep k r f ev ec es Hr) as Hr'.
    destruct (lateral_monitors opts maximum _ _) as [maximum' [msg|]] eqn:Hm.
    + inversion Hloop; subst.
      destruct (lateral_monitors_message _ _ _ _ _ _ Hm)
        as (tag & -> & _ & Harmed).
      exists 1%nat, (append_record r (P opts) (fabs f) ev ec es), tag.
      replace (k + 1)%nat with (Datatypes.S k) by lia. now repeat split.
    + destruct (IH _ _ _ _ _ Hloop Hr') as (j & r0 & tag & HI & Harmed & ->).
      exists (Datatypes.S j), r0, tag.
      replace (k + Datatypes.S j)%nat with (Datatypes.S k + j)%nat by lia.
      now repeat split.
  - inversion Hloop; subst. exists 0%nat, r, AnalysisFailed.
    rewrite Nat.add_0_r. now repeat split.
Qed.

Lemma vertical_loop_ends (I : nat -> AnalysisResults -> Prop)
  (n : nat) (r : AnalysisResults) (w w' : world S) (k : nat) (ended : flow) :
  kept_by_time_records I ->
  vertical_loop strain_c strain_s n r w = (Ok ended, w') ->
  I k r ->
  match ended with
  | Next r' => I (k + n)%nat r'
  | Return r' =>
      exists (j : nat) (r0 : AnalysisResults),
        (j < n)%nat /\ I (k + j)%nat r0
        /\ r' = set_exit_message r0 "Analysis Failed In Vertical Loading"
  end.
Proof.
  intro Hkeep. revert r w k.
  induction n as [|n IH]; intros r w k Hloop Hr.
  - inversion Hloop; subst. now rewrite Nat.add_0_r.
  - cbn [vertical_loop] in Hloop. unfold bind at 1 in Hloop.
    unfold ops_analyze at 1 in Hloop.
    destruct (analyze (solver w)) as [ok s].
    destruct (nonzero ok).
    + inversion Hloop; subst. exists 0%nat, r.
      rewrite Nat.add_0_r. repeat split; [lia | assumption].
    + unfold bind at 1 in Hloop.
      match type of Hloop with
      | context [record_time _ _ _ ?w0] =>
          destruct (record_time_run strain_c strain_s r w0)
            as (p & ev & ec & es & Hrec)
      end.
      rewrite Hrec in Hloop.
      pose proof (IH _ _ _ Hloop (Hkeep k r p ev ec es Hr)) as Hend.
      destruct ended as [r' | r'].
      * destruct Hend as (j & r0 & Hj & HI & ->).
        exists (Datatypes.S j), r0.
        replace (k + Datatypes.S j)%nat with (Datatypes.S k + j)%nat by lia.
        repeat split; [lia | assumption].
      * now replace (k + Datatypes.S n)%nat with (Datatypes.S k + n)%nat by lia.
Qed.

(** How a run of the proportional path that returns ends: the history
    of the loop with an exit message the search knows and the limit
    point it found. *)
Lemma proportional_run_ends (I : nat -> AnalysisResults -> Prop)
  (fuel : nat) (r : AnalysisResults) (w w' : world S) :
  kept_by_time_records I -> I 0%nat new_results ->
  run_ops_analysis strain_c strain_s locate opts "proportional_limit_point"
    fuel w = (Ok r, w') ->
  exists (k : nat) (r0 : AnalysisResults) (tag : ExitCondition) (p m : pyfloat),
    (1 <= k)%nat /\ I k r0 /\ armed opts tag
    /\ r = set_limit_point (set_exit_message r0 (exit_message_of tag)) p m.
Proof.
  intros Hkeep H0 Hrun. unfold run_ops_analysis in Hrun.
  change (String.eqb (lower "proportional_limit_point")
            "proportional_limit_point") with true in Hrun.
  cbv iota in Hrun. unfold bind at 1 in Hrun. unfold ops at 1 in Hrun.
  unfold proportional_limit_point in Hrun.
  unfold bind, ops, ops_analyze in Hrun. cbn [solver log] in Hrun.
  destruct (analyze _) as [ok0 s0] in Hrun. cbn [solver log] in Hrun.
  match type of Hrun with
  | context [record_time _ _ _ ?w0] =>
      destruct (record_time_run strain_c strain_s new_results w0)
        as (p & ev & ec & es & Hrec)
  end.
  rewrite Hrec in Hrun.
  match type of Hrun with
  | context [proportional_loop _ _ _ ?f ?s ?m ?r0 ?w0] =>
      destruct (proportional_loop strain_c strain_s opts f s m r0 w0)
        as [[r1| |] w1] eqn:Hloop; try discriminate Hrun
  end.
  destruct (proportional_loop_ends I _ _ _ _ _ _ _ 1%nat Hkeep Hloop
              (Hkeep _ _ _ _ _ _ H0)) as (j & r0 & tag & HI & Harmed & ->).
  unfold lift in Hrun. inversion Hrun as [[Hfind Hw]].
  destruct (find_limit_point_ok locate opts _ r Hfind)
    as (tag' & target & i & x & p' & m & _ & _ & ->).
  exists (1 + j)%nat, r0, tag, p', m. repeat split; try assumption. lia.
Qed.

(** The same for the non-proportional path, which either returns from
    the vertical-load phase, with the exit message of that phase and
    the history so far, or goes through the lateral phase; [I] is
    about the records of the first phase and [J] about those of the
    second. *)
Lemma nonproportional_run_ends (I J : nat -> AnalysisResults -> Prop)
  (fuel : nat) (r : AnalysisResults) (w w' : world S) :
  kept_by_time_records I -> I 0%nat new_results ->
  kept_by_lateral_records J ->
  (forall r1 : AnalysisResults,
     I (Datatypes.S (num_steps_vertical opts)) r1 -> J 0%nat r1) ->
  run_ops_analysis strain_c strain_s locate opts "nonproportional_limit_point"
    fuel w = (Ok r, w') ->
  (exists (k : nat) (r0 : AnalysisResults),
     (1 <= k <= num_steps_vertical opts)%nat /\ I k r0
     /\ r = set_exit_message r0 "Analysis Failed In Vertical Loading")
  \/ (exists (j : nat) (r0 : AnalysisResults) (tag : ExitCondition)
        (p m : pyfloat),
        (1 <= j)%nat /\ J j r0 /\ armed opts tag
        /\ r = set_limit_point (set_exit_message r0 (exit_message_of tag)) p m).
Proof.
  intros HkeepI H0 HkeepJ HIJ Hrun. unfold run_ops_analysis in Hrun.
  change (String.eqb (lower "nonproportional_limit_point")
            "proportional_limit_point") with false in Hrun.
  change (String.eqb (lower "nonproportional_limit_point")
            "nonproportional_limit_point") with true in Hrun.
  cbv iota in Hrun. unfold bind at 1 in Hrun. unfold ops at 1 in Hrun.
  unfold nonproportional_limit_point in Hrun. unfold bind at 1 in Hrun.
  unfold vertical_setup in Hrun.
  destruct (fdiv (P opts) (of_Z (Z.of_nat (num_steps_vertical opts))))
    as [v| |] eqn:Hv;
    try (unfold bind, ops, lift in Hrun; cbn [solver log] in Hrun;
         discriminate Hrun).
  unfold bind at 1 2 3 4 5 6 7 8 9 10 11 in Hrun.
  unfold ops, lift in Hrun. cbn [solver log] in Hrun.
  match type of Hrun with
  | context [record_time _ _ _ ?w0] =>
      destruct (record_time_run strain_c strain_s new_results w0)
        as (p & ev & ec & es & Hrec)
  end.
  rewrite Hrec in Hrun. unfold bind at 1 in Hrun.
  match type of Hrun with
  | context [vertical_loop _ _ ?n ?r0 ?w0] =>
      destruct (vertical_loop strain_c strain_s n r0 w0)
        as [[ended| |] w1] eqn:Hloop; try discriminate Hrun
  end.
  pose proof (vertical_loop_ends I _ _ _ _ 1%nat _ HkeepI Hloop
                (HkeepI _ _ _ _ _ _ H0)) as Hend.
  destruct ended as [r1 | r1].
  - left. inversion Hrun; subst. destruct Hend as (j & r0 & Hj & HI & ->).
    exists (1 + j)%nat, r0. repeat split; try assumption; lia.
  - right. unfold bind, ops in Hrun. cbn [solver log] in Hrun.
    match type of Hrun with
    | context [record_lateral _ _ _ _ ?w0] =>
        destruct (record_lateral_abs r1 w0) as (f & ev' & ec' & es' & Hrec')
    end.
    rewrite Hrec' in Hrun.
    match type of Hrun with
    | context [lateral_loop _ _ _ ?f ?s ?m ?r0 ?w0] =>
        destruct (lateral_loop strain_c strain_s opts f s m r0 w0)
          as [[r2| |] w2] eqn:Hlat; try discriminate Hrun
    end.
    destruct (lateral_loop_ends J _ _ _ _ _ _ _ 1%nat HkeepJ Hlat
                (HkeepJ _ _ _ _ _ _ (HIJ _ Hend)))
      as (j & r0 & tag & HJ & Harmed & ->).
    unfold lift in Hrun. inversion Hrun as [[Hfind Hw]].
    destruct (find_limit_point_ok locate opts _ r Hfind)
      as (tag' & target & i & x & p' & m & _ & _ & ->).
    exists (1 + j)%nat, r0, tag, p', m. repeat split; try assumption. lia.
Qed.

End Loops.

End ControllerLoops.

Module ControllerRuns.
Import PyFloat Ops Controller Scripted ControllerSpec RunSpec ControllerFacts
  ControllerInvariants ControllerLoops.
Local Open Scope string_scope.
Local Open Scope list_scope.
Local Open Scope ctl_scope.

Section Runs.
Context {S : Type} `{Solver S}.

Variable strain_c strain_s : pyfloat -> pyfloat -> pyfloat.
Variable locate : list pyfloat -> option pyfloat -> result (nat * pyfloat).
Variable opts : options.

Local Abbreviation run := (run_ops_analysis strain_c strain_s locate opts).

(** The analysis type is read in lower case. *)
Lemma run_by_lower_case (t : string) (fuel : nat) (w : world S) :
  run t fuel w
  = if String.eqb (lower t) "proportional_limit_point"
    then run "proportional_limit_point" fuel w
    else if String.eqb (lower t) "nonproportional_limit_point"
    then run "nonproportional_limit_point" fuel w
    else (Raise (ValueError ("Analysis type " ++ t ++ " not implemented")),
          mkWorld (exec (build_ops_model 1) (solver w))
            (log w ++ [Command (build_ops_model 1)])).
Proof.
  unfold run_ops_analysis.
  change (String.eqb (lower "proportional_limit_point")
            "proportional_limit_point") with true.
  change (String.eqb (lower "nonproportional_limit_point")
            "proportional_limit_point") with false.
  change (String.eqb (lower "nonproportional_limit_point")
            "nonproportional_limit_point") with true.
  cbv iota.
  destruct (String.eqb (lower t) "proportional_limit_point"); [reflexivity|].
  destruct (String.eqb (lower t) "nonproportional_limit_point");
    reflexivity.
Qed.

Lemma aligned_kept : kept_by_time_records (fun k r => aligned k r).
Proof.
  intros k r p ev ec es [Hlen Hx]. split; [|exact Hx].
  rewrite history_lengths_append, Hlen. reflexivity.
Qed.

Lemma aligned_kept_lateral :
  kept_by_lateral_records opts (fun k r => aligned k r).
Proof.
  intros k r p ev ec es [Hlen Hx]. split; [|exact Hx].
  rewrite history_lengths_append, Hlen. reflexivity.
Qed.

(** X16.  The five series that [record] appends to grow together and
    [extreme_comp_strain] never grows: whatever the analysis type and
    however the run ends, the results returned have the same number of
    records, one at least, in the applied axial load, the moment, the
    eigenvalue and the two strain series, and [extreme_comp_strain] is
    the empty list it was set to. *)
Theorem history_stays_aligned (t : string) (fuel : nat) (r : AnalysisResults)
  (w w' : world S) :
  run t fuel w = (Ok r, w') ->
  exists k : nat,
    (1 <= k)%nat /\ history_lengths r = [k; k; k; k; k]
    /\ extreme_comp_strain r = [].
Proof.
  rewrite run_by_lower_case.
  destruct (String.eqb (lower t) "proportional_limit_point").
  - intro Hrun.
    destruct (proportional_run_ends strain_c strain_s locate opts
                (fun k r => aligned k r) fuel r w w' aligned_kept
                (conj eq_refl eq_refl) Hrun)
      as (k & r0 & tag & p & m & Hk & [Hlen Hx] & _ & ->).
    exists k. repeat split; assumption.
  - destruct (String.eqb (lower t) "nonproportional_limit_point");
      [|discriminate].
    intro Hrun.
    destruct (nonproportional_run_ends strain_c strain_s locate opts
                (fun k r => aligned k r)
                (fun j r => aligned (num_steps_vertical opts + 1 + j) r)
                fuel r w w')
      as [(k & r0 & Hk & [Hlen Hx] & ->)
         | (j & r0 & tag & p & m & Hj & [Hlen Hx] & _ & ->)];
      try assumption.
    + exact aligned_kept.
    + split; reflexivity.
    + intros k r1 f ev ec es Hr1.
      replace (num_steps_vertical opts + 1 + Datatypes.S k)%nat
        with (Datatypes.S (num_steps_vertical opts + 1 + k)) by lia.
      now apply aligned_kept_lateral.
    + intros r1 Hr1.
      now replace (num_steps_vertical opts + 1 + 0)%nat
        with (Datatypes.S (num_steps_vertical opts)) by lia.
    + exists k. repeat split; try assumption. lia.
    + exists (num_steps_vertical opts + 1 + j)%nat.
      repeat split; try assumption. lia.
Qed.

Lemma no_limit_point_kept :
  kept_by_time_records (fun _ r => no_limit_point r).
Proof. intros k r p ev ec es Hr. exact Hr. Qed.

Lemma no_limit_point_kept_lateral :
  kept_by_lateral_records opts (fun _ r => no_limit_point r).
Proof. intros k r p ev ec es Hr. exact Hr. Qed.


(** X18.  An analysis type that is neither of the two, in any letter case,
    raises 'Analysis type ... not implemented' with the type as given,
    and it does so after the model has been wiped and built again: that
    call is the one thing asked of the solver.  The two types are told
    apart in lower case, so a run does not depend on the letter case of
    its type. *)
Theorem unknown_analysis_type (t : string) (fuel : nat) (w : world S) :
  (lower t <> "proportional_limit_point" ->
   lower t <> "nonproportional_limit_point" ->
   exists w' : world S,
     run t fuel w
     = (Raise (ValueError ("Analysis type " ++ t ++ " not implemented")), w')
     /\ log w' = log w ++ [Command (build_ops_model 1)])
  /\ (forall t' : string,
        lower t = lower t' ->
        lower t = "proportional_limit_point"
        \/ lower t = "nonproportional_limit_point" ->
        run t fuel w = run t' fuel w).
Proof.
  split.
  - intros Hp Hn. rewrite run_by_lower_case.
    destruct (String.eqb_spec (lower t) "proportional_limit_point");
      [contradiction|].
    destruct (String.eqb_spec (lower t) "nonproportional_limit_point");
      [contradiction|].
    eexists. split; reflexivity.
  - intros t' E Hsup. rewrite (run_by_lower_case t), (run_by_lower_case t').
    rewrite <- E.
    destruct Hsup as [-> | ->]; reflexivity.
Qed.

(** X19.  With [num_steps_vertical = 0] the non-proportional path raises
    [ZeroDivisionError], whatever [P] is, zero too: the step of the
    vertical load is [P / num_steps_vertical].  By then the model has
    been built and the first eight calls of the set-up made; no
    increment has been analysed. *)
Theorem no_vertical_steps (fuel : nat) (w : world S) :
  num_steps_vertical opts = 0%nat ->
  exists w' : world S,
    run "nonproportional_limit_point" fuel w = (Raise ZeroDivisionError, w')
    /\ log w' = log w ++ map Command vertical_calls.
Proof.
  intro Hn. unfold run_ops_analysis.
  change (String.eqb (lower "nonproportional_limit_point")
            "proportional_limit_point") with false.
  change (String.eqb (lower "nonproportional_limit_point")
            "nonproportional_limit_point") with true.
  cbv iota. unfold nonproportional_limit_point, vertical_setup.
  rewrite Hn.
  assert (Hdiv : fdiv (P opts) (of_Z (Z.of_nat 0)) = Raise ZeroDivisionError)
    by (destruct (P opts); reflexivity).
  rewrite Hdiv. unfold bind, ops, lift. cbn [solver log].
  eexists. split; [reflexivity|]. cbn [log map vertical_calls].
  rewrite <- !app_assoc. reflexivity.
Qed.

End Runs.

End ControllerRuns.

Module ControllerHistory.
Import PyFloat Ops Controller Scripted ControllerSpec RunSpec ControllerFacts
  ControllerInvariants ControllerLoops ControllerRuns.
Local Open Scope string_scope.
Local Open Scope list_scope.
Local Open Scope ctl_scope.

Lemma monitors_off (opts : options) (maximum : pyfloat) (r : AnalysisResults) :
  unmonitored opts ->
  proportional_monitors opts maximum r = (maximum, None)
  /\ forall current : pyfloat,
       lateral_monitors opts maximum current r = (maximum, None).
Proof.
  intros (E1 & E2 & E3 & E4).
  unfold proportional_monitors, lateral_monitors.
  rewrite E1, E2, E3, E4. split; reflexivity.
Qed.

Lemma armed_unmonitored (opts : options) (tag : ExitCondition) :
  unmonitored opts -> armed opts tag -> tag = AnalysisFailed.
Proof.
  intros (E1 & E2 & E3 & E4). destruct tag; cbn; try reflexivity; congruence.
Qed.

Lemma climb_converged {S : Type} `{Solver S} (rungs : list rung)
  (step : pyfloat) (w : world S) :
  climb rungs step 0%Z w = (Ok (0%Z, step), w).
Proof. destruct rungs; reflexivity. Qed.

Lemma py_max2_not_negative (a b : pyfloat) :
  not_negative a -> not_negative (py_max2 a b).
Proof.
  intro Ha. unfold py_max2, fgt. destruct (flt a b) eqn:E; [|exact Ha].
  destruct a as [p| | |], b as [q| | |]; cbn in *; try discriminate;
    try contradiction; try exact I.
  apply negb_true_iff in E.
  destruct (Qle_bool q p) eqn:E'; [discriminate|].
  destruct (Qlt_le_dec p q) as [Hlt | Hle]; [lra|].
  apply Qle_bool_iff in Hle. congruence.
Qed.

Lemma fold_max_not_negative (l : list pyfloat) (a : pyfloat) :
  not_negative a -> not_negative (fold_left py_max2 l a).
Proof.
  revert a. induction l as [|b l IH]; intros a Ha; [exact Ha|].
  cbn [fold_left]. apply IH. now apply py_max2_not_negative.
Qed.

Lemma fold_max_zeros (l : list pyfloat) :
  all_zero l -> fold_left py_max2 l (Fin 0) = Fin 0.
Proof.
  induction 1 as [|b l <- Hl IH]; [reflexivity|]. exact IH.
Qed.

Section History.
Context {S : Type} `{Solver S}.

Variable strain_c strain_s : pyfloat -> pyfloat -> pyfloat.
Variable locate : list pyfloat -> option pyfloat -> result (nat * pyfloat).
Variable opts : options.

Local Abbreviation run := (run_ops_analysis strain_c strain_s locate opts).

Lemma steady_proportional_increment (step : pyfloat) (w : world S) :
  (forall s : S, fst (analyze s) = 0%Z) ->
  exists w' : world S,
    proportional_increment opts step w = (Ok (0%Z, step), w').
Proof.
  intro Hs. rewrite proportional_increment_rungs.
  unfold bind, ops_analyze. specialize (Hs (solver w)).
  destruct (analyze (solver w)) as [ok s]. cbn in Hs. subst ok.
  rewrite climb_converged. eexists. reflexivity.
Qed.

Lemma steady_lateral_increment (step : pyfloat) (w : world S) :
  (forall s : S, fst (analyze s) = 0%Z) ->
  exists w' : world S,
    lateral_increment opts step w = (Ok (0%Z, step), w').
Proof.
  intro Hs. rewrite lateral_increment_rungs.
  unfold bind, ops_analyze. specialize (Hs (solver w)).
  destruct (analyze (solver w)) as [ok s]. cbn in Hs. subst ok.
  rewrite climb_converged. eexists. reflexivity.
Qed.

Lemma steady_proportional_loop (fuel : nat) (step maximum : pyfloat)
  (r : AnalysisResults) (w : world S) :
  unmonitored opts -> (forall s : S, fst (analyze s) = 0%Z) ->
  exists w' : world S,
    proportional_loop strain_c strain_s opts fuel step maximum r w
    = (Diverged, w').
Proof.
  intros Hoff Hs. revert step maximum r w.
  induction fuel as [|fuel IH]; intros step maximum r w.
  - eexists. reflexivity.
  - cbn [proportional_loop]. unfold bind at 1.
    destruct (steady_proportional_increment step w Hs) as [w1 ->].
    cbn [Z.eqb]. unfold bind, ops. cbn [solver log].
    match goal with
    | |- context [record_time _ _ _ ?w0] =>
        destruct (record_time_run strain_c strain_s r w0)
          as (p & ev & ec & es & ->)
    end.
    rewrite (proj1 (monitors_off opts maximum _ Hoff)).
    apply IH.
Qed.

Lemma steady_lateral_loop (fuel : nat) (step maximum : pyfloat)
  (r : AnalysisResults) (w : world S) :
  unmonitored opts -> (forall s : S, fst (analyze s) = 0%Z) ->
  exists w' : world S,
    lateral_loop strain_c strain_s opts fuel step maximum r w = (Diverged, w').
Proof.
  intros Hoff Hs. revert step maximum r w.
  induction fuel as [|fuel IH]; intros step maximum r w.
  - eexists. reflexivity.
  - cbn [lateral_loop]. unfold bind at 1.
    destruct (steady_lateral_increment step w Hs) as [w1 ->].
    cbn [Z.eqb]. unfold bind, ops. cbn [solver log].
    match goal with
    | |- context [record_lateral _ _ _ _ ?w0] =>
        destruct (record_lateral_abs strain_c strain_s opts r w0)
          as (f & ev & ec & es & ->)
    end.
    unfold ops_getTime.
    rewrite (proj2 (monitors_off opts maximum _ Hoff)).
    apply IH.
Qed.

Lemma steady_vertical_loop (n : nat) (r : AnalysisResults) (w : world S) :
  (forall s : S, fst (analyze s) = 0%Z) ->
  exists (r' : AnalysisResults) (w' : world S),
    vertical_loop strain_c strain_s n r w = (Ok (Next r'), w').
Proof.
  intro Hs. revert r w. induction n as [|n IH]; intros r w.
  - do 2 eexists. reflexivity.
  - cbn [vertical_loop]. unfold bind at 1. unfold ops_analyze at 1.
    pose proof (Hs (solver w)) as Hw.
    destruct (analyze (solver w)) as [ok s]. cbn in Hw. subst ok.
    cbn [nonzero Z.eqb negb]. unfold bind at 1.
    match goal with
    | |- context [record_time _ _ _ ?w0] =>
        destruct (record_time_run strain_c strain_s r w0)
          as (p & ev & ec & es & ->)
    end.
    apply IH.
Qed.

(** X20.  With the four thresholds [None] no monitor can end a run: results
    that are returned have the exit message of a failed increment.
    And nothing else ends the loops: on a solver whose increments all
    converge the run does not return, however many increments it is
    given, on the proportional path and, from one vertical step on, on
    the non-proportional path. *)
Theorem unmonitored_run_ends_by_failure_only :
  unmonitored opts ->
  (forall (t : string) (fuel : nat) (r : AnalysisResults) (w w' : world S),
     run t fuel w = (Ok r, w') ->
     exit_message r = Some "Analysis Failed"
     \/ exit_message r = Some "Analysis Failed In Vertical Loading")
  /\ ((forall s : S, fst (analyze s) = 0%Z) ->
      forall (fuel : nat) (w : world S),
        (exists w' : world S,
           run "proportional_limit_point" fuel w = (Diverged, w'))
        /\ ((1 <= num_steps_vertical opts)%nat ->
            exists w' : world S,
              run "nonproportional_limit_point" fuel w = (Diverged, w'))).
Proof.
  intro Hoff. split.
  - intros t fuel r w w' Hrun. rewrite run_by_lower_case in Hrun.
    destruct (String.eqb (lower t) "proportional_limit_point").
    + left.
      destruct (proportional_run_ends strain_c strain_s locate opts
                  (fun _ _ => True) fuel r w w') as
        (k & r0 & tag & p & m & _ & _ & Harmed & ->);
        try assumption; try easy.
      now rewrite (armed_unmonitored opts tag Hoff Harmed).
    + destruct (String.eqb (lower t) "nonproportional_limit_point");
        [|discriminate].
      destruct (nonproportional_run_ends strain_c strain_s locate opts
                  (fun _ _ => True) (fun _ _ => True) fuel r w w')
        as [(k & r0 & _ & _ & ->)
           | (j & r0 & tag & p & m & _ & _ & Harmed & ->)];
        try assumption; try easy.
      * now right.
      * left. now rewrite (armed_unmonitored opts tag Hoff Harmed).
  - intros Hs fuel w. split.
    + unfold run_ops_analysis.
      change (String.eqb (lower "proportional_limit_point")
                "proportional_limit_point") with true.
      cbv iota. unfold proportional_limit_point.
      unfold bind, ops, ops_analyze. cbn [solver log].
      destruct (analyze _) as [ok0 s0]. cbn [solver log].
      match goal with
      | |- context [record_time _ _ _ ?w0] =>
          destruct (record_time_run strain_c strain_s new_results w0)
            as (p & ev & ec & es & ->)
      end.
      match goal with
      | |- context [proportional_loop _ _ _ ?f ?s ?m ?r0 ?w0] =>
          destruct (steady_proportional_loop f s m r0 w0 Hoff Hs) as [w' ->]
      end.
      now exists w'.
    + intro Hn. unfold run_ops_analysis.
      change (String.eqb (lower "nonproportional_limit_point")
                "proportional_limit_point") with false.
      change (String.eqb (lower "nonproportional_limit_point")
                "nonproportional_limit_point") with true.
      cbv iota. unfold bind at 1. unfold ops at 1.
      unfold nonproportional_limit_point. unfold bind at 1.
      match goal with
      | |- context [vertical_setup _ _ _ ?w0] =>
          destruct (vertical_setup_run strain_c strain_s opts w0 Hn)
            as (r0 & -> & _)
      end.
      unfold bind at 1.
      match goal with
      | |- context [vertical_loop _ _ ?n ?r0 ?w0] =>
          destruct (steady_vertical_loop n r0 w0 Hs) as (r1 & w1 & ->)
      end.
      unfold bind, ops. cbn [solver log].
      match goal with
      | |- context [record_lateral _ _ _ _ ?w0] =>
          destruct (record_lateral_abs strain_c strain_s opts r1 w0)
            as (f & ev & ec & es & ->)
      end.
      match goal with
      | |- context [lateral_loop _ _ _ ?f ?s ?m ?r0 ?w0] =>
          destruct (steady_lateral_loop f s m r0 w0 Hoff Hs) as [w' ->]
      end.
      now exists w'.
Qed.

Lemma narrowed_once (rungs : list rung) (step step' : pyfloat)
  (w w' : world S) (ok : Z) :
  climbs rungs step w w' ok step' ->
  exists (evs : list event) (k : nat),
    log w' = log w ++ evs /\ step' = Nat.iter k (fun s => fdiv_lit s 10) step.
Proof.
  intros (st0 & sts & Hlog & _ & _ & _ & _ & ->).
  eexists. destruct ((ok =? 0)%Z && ended_on_narrowing rungs sts).
  - exists 1%nat. split; [exact Hlog | reflexivity].
  - exists 0%nat. split; [exact Hlog | reflexivity].
Qed.

(** X21.  After a converged increment the lateral loop sets the algorithm and
    the tolerance back and installs a load-control integrator, with the
    displacement step as its step, where the set-up of the lateral
    phase had installed displacement control: a lateral phase that a
    monitor ends leaves the solver with these three calls as the last
    ones made.  The step installed is the step the loop began with
    divided by a power of ten: a step that was narrowed stays
    narrowed. *)
Theorem lateral_reset_installs_load_control (fuel : nat)
  (step maximum : pyfloat) (r r' : AnalysisResults) (w w' : world S) :
  lateral_loop strain_c strain_s opts fuel step maximum r w = (Ok r', w') ->
  exit_message r' = Some "Analysis Failed"
  \/ exists (evs : list event) (k : nat),
       log w'
       = log w ++ evs
         ++ reset_calls (Nat.iter k (fun s => fdiv_lit s 10) step).
Proof.
  revert step maximum r w.
  induction fuel as [|fuel IH]; intros step maximum r w Hloop;
    [discriminate|].
  cbn [lateral_loop] in Hloop. unfold bind at 1 in Hloop.
  destruct (lateral_increment_run opts step w)
    as (ok & step' & w1 & Hinc & Hclimbs).
  destruct (narrowed_once _ _ _ _ _ _ Hclimbs) as (evs & k & Hlog & ->).
  rewrite Hinc in Hloop.
  destruct (ok =? 0)%Z; [|inversion Hloop; now left].
  unfold bind, ops in Hloop. cbn [solver log] in Hloop.
  match type of Hloop with
  | context [record_lateral _ _ _ _ ?w0] =>
      destruct (record_lateral_abs strain_c strain_s opts r w0)
        as (f & ev & ec & es & Hrec)
  end.
  rewrite Hrec in Hloop. unfold ops_getTime in Hloop.
  destruct (lateral_monitors opts maximum _ _) as [maximum' [msg|]].
  - right. inversion Hloop; subst. exists evs, k.
    cbn [after_record log]. rewrite Hlog, <- !app_assoc. reflexivity.
  - destruct (IH _ _ _ _ Hloop) as [Hfail | (evs' & k' & Hlog')];
      [now left | right].
    exists (evs ++ reset_calls (Nat.iter k (fun s => fdiv_lit s 10) step)
              ++ evs'), (k' + k)%nat.
    rewrite Hlog'. cbn [after_record log]. rewrite Hlog, <- !app_assoc.
    now rewrite Nat.iter_add.
Qed.

Lemma vertical_history_kept :
  kept_by_time_records
    (fun k r => length (applied_axial_load r) = k
                /\ maximum_abs_moment r = repeat (Fin 0) k).
Proof.
  intros k r p ev ec es [Hlen Hm]. cbn [append_record applied_axial_load
    maximum_abs_moment]. split.
  - rewrite length_app, Hlen. cbn. lia.
  - rewrite Hm. now rewrite <- repeat_cons.
Qed.

Lemma lateral_history_kept :
  kept_by_lateral_records opts (fun j r => lateral_history opts j r).
Proof.
  intros j r f ev ec es (times & moments & Ht & Hm & Ha & Hmm & Habs).
  exists times, (moments ++ [fabs f]).
  cbn [append_record applied_axial_load maximum_abs_moment].
  split; [assumption|]. split; [rewrite length_app; cbn; lia|].
  split; [rewrite Ha, <- app_assoc; now rewrite <- repeat_cons|].
  split; [rewrite Hmm; now rewrite <- app_assoc|].
  apply Forall_app. split; [assumption|].
  constructor; [now exists f | constructor].
Qed.

(** X22.  What the two phases of a non-proportional run record.  If the run
    went through the lateral phase the history begins with the
    [num_steps_vertical + 1] records of the vertical phase, with the
    moment 0, and goes on with the records of the lateral phase, one at
    least: their applied axial load is the constant [P] the run was
    given, not a reading of the solver, and their moment is an absolute
    value.  If it failed in the vertical phase every moment recorded is
    0. *)
Theorem nonproportional_history (fuel : nat) (r : AnalysisResults)
  (w w' : world S) :
  run "nonproportional_limit_point" fuel w = (Ok r, w') ->
  (exit_message r = Some "Analysis Failed In Vertical Loading"
   /\ all_zero (maximum_abs_moment r)
   /\ (length (maximum_abs_moment r) <= num_steps_vertical opts)%nat)
  \/ (exists (tag : ExitCondition) (times moments : list pyfloat),
        exit_message r = Some (exit_message_of tag)
        /\ length times = Datatypes.S (num_steps_vertical opts)
        /\ (1 <= length moments)%nat
        /\ applied_axial_load r = times ++ repeat (P opts) (length moments)
        /\ maximum_abs_moment r
           = repeat (Fin 0) (Datatypes.S (num_steps_vertical opts)) ++ moments
        /\ Forall is_abs moments).
Proof.
  intro Hrun.
  destruct (nonproportional_run_ends strain_c strain_s locate opts
              (fun k r => length (applied_axial_load r) = k
                          /\ maximum_abs_moment r = repeat (Fin 0) k)
              (fun j r => lateral_history opts j r) fuel r w w')
    as [(k & r0 & Hk & [Hlen Hm] & ->)
       | (j & r0 & tag & p & m & Hj
          & (times & moments & Ht & Hmo & Ha & Hmm & Habs) & _ & ->)];
    try assumption.
  - exact vertical_history_kept.
  - split; reflexivity.
  - exact lateral_history_kept.
  - intros r1 [Hlen Hm]. exists (applied_axial_load r1), [].
    cbn [repeat length]. rewrite !app_nil_r.
    repeat split; try assumption. constructor.
  - left. cbn [set_exit_message exit_message maximum_abs_moment].
    split; [reflexivity|]. rewrite Hm. split.
    + apply List.Forall_forall. intros x Hx. apply repeat_spec in Hx.
      now subst.
    + rewrite repeat_length. lia.
  - right. exists tag, times, moments.
    cbn [set_limit_point set_exit_message exit_message applied_axial_load
         maximum_abs_moment].
    rewrite Hmo. repeat split; assumption.
Qed.

Lemma moments_begin_with_zero_kept :
  kept_by_time_records
    (fun k r => match k with
                | O => maximum_abs_moment r = []
                | Datatypes.S _ =>
                    exists rest, maximum_abs_moment r = Fin 0 :: rest
                end).
Proof.
  intros [|k] r p ev ec es Hr;
    cbn [append_record maximum_abs_moment].
  - rewrite Hr. now exists [].
  - destruct Hr as [rest ->]. now exists (rest ++ [Fin 0]).
Qed.

Lemma nonproportional_moments_begin_with_zero (o : options) (fuel : nat)
  (r : AnalysisResults) (w w' : world S) :
  run_ops_analysis strain_c strain_s locate o "nonproportional_limit_point"
    fuel w = (Ok r, w') ->
  exists rest : list pyfloat, maximum_abs_moment r = Fin 0 :: rest.
Proof.
  intro Hrun.
  destruct (nonproportional_run_ends strain_c strain_s locate o
              (fun k r => match k with
                          | O => maximum_abs_moment r = []
                          | Datatypes.S _ =>
                              exists rest, maximum_abs_moment r = Fin 0 :: rest
                          end)
              (fun _ r => exists rest, maximum_abs_moment r = Fin 0 :: rest)
              fuel r w w')
    as [(k & r0 & Hk & Hr0 & ->)
       | (j & r0 & tag & p & m & Hj & Hr0 & _ & ->)];
    try assumption.
  - exact moments_begin_with_zero_kept.
  - reflexivity.
  - intros j r1 f ev ec es [rest Hr1].
    cbn [append_record maximum_abs_moment]. rewrite Hr1.
    now exists (rest ++ [fabs f]).
  - intros r1 Hr1. exact Hr1.
  - destruct k as [|k]; [lia|]. exact Hr0.
Qed.

Lemma swept_moments (num_points : nat) (nonprop : pyfloat) (fuel : nat)
  (top : pyfloat) (todo : list nat) (w w' : world S)
  (pairs : list (pyfloat * pyfloat)) :
  swept strain_c strain_s locate num_points nonprop fuel top todo w pairs w' ->
  Forall not_negative (map snd pairs).
Proof.
  induction 1 as [|i todo w0 w1 w2 iP m r pairs Hsp Hrun Hmax Hsw IH];
    cbn [map snd]; constructor; [|exact IH].
  unfold analysis in Hrun.
  destruct (nonproportional_moments_begin_with_zero _ _ _ _ _ Hrun)
    as [rest Hrest].
  rewrite Hrest in Hmax. cbn [py_max] in Hmax. inversion Hmax.
  apply fold_max_not_negative. cbn. apply Qle_refl.
Qed.

(** X23.  No moment of the interaction diagram is negative or NaN: every
    entry under 'M' is a rational that is not negative, or plus
    infinity.  The first is the 0 of the axial-only point; each of the
    others is the greatest of a series of moments that begins with the
    0 of the first record of the vertical phase, and [max] keeps what
    it holds unless it meets something greater. *)
Theorem interaction_moments_not_negative (num_points fuel : nat)
  (prop nonprop : pyfloat) (w w' : world S) (Ps Ms : list pyfloat) :
  run_ops_interaction strain_c strain_s locate num_points prop nonprop fuel w
  = (Ok (Ps, Ms), w') ->
  Forall not_negative Ms.
Proof.
  intro Hrun. unfold run_ops_interaction, bind, lift in Hrun.
  destruct (analysis _ _ _ _ _ _ _) as [[r| |] w1] eqn:Hr;
    try discriminate Hrun.
  destruct (py_max _) as [top| |] eqn:Htop; try discriminate Hrun.
  destruct (py_in _ _); [discriminate Hrun|].
  destruct (interaction_loop_swept _ _ _ _ _ _ _ _ _ _ _ _ _ _ Hrun)
    as (pairs & Hswept & HPs & HMs).
  rewrite HMs. cbn [app]. constructor; [cbn; apply Qle_refl|].
  eapply swept_moments. exact Hswept.
Qed.

(** X24.  A non-proportional analysis that fails in the vertical-load phase
    raises nothing and has the greatest moment 0: the interaction sweep
    takes the point [(iP, 0)] from it as from any other. *)
Theorem vertical_failure_gives_zero_moment (fuel : nat) (r : AnalysisResults)
  (w w' : world S) :
  run "nonproportional_limit_point" fuel w = (Ok r, w') ->
  exit_message r = Some "Analysis Failed In Vertical Loading" ->
  py_max (maximum_abs_moment r) = Ok (Fin 0).
Proof.
  intros Hrun Hmsg.
  destruct (nonproportional_run_ends strain_c strain_s locate opts
              (fun k r => maximum_abs_moment r = repeat (Fin 0) k)
              (fun _ _ => True) fuel r w w')
    as [(k & r0 & Hk & Hm & ->)
       | (j & r0 & tag & p & m & _ & _ & _ & ->)];
    try assumption; try easy.
  - intros k r1 p ev ec es Hr1. cbn [append_record maximum_abs_moment].
    rewrite Hr1. now rewrite <- repeat_cons.
  - cbn [set_exit_message maximum_abs_moment]. rewrite Hm.
    destruct k as [|k]; [lia|]. cbn [repeat py_max].
    f_equal. apply fold_max_zeros.
    apply List.Forall_forall. intros x Hx. apply repeat_spec in Hx.
    now subst.
  - cbn in Hmsg. destruct tag; discriminate Hmsg.
Qed.

End History.

End ControllerHistory.

Module SweepFacts.
Import PyFloat Ops Controller Scripted ControllerSpec RunSpec ControllerFacts
  ControllerInvariants ControllerLoops ControllerRuns ControllerHistory.
Local Open Scope string_scope.
Local Open Scope list_scope.
Local Open Scope ctl_scope.

Lemma Forall2_nth_error {A B : Type} (R : A -> B -> Prop) (l : list A)
  (l' : list B) (j : nat) (a : A) (b : B) :
  Forall2 R l l' -> nth_error l j = Some a -> nth_error l' j = Some b ->
  R a b.
Proof.
  intro HF. revert j. induction HF as [|x y l l' Hxy HF IH]; intros [|j];
    cbn; try discriminate.
  - intros Ha Hb. inversion Ha; inversion Hb; now subst.
  - apply IH.
Qed.

Lemma spaced_finite (num_points : nat) (q : Q) (i : nat) (iP : pyfloat) :
  spaced num_points (Fin q) i iP ->
  exists qi : Q,
    iP = Fin qi
    /\ (qi == q * inject_Z (Z.of_nat num_points - 1 - Z.of_nat i)
              / inject_Z (Z.of_nat num_points - 1))%Q.
Proof.
  unfold spaced, fdiv, fmul, of_Z, fin.
  destruct (Qsign (inject_Z (Z.of_nat num_points - 1))); try discriminate;
    intro E; inversion E; eexists; (split; [reflexivity|]);
    now rewrite !Qred_correct.
Qed.

Lemma spaced_last (num_points : nat) (top iP : pyfloat) :
  spaced num_points top (num_points - 1) iP ->
  (2 <= num_points)%nat ->
  iP = if is_finite top then Fin 0 else NaN.
Proof.
  intros Hsp Hn. unfold spaced in Hsp.
  replace (Z.of_nat num_points - 1 - Z.of_nat (num_points - 1))%Z with 0%Z
    in Hsp by lia.
  unfold fdiv, of_Z, Qsign in Hsp. cbn [Qnum inject_Z] in Hsp.
  destruct (Z.compare_spec (Z.of_nat num_points - 1) 0) as [E | E | E];
    try lia.
  destruct top as [q| | |]; cbn in Hsp; inversion Hsp; try reflexivity.
  cbn [is_finite]. unfold fin. f_equal.
  change 0%Q with (Qred 0). apply Qred_complete.
  rewrite Qred_correct. unfold Qdiv. ring.
Qed.

Section Sweep.
Context {S : Type} `{Solver S}.

Variable strain_c strain_s : pyfloat -> pyfloat -> pyfloat.
Variable locate : list pyfloat -> option pyfloat -> result (nat * pyfloat).

Lemma swept_spaced (num_points : nat) (nonprop : pyfloat) (fuel : nat)
  (top : pyfloat) (todo : list nat) (w w' : world S)
  (pairs : list (pyfloat * pyfloat)) :
  swept strain_c strain_s locate num_points nonprop fuel top todo w pairs w' ->
  Forall2 (fun i pair => spaced num_points top i (fst pair)) todo pairs.
Proof. induction 1; constructor; assumption. Qed.

(** X25.  The axial loads of the interaction diagram.  The entries under 'P'
    are the capacity [top] of the axial-only analysis and one load for
    each [i] from 1 to [num_points - 1]; so with [num_points] 0 or 1
    the capacity is all there is.  When the capacity is a finite
    number, load [i] is the rational [top * (num_points - 1 - i) /
    (num_points - 1)]: the loads are evenly spaced and the last of
    them is 0, the point of pure bending.  When the capacity is not
    finite the last load is NaN. *)
Theorem sweep_axial_loads (num_points fuel : nat) (prop nonprop : pyfloat)
  (w w' : world S) (Ps Ms : list pyfloat) :
  run_ops_interaction strain_c strain_s locate num_points prop nonprop fuel w
  = (Ok (Ps, Ms), w') ->
  exists top : pyfloat,
    nth_error Ps 0 = Some top
    /\ length Ps = Datatypes.S (num_points - 1)
    /\ length Ms = length Ps
    /\ (forall (q : Q) (i : nat) (iP : pyfloat),
          top = Fin q -> (1 <= i)%nat -> nth_error Ps i = Some iP ->
          exists qi : Q,
            iP = Fin qi
            /\ (qi == q * inject_Z (Z.of_nat num_points - 1 - Z.of_nat i)
                      / inject_Z (Z.of_nat num_points - 1))%Q)
    /\ ((2 <= num_points)%nat ->
        nth_error Ps (num_points - 1)
        = Some (if is_finite top then Fin 0 else NaN)).
Proof.
  intro Hrun. unfold run_ops_interaction, bind, lift in Hrun.
  destruct (analysis _ _ _ _ _ _ _) as [[r| |] w1] eqn:Hr;
    try discriminate Hrun.
  destruct (py_max _) as [top| |] eqn:Htop; try discriminate Hrun.
  destruct (py_in _ _); [discriminate Hrun|].
  destruct (interaction_loop_swept _ _ _ _ _ _ _ _ _ _ _ _ _ _ Hrun)
    as (pairs & Hswept & HPs & HMs).
  pose proof (swept_spaced _ _ _ _ _ _ _ _ Hswept) as Hsp.
  assert (Hlen : length pairs = (num_points - 1)%nat).
  { assert (E : length (seq 1 (num_points - 1)) = length pairs)
      by (clear - Hsp; induction Hsp; cbn [length]; congruence).
    rewrite <- E. apply length_seq. }
  exists top. subst Ps Ms. cbn [app nth_error length].
  rewrite !length_map, Hlen.
  split; [reflexivity|]. split; [reflexivity|]. split; [reflexivity|].
  assert (Hnth : forall (i : nat) (iP : pyfloat),
            (1 <= i)%nat -> nth_error (top :: map fst pairs) i = Some iP ->
            spaced num_points top i iP).
  { intros [|j] iP Hi Hnth; [lia|]. cbn [nth_error] in Hnth.
    rewrite nth_error_map in Hnth.
    destruct (nth_error pairs j) as [pair|] eqn:Hpair; [|discriminate].
    inversion Hnth; subst iP.
    assert (Hj : (j < num_points - 1)%nat).
    { rewrite <- Hlen. apply nth_error_Some. congruence. }
    assert (Hseq : nth_error (seq 1 (num_points - 1)) j
                   = Some (Datatypes.S j)).
    { rewrite nth_error_seq.
      destruct (Nat.ltb_spec j (num_points - 1)); [reflexivity | lia]. }
    exact (Forall2_nth_error _ _ _ _ _ _ Hsp Hseq Hpair). }
  split.
  - intros q i iP -> Hi Hi'. apply (spaced_finite num_points q i).
    now apply Hnth.
  - intro Hn.
    destruct (nth_error (top :: map fst pairs) (num_points - 1))
      as [iP|] eqn:HiP.
    + f_equal. apply (spaced_last num_points); [|assumption].
      apply Hnth; [lia | assumption].
    + apply nth_error_None in HiP. cbn [length] in HiP.
      rewrite length_map, Hlen in HiP. lia.
Qed.

End Sweep.

End SweepFacts.

Module TraceFacts.
Import PyFloat Ops Controller Scripted ControllerSpec RunSpec ControllerFacts
  ControllerInvariants ControllerLoops ControllerRuns ControllerHistory.
Local Open Scope string_scope.
Local Open Scope list_scope.
Local Open Scope ctl_scope.

Lemma converged_app (l l' : list event) :
  converged (l ++ l') = (converged l + converged l')%nat.
Proof.
  induction l as [|[c | st] l IH]; cbn [app converged]; rewrite ?IH; lia.
Qed.

Lemma converged_commands (cs : list command) :
  converged (map Command cs) = 0%nat.
Proof. induction cs; [reflexivity | assumption]. Qed.

Lemma converged_attempts (rungs : list rung) (st0 : Z) (sts : list Z) :
  (length sts <= length rungs)%nat ->
  Forall (fun st => st <> 0%Z) (removelast (st0 :: sts)) ->
  converged (Analyze st0 :: attempts rungs sts)
  = if (List.last (st0 :: sts) 0 =? 0)%Z then 1%nat else 0%nat.
Proof.
  revert rungs st0. induction sts as [|st sts IH]; intros rungs st0 Hlen Hall.
  - rewrite attempts_nil. cbn. destruct (st0 =? 0)%Z; reflexivity.
  - destruct rungs as [|rg rungs]; [cbn in Hlen; lia|].
    change (removelast (st0 :: st :: sts))
      with (st0 :: removelast (st :: sts)) in Hall.
    apply Forall_cons_iff in Hall as [Hst0 Hall].
    cbn [attempts]. cbn [converged].
    destruct (Z.eqb_spec st0 0); [contradiction|].
    rewrite converged_app, converged_commands.
    cbn [length] in Hlen.
    rewrite (IH rungs st) by (try assumption; lia).
    reflexivity.
Qed.

Lemma attempts_tuning (rungs : list rung) (sts : list Z) :
  Forall (fun rg => Forall (fun c => tuning (Command c)) (setup rg)) rungs ->
  Forall tuning (attempts rungs sts).
Proof.
  revert sts. induction rungs as [|rg rungs IH]; intros sts Hall;
    [constructor|].
  destruct sts as [|st sts]; [constructor|].
  apply Forall_cons_iff in Hall as [Hrg Hall]. cbn [attempts].
  apply Forall_app. split.
  - apply List.Forall_map. exact Hrg.
  - constructor; [exact I | now apply IH].
Qed.

Lemma rungs_tuning (opts : options) (step : pyfloat) :
  Forall (fun rg => Forall (fun c => tuning (Command c)) (setup rg))
    (proportional_rungs opts step)
  /\ Forall (fun rg => Forall (fun c => tuning (Command c)) (setup rg))
       (lateral_rungs opts step).
Proof.
  unfold proportional_rungs, lateral_rungs.
  destruct (try_smaller_steps opts); split; repeat constructor.
Qed.

Section Trace.
Context {S : Type} `{Solver S}.

Variable strain_c strain_s : pyfloat -> pyfloat -> pyfloat.
Variable locate : list pyfloat -> option pyfloat -> result (nat * pyfloat).
Variable opts : options.

Lemma climbs_converged (rungs : list rung) (step step' : pyfloat)
  (w w' : world S) (ok : Z) :
  climbs rungs step w w' ok step' ->
  Forall (fun rg => Forall (fun c => tuning (Command c)) (setup rg)) rungs ->
  exists evs : list event,
    log w' = log w ++ evs
    /\ converged evs = (if (ok =? 0)%Z then 1%nat else 0%nat)
    /\ Forall tuning evs.
Proof.
  intros (st0 & sts & Hlog & Hlen & Hall & -> & _) Hrungs.
  eexists. split; [exact Hlog|]. split; [now apply converged_attempts|].
  constructor; [exact I | now apply attempts_tuning].
Qed.

Lemma reset_calls_tuning (step : pyfloat) : Forall tuning (reset_calls step).
Proof. repeat constructor. Qed.

Lemma proportional_loop_records (fuel : nat) (step maximum : pyfloat)
  (r r' : AnalysisResults) (w w' : world S) :
  proportional_loop strain_c strain_s opts fuel step maximum r w = (Ok r', w') ->
  exists evs : list event,
    log w' = log w ++ evs
    /\ history_lengths r'
       = map (fun len => len + converged evs)%nat (history_lengths r)
    /\ Forall tuning evs.
Proof.
  revert step maximum r w.
  induction fuel as [|fuel IH]; intros step maximum r w Hloop;
    [discriminate|].
  cbn [proportional_loop] in Hloop. unfold bind at 1 in Hloop.
  destruct (proportional_increment_run opts step w)
    as (ok & step' & w1 & Hinc & Hclimbs).
  destruct (climbs_converged _ _ _ _ _ _ Hclimbs
              (proj1 (rungs_tuning opts step)))
    as (evs & Hlog & Hconv & Htune).
  rewrite Hinc in Hloop.
  destruct (ok =? 0)%Z.
  - unfold bind, ops in Hloop. cbn [solver log] in Hloop.
    match type of Hloop with
    | context [record_time _ _ _ ?w0] =>
        destruct (record_time_run strain_c strain_s r w0)
          as (p & ev & ec & es & Hrec)
    end.
    rewrite Hrec in Hloop.
    destruct (proportional_monitors opts maximum _) as [maximum' [msg|]].
    + inversion Hloop; subst.
      exists (evs ++ reset_calls step'). cbn [after_record log].
      split; [rewrite Hlog, <- !app_assoc; reflexivity|]. split.
      * rewrite converged_app, Hconv.
        change (history_lengths (set_exit_message ?x _))
          with (history_lengths x).
        rewrite history_lengths_append. cbn [reset_calls converged].
        apply map_ext. intro len. lia.
      * apply Forall_app. split; [assumption | apply reset_calls_tuning].
    + destruct (IH _ _ _ _ Hloop) as (evs' & Hlog' & Hlen' & Htune').
      exists (evs ++ reset_calls step' ++ evs').
      split; [|split].
      * rewrite Hlog'. cbn [after_record log].
        rewrite Hlog, <- !app_assoc. reflexivity.
      * rewrite Hlen', history_lengths_append, map_map.
        rewrite !converged_app, Hconv. cbn [reset_calls converged].
        apply map_ext. intro len. lia.
      * apply Forall_app. split; [assumption|].
        apply Forall_app. split; [apply reset_calls_tuning | assumption].
  - inversion Hloop; subst. exists evs. split; [assumption|]. split.
    + rewrite Hconv.
      change (history_lengths (set_exit_message ?x _))
        with (history_lengths x).
      rewrite <- (map_id (history_lengths r)) at 1.
      apply map_ext. intro len. lia.
    + assumption.
Qed.

Lemma lateral_loop_records (fuel : nat) (step maximum : pyfloat)
  (r r' : AnalysisResults) (w w' : world S) :
  lateral_loop strain_c strain_s opts fuel step maximum r w = (Ok r', w') ->
  exists evs : list event,
    log w' = log w ++ evs
    /\ history_lengths r'
       = map (fun len => len + converged evs)%nat (history_lengths r)
    /\ Forall tuning evs.
Proof.
  revert step maximum r w.
  induction fuel as [|fuel IH]; intros step maximum r w Hloop;
    [discriminate|].
  cbn [lateral_loop] in Hloop. unfold bind at 1 in Hloop.
  destruct (lateral_increment_run opts step w)
    as (ok & step' & w1 & Hinc & Hclimbs).
  destruct (climbs_converged _ _ _ _ _ _ Hclimbs
              (proj2 (rungs_tuning opts step)))
    as (evs & Hlog & Hconv & Htune).
  rewrite Hinc in Hloop.
  destruct (ok =? 0)%Z.
  - unfold bind, ops in Hloop. cbn [solver log] in Hloop.
    match type of Hloop with
    | context [record_lateral _ _ _ _ ?w0] =>
        destruct (record_lateral_abs strain_c strain_s opts r w0)
          as (f & ev & ec & es & Hrec)
    end.
    rewrite Hrec in Hloop. unfold ops_getTime in Hloop.
    destruct (lateral_monitors opts maximum _ _) as [maximum' [msg|]].
    + inversion Hloop; subst.
      exists (evs ++ reset_calls step'). cbn [after_record log].
      split; [rewrite Hlog, <- !app_assoc; reflexivity|]. split.
      * rewrite converged_app, Hconv.
        change (history_lengths (set_exit_message ?x _))
          with (history_lengths x).
        rewrite history_lengths_append. cbn [reset_calls converged].
        apply map_ext. intro len. lia.
      * apply Forall_app. split; [assumption | apply reset_calls_tuning].
    + destruct (IH _ _ _ _ Hloop) as (evs' & Hlog' & Hlen' & Htune').
      exists (evs ++ reset_calls step' ++ evs').
      split; [|split].
      * rewrite Hlog'. cbn [after_record log].
        rewrite Hlog, <- !app_assoc. reflexivity.
      * rewrite Hlen', history_lengths_append, map_map.
        rewrite !converged_app, Hconv. cbn [reset_calls converged].
        apply map_ext. intro len. lia.
      * apply Forall_app. split; [assumption|].
        apply Forall_app. split; [apply reset_calls_tuning | assumption].
  - inversion Hloop; subst. exists evs. split; [assumption|]. split.
    + rewrite Hconv.
      change (history_lengths (set_exit_message ?x _))
        with (history_lengths x).
      rewrite <- (map_id (history_lengths r)) at 1.
      apply map_ext. intro len. lia.
    + assumption.
Qed.

Lemma vertical_loop_records (n : nat) (r : AnalysisResults) (w w' : world S)
  (ended : flow) :
  vertical_loop strain_c strain_s n r w = (Ok ended, w') ->
  exists evs : list event,
    log w' = log w ++ evs
    /\ history_lengths (results_of ended)
       = map (fun len => len + converged evs)%nat (history_lengths r)
    /\ Forall tuning evs.
Proof.
  revert r w. induction n as [|n IH]; intros r w Hloop.
  - inversion Hloop; subst. exists []. rewrite app_nil_r.
    split; [reflexivity|]. split; [|constructor].
    cbn [results_of converged].
    rewrite <- (map_id (history_lengths r)) at 1.
    apply map_ext. intro len. lia.
  - cbn [vertical_loop] in Hloop. unfold bind at 1 in Hloop.
    unfold ops_analyze at 1 in Hloop.
    destruct (analyze (solver w)) as [ok s]. unfold nonzero in Hloop.
    destruct (Z.eqb_spec ok 0) as [-> | Hok]; cbn [negb] in Hloop.
    + unfold bind at 1 in Hloop.
      match type of Hloop with
      | context [record_time _ _ _ ?w0] =>
          destruct (record_time_run strain_c strain_s r w0)
            as (p & ev & ec & es & Hrec)
      end.
      rewrite Hrec in Hloop.
      destruct (IH _ _ Hloop) as (evs & Hlog & Hlen & Htune).
      exists (Analyze 0 :: evs). split; [|split].
      * rewrite Hlog. cbn [after_record log]. now rewrite <- app_assoc.
      * rewrite Hlen, history_lengths_append, map_map.
        cbn [converged Z.eqb]. apply map_ext. intro len. lia.
      * constructor; [exact I | assumption].
    + inversion Hloop; subst. exists [Analyze ok].
      split; [reflexivity|]. split; [|repeat constructor].
      cbn [results_of converged].
      destruct (Z.eqb_spec ok 0); [contradiction|].
      change (history_lengths (set_exit_message ?x _)) with (history_lengths x).
      rewrite <- (map_id (history_lengths r)) at 1.
      apply map_ext. intro len. cbn. lia.
Qed.

(** X26.  Every converged increment is recorded, once, and nothing else is:
    in each of the three loops, the proportional one, the vertical one
    and the lateral one, each of the five series grows by the number of
    [analyze] calls of the loop that returned 0.  An increment that
    converges on a retry counts once: the attempts before it failed. *)
Theorem one_record_for_each_converged_increment :
  (forall (fuel : nat) (step maximum : pyfloat) (r r' : AnalysisResults)
     (w w' : world S),
     proportional_loop strain_c strain_s opts fuel step maximum r w
     = (Ok r', w') ->
     exists evs : list event,
       log w' = log w ++ evs
       /\ history_lengths r'
          = map (fun len => len + converged evs)%nat (history_lengths r))
  /\ (forall (n : nat) (r : AnalysisResults) (w w' : world S) (ended : flow),
        vertical_loop strain_c strain_s n r w = (Ok ended, w') ->
        exists evs : list event,
          log w' = log w ++ evs
          /\ history_lengths (results_of ended)
             = map (fun len => len + converged evs)%nat (history_lengths r))
  /\ (forall (fuel : nat) (step maximum : pyfloat) (r r' : AnalysisResults)
        (w w' : world S),
        lateral_loop strain_c strain_s opts fuel step maximum r w
        = (Ok r', w') ->
        exists evs : list event,
          log w' = log w ++ evs
          /\ history_lengths r'
             = map (fun len => len + converged evs)%nat (history_lengths r)).
Proof.
  split; [|split].
  - intros fuel step maximum r r' w w' Hloop.
    destruct (proportional_loop_records _ _ _ _ _ _ _ Hloop)
      as (evs & Hlog & Hlen & _).
    now exists evs.
  - intros n r w w' ended Hloop.
    destruct (vertical_loop_records _ _ _ _ _ Hloop)
      as (evs & Hlog & Hlen & _).
    now exists evs.
  - intros fuel step maximum r r' w w' Hloop.
    destruct (lateral_loop_records _ _ _ _ _ _ _ Hloop)
      as (evs & Hlog & Hlen & _).
    now exists evs.
Qed.

(** X27.  What the loops never do.  From the first increment of a loop to its
    end the controller asks the solver to analyse and sets the
    integrator, the algorithm and the convergence test, and nothing
    else: it does not build the model again nor touch the loads, the
    patterns, the constraints, the numberer or the system of
    equations. *)
Theorem loops_only_tune_the_solver :
  (forall (fuel : nat) (step maximum : pyfloat) (r r' : AnalysisResults)
     (w w' : world S),
     proportional_loop strain_c strain_s opts fuel step maximum r w
     = (Ok r', w') ->
     exists evs : list event, log w' = log w ++ evs /\ Forall tuning evs)
  /\ (forall (n : nat) (r : AnalysisResults) (w w' : world S) (ended : flow),
        vertical_loop strain_c strain_s n r w = (Ok ended, w') ->
        exists evs : list event, log w' = log w ++ evs /\ Forall tuning evs)
  /\ (forall (fuel : nat) (step maximum : pyfloat) (r r' : AnalysisResults)
        (w w' : world S),
        lateral_loop strain_c strain_s opts fuel step maximum r w
        = (Ok r', w') ->
        exists evs : list event, log w' = log w ++ evs /\ Forall tuning evs).
Proof.
  split; [|split].
  - intros fuel step maximum r r' w w' Hloop.
    destruct (proportional_loop_records _ _ _ _ _ _ _ Hloop)
      as (evs & Hlog & _ & Htune).
    now exists evs.
  - intros n r w w' ended Hloop.
    destruct (vertical_loop_records _ _ _ _ _ Hloop)
      as (evs & Hlog & _ & Htune).
    now exists evs.
  - intros fuel step maximum r r' w w' Hloop.
    destruct (lateral_loop_records _ _ _ _ _ _ _ Hloop)
      as (evs & Hlog & _ & Htune).
    now exists evs.
Qed.

End Trace.

End TraceFacts.

Module MonitorFacts.
Import PyFloat Ops Controller Scripted ControllerSpec RunSpec ControllerFacts.
Local Open Scope string_scope.
Local Open Scope list_scope.

Lemma flt_Fin (a b : Q) : flt (Fin a) (Fin b) = true <-> (a < b)%Q.
Proof.
  cbn. rewrite negb_true_iff. split.
  - intro E. destruct (Qlt_le_dec a b) as [Hlt | Hle]; [assumption|].
    apply Qle_bool_iff in Hle. congruence.
  - intro Hlt. destruct (Qle_bool b a) eqn:E; [|reflexivity].
    apply Qle_bool_iff in E. lra.
Qed.

Lemma drop_threshold (pct m : Q) :
  exists t : Q,
    fmul (fsub (Fin 1) (Fin pct)) (Fin m) = Fin t /\ (t == (1 - pct) * m)%Q.
Proof.
  eexists. split; [reflexivity|]. unfold fin.
  rewrite !Qred_correct. ring.
Qed.

Lemma running_maximum (m c : Q) :
  exists m' : Q,
    py_max2 (Fin m) (Fin c) = Fin m'
    /\ ((m <= c)%Q -> (m' == c)%Q) /\ ((c <= m)%Q -> (m' == m)%Q).
Proof.
  unfold py_max2, fgt. destruct (flt (Fin m) (Fin c)) eqn:E.
  - apply flt_Fin in E. exists c. repeat split; intros; lra.
  - exists m. split; [reflexivity|].
    assert (Hle : (c <= m)%Q).
    { destruct (Qlt_le_dec m c) as [Hlt | Hle]; [|assumption].
      apply flt_Fin in Hlt. congruence. }
    split; intros; lra.
Qed.

Section LoadDrop.

Variable opts : options.
Variable pct : Q.
Hypothesis Hpct : percent_load_drop_limit opts = Some (Fin pct).

Lemma lateral_drop_fires (m c : Q) (r : AnalysisResults) :
  snd (lateral_monitors opts (Fin m) (Fin c) r)
  = Some "Load Drop Limit Reached"
  <-> exists m' : Q,
        py_max2 (Fin m) (Fin c) = Fin m' /\ (c < (1 - pct) * m')%Q.
Proof.
  unfold lateral_monitors. rewrite Hpct.
  destruct (running_maximum m c) as (m' & Hmax & _). rewrite Hmax.
  destruct (drop_threshold pct m') as (t & Ht & Et). rewrite Ht.
  destruct (flt (Fin c) (Fin t)) eqn:E.
  - cbn [snd]. split; [intros _|reflexivity].
    apply flt_Fin in E. exists m'. split; [reflexivity | lra].
  - split.
    + intro Hmsg.
      repeat match type of Hmsg with
        | context [if ?b then _ else _] => destruct b
        end; discriminate Hmsg.
    + intros (m'' & Hm'' & Hlt). inversion Hm''; subst m''.
      assert (Hflt : flt (Fin c) (Fin t) = true) by (apply flt_Fin; lra).
      congruence.
Qed.

End LoadDrop.

(** X28.  The load-drop monitor, with a finite limit [pct].  The response is
    entered into the running maximum first and compared with
    [(1 - pct)] times that maximum after.  So with a limit that is not
    negative the monitor is silent as long as the response is at or
    above the maximum it has had, which starts at 0.  And a negative
    response while the maximum is still 0 ends the run with 'Load Drop
    Limit Reached' at once, whatever the limit: the threshold is 0
    then.  On the proportional path the response is the applied axial
    load last recorded, on the lateral path the time of the solver. *)
Theorem load_drop_monitor (opts : options) (pct : Q) (r : AnalysisResults) :
  percent_load_drop_limit opts = Some (Fin pct) ->
  (forall m c : Q,
     (0 <= pct)%Q -> (0 <= m)%Q -> (m <= c)%Q ->
     snd (lateral_monitors opts (Fin m) (Fin c) r)
     <> Some "Load Drop Limit Reached"
     /\ (last_of (applied_axial_load r) = Fin c ->
         snd (proportional_monitors opts (Fin m) r)
         <> Some "Load Drop Limit Reached"))
  /\ (forall c : Q,
        (c < 0)%Q ->
        snd (lateral_monitors opts (Fin 0) (Fin c) r)
        = Some "Load Drop Limit Reached"
        /\ (last_of (applied_axial_load r) = Fin c ->
            snd (proportional_monitors opts (Fin 0) r)
            = Some "Load Drop Limit Reached")).
Proof.
  intro Hpct.
  assert (Hsame : forall m c : Q,
            last_of (applied_axial_load r) = Fin c ->
            snd (proportional_monitors opts (Fin m) r)
            = Some "Load Drop Limit Reached"
            <-> snd (lateral_monitors opts (Fin m) (Fin c) r)
                = Some "Load Drop Limit Reached").
  { intros m c Hc. unfold proportional_monitors, lateral_monitors.
    rewrite Hc, Hpct.
    destruct (flt (Fin c) _); cbn [snd]; [tauto|].
    split; intro Hmsg;
      repeat match type of Hmsg with
        | context [if ?b then _ else _] => destruct b
        end; discriminate Hmsg. }
  split.
  - intros m c H0 Hm Hmc.
    assert (Hlat : snd (lateral_monitors opts (Fin m) (Fin c) r)
                   <> Some "Load Drop Limit Reached").
    { intro Hmsg. apply (lateral_drop_fires opts pct Hpct) in Hmsg.
      destruct Hmsg as (m' & Hmax & Hlt).
      destruct (running_maximum m c) as (m'' & Hmax' & Hge & _).
      rewrite Hmax in Hmax'. inversion Hmax'; subst m''.
      specialize (Hge Hmc). rewrite Hge in Hlt. nra. }
    split; [exact Hlat|]. intros Hc Hmsg. apply Hlat.
    now apply (Hsame m c Hc).
  - intros c Hc.
    assert (Hlat : snd (lateral_monitors opts (Fin 0) (Fin c) r)
                   = Some "Load Drop Limit Reached").
    { apply (lateral_drop_fires opts pct Hpct).
      destruct (running_maximum 0 c) as (m' & Hmax & _ & Hle).
      exists m'. split; [assumption|].
      rewrite (Hle ltac:(lra)). lra. }
    split; [exact Hlat|]. intro Hlast. now apply (Hsame 0%Q c Hlast).
Qed.

End MonitorFacts.

Module RunTraces.
Import PyFloat Ops Controller Scripted ControllerSpec RunSpec ControllerFacts
  ControllerInvariants ControllerLoops ControllerRuns ControllerHistory
  TraceFacts.
Local Open Scope string_scope.
Local Open Scope list_scope.
Local Open Scope ctl_scope.

Section Traces.
Context {S : Type} `{Solver S}.

Variable strain_c strain_s : pyfloat -> pyfloat -> pyfloat.
Variable locate : list pyfloat -> option pyfloat -> result (nat * pyfloat).
Variable opts : options.

Local Abbreviation run := (run_ops_analysis strain_c strain_s locate opts).

Lemma vertical_loop_next (n : nat) (r r' : AnalysisResults) (w w' : world S) :
  vertical_loop strain_c strain_s n r w = (Ok (Next r'), w') ->
  log w' = log w ++ repeat (Analyze 0) n
  /\ history_lengths r' = map (fun len => len + n)%nat (history_lengths r).
Proof.
  revert r w. induction n as [|n IH]; intros r w Hloop.
  - inversion Hloop; subst. cbn [repeat]. rewrite app_nil_r.
    split; [reflexivity|].
    rewrite <- (map_id (history_lengths r')) at 1.
    apply map_ext. intro len. lia.
  - cbn [vertical_loop] in Hloop. unfold bind at 1 in Hloop.
    unfold ops_analyze at 1 in Hloop.
    destruct (analyze (solver w)) as [ok s]. unfold nonzero in Hloop.
    destruct (Z.eqb_spec ok 0) as [-> | Hok]; cbn [negb] in Hloop;
      [|discriminate Hloop].
    unfold bind at 1 in Hloop.
    match type of Hloop with
    | context [record_time _ _ _ ?w0] =>
        destruct (record_time_run strain_c strain_s r w0)
          as (p & ev & ec & es & Hrec)
    end.
    rewrite Hrec in Hloop.
    destruct (IH _ _ Hloop) as [Hlog Hlen]. split.
    + rewrite Hlog. cbn [after_record log repeat]. now rewrite <- app_assoc.
    + rewrite Hlen, history_lengths_append, map_map.
      apply map_ext. intro len. lia.
Qed.

(** X29.  All that a proportional run that returns has asked of the solver:
    the eleven calls of the set-up, the first increment, whose status
    is not looked at, and then the increments of the loop with their
    retries, which only touch the integrator, the algorithm and the
    test.  The history has the record taken after the first increment,
    converged or not, and one for each converged increment of the
    loop. *)
Theorem proportional_run_trace (fuel : nat) (r : AnalysisResults)
  (w w' : world S) :
  run "proportional_limit_point" fuel w = (Ok r, w') ->
  exists (st0 : Z) (evs : list event),
    log w'
    = log w ++ map Command (proportional_calls opts) ++ Analyze st0 :: evs
    /\ Forall tuning evs
    /\ history_lengths r = repeat (1 + converged evs)%nat 5.
Proof.
  intro Hrun. unfold run_ops_analysis in Hrun.
  change (String.eqb (lower "proportional_limit_point")
            "proportional_limit_point") with true in Hrun.
  cbv iota in Hrun. unfold bind at 1 in Hrun. unfold ops at 1 in Hrun.
  unfold proportional_limit_point in Hrun.
  unfold bind, ops, ops_analyze in Hrun. cbn [solver log] in Hrun.
  destruct (analyze _) as [ok0 s0] in Hrun. cbn [solver log] in Hrun.
  match type of Hrun with
  | context [record_time _ _ _ ?w0] =>
      destruct (record_time_run strain_c strain_s new_results w0)
        as (p & ev & ec & es & Hrec)
  end.
  rewrite Hrec in Hrun.
  match type of Hrun with
  | context [proportional_loop _ _ _ ?f ?s ?m ?r0 ?w0] =>
      destruct (proportional_loop strain_c strain_s opts f s m r0 w0)
        as [[r1| |] w1] eqn:Hloop; try discriminate Hrun
  end.
  destruct (proportional_loop_records _ _ _ _ _ _ _ _ _ _ Hloop)
    as (evs & Hlog & Hlen & Htune).
  unfold lift in Hrun. inversion Hrun as [[Hfind Hw]]. subst w1.
  destruct (find_limit_point_ok locate opts _ r Hfind)
    as (tag' & target & i & x & p' & m & _ & _ & ->).
  exists ok0, evs. split; [|split; [assumption|]].
  - rewrite Hlog. cbn [after_record log map proportional_calls].
    rewrite <- !app_assoc. reflexivity.
  - change (history_lengths (set_limit_point r1 p' m))
      with (history_lengths r1).
    rewrite Hlen. reflexivity.
Qed.

(** X30.  All that a non-proportional run that returns has asked of the
    solver.  After the eleven calls of the set-up of the vertical
    phase, with the vertical step [P / num_steps_vertical], either the
    vertical increments and nothing more, when one of them failed; or
    [num_steps_vertical] converged increments, tried once each, the six
    calls that open the lateral phase, and the increments of the
    lateral loop with their retries.  The history has the first record,
    one for each vertical increment that converged, and in the second
    case the first record of the lateral phase and one for each
    converged increment of the lateral loop. *)
Theorem nonproportional_run_trace (fuel : nat) (r : AnalysisResults)
  (w w' : world S) :
  run "nonproportional_limit_point" fuel w = (Ok r, w') ->
  exists (v : pyfloat) (evs : list event),
    fdiv (P opts) (of_Z (Z.of_nat (num_steps_vertical opts))) = Ok v
    /\ log w' = log w ++ map Command (vertical_phase_calls v) ++ evs
    /\ ((exit_message r = Some "Analysis Failed In Vertical Loading"
         /\ Forall tuning evs
         /\ history_lengths r = repeat (1 + converged evs)%nat 5)
        \/ (exists evs' : list event,
              evs = repeat (Analyze 0) (num_steps_vertical opts)
                    ++ map Command (lateral_calls opts) ++ evs'
              /\ Forall tuning evs'
              /\ history_lengths r
                 = repeat (num_steps_vertical opts + 2 + converged evs')%nat
                     5)).
Proof.
  intro Hrun. unfold run_ops_analysis in Hrun.
  change (String.eqb (lower "nonproportional_limit_point")
            "proportional_limit_point") with false in Hrun.
  change (String.eqb (lower "nonproportional_limit_point")
            "nonproportional_limit_point") with true in Hrun.
  cbv iota in Hrun. unfold bind at 1 in Hrun. unfold ops at 1 in Hrun.
  unfold nonproportional_limit_point in Hrun. unfold bind at 1 in Hrun.
  unfold vertical_setup in Hrun.
  destruct (fdiv (P opts) (of_Z (Z.of_nat (num_steps_vertical opts))))
    as [v| |] eqn:Hv;
    try (unfold bind, ops, lift in Hrun; cbn [solver log] in Hrun;
         discriminate Hrun).
  unfold bind at 1 2 3 4 5 6 7 8 9 10 11 in Hrun.
  unfold ops, lift in Hrun. cbn [solver log] in Hrun.
  match type of Hrun with
  | context [record_time _ _ _ ?w0] =>
      destruct (record_time_run strain_c strain_s new_results w0)
        as (p & ev & ec & es & Hrec)
  end.
  rewrite Hrec in Hrun. unfold bind at 1 in Hrun.
  match type of Hrun with
  | context [vertical_loop _ _ ?n ?r0 ?w0] =>
      destruct (vertical_loop strain_c strain_s n r0 w0)
        as [[ended| |] w1] eqn:Hloop; try discriminate Hrun
  end.
  exists v. destruct ended as [r1 | r1].
  - inversion Hrun; subst r1 w1.
    destruct (vertical_loop_records strain_c strain_s _ _ _ _ _ Hloop)
      as (evs & Hlog & Hlen & Htune).
    exists evs. split; [reflexivity|]. split.
    + rewrite Hlog. cbn [after_record log map vertical_phase_calls
        vertical_calls app]. rewrite <- !app_assoc. reflexivity.
    + left.
      assert (Hmsg : exit_message r
                     = Some "Analysis Failed In Vertical Loading").
      { destruct (vertical_loop_ends strain_c strain_s (fun _ _ => True)
                    _ _ _ _ 0%nat _ ltac:(unfold kept_by_time_records; auto)
                    Hloop I)
          as (j & r0 & _ & _ & ->).
        reflexivity. }
      split; [exact Hmsg|]. split; [assumption|].
      cbn [results_of] in Hlen. rewrite Hlen. reflexivity.
  - destruct (vertical_loop_next _ _ _ _ _ Hloop) as [Hlog Hlen].
    unfold bind, ops in Hrun. cbn [solver log] in Hrun.
    match type of Hrun with
    | context [record_lateral _ _ _ _ ?w0] =>
        destruct (record_lateral_abs strain_c strain_s opts r1 w0)
          as (f & ev' & ec' & es' & Hrec')
    end.
    rewrite Hrec' in Hrun.
    match type of Hrun with
    | context [lateral_loop _ _ _ ?f ?s ?m ?r0 ?w0] =>
        destruct (lateral_loop strain_c strain_s opts f s m r0 w0)
          as [[r2| |] w2] eqn:Hlat; try discriminate Hrun
    end.
    destruct (lateral_loop_records _ _ _ _ _ _ _ _ _ _ Hlat)
      as (evs' & Hlog' & Hlen' & Htune').
    unfold lift in Hrun. inversion Hrun as [[Hfind Hw]]. subst w2.
    destruct (find_limit_point_ok locate opts _ r Hfind)
      as (tag' & target & i & x & p' & m & _ & _ & ->).
    eexists. split; [reflexivity|]. split.
    + rewrite Hlog'. cbn [after_record log]. rewrite Hlog.
      cbn [after_record log map vertical_phase_calls vertical_calls app
           lateral_calls].
      rewrite <- !app_assoc. cbn [app]. reflexivity.
    + right. exists evs'. split; [reflexivity|]. split; [assumption|].
      change (history_lengths (set_limit_point r2 p' m))
        with (history_lengths r2).
      rewrite Hlen', history_lengths_append, Hlen, history_lengths_append.
      cbn. repeat f_equal; lia.
Qed.

End Traces.

End RunTraces.

(** ** The properties above on sample sections and scripted runs *)

Module Samples.
Import Material StrainCompatibility EngineObjects PyFloat Ops Controller
  Scripted Steady.
Import MaterialSpec EngineSpec ControllerSpec StressSpec ObjectSpec RunSpec.
Import MaterialFacts EngineFacts ControllerFacts.
Import MaterialEdges EngineLaws EngineBounds EngineAxis EngineEdges
  EngineObjectFacts ControllerInvariants ControllerLoops ControllerRuns
  ControllerHistory SweepFacts TraceFacts MonitorFacts RunTraces.
Local Open Scope string_scope.
Local Open Scope list_scope.

Lemma mixed_section_sound : sound mixed_section.
Proof.
  intros i [<- | [<- | []]]; eexists; (split; [reflexivity|]); cbn.
  - split; [now left | discriminate].
  - split; reflexivity.
Qed.

Lemma mixed_section_areas :
  Forall (fun f => (0 <= fA f)%Q) (fibers mixed_section).
Proof. repeat constructor; discriminate. Qed.

Lemma fiber_stresses_by_material_witness :
  exists stress : list Q,
    fiber_stresses mixed_section [0.0015; - 0.0015; 9 # 5000; 0]%Q = Ok stress
    /\ length stress = length (fibers mixed_section)
    /\ forall (j : nat) (f : Fiber) (s : Q),
         nth_error (fibers mixed_section) j = Some f ->
         nth_error [0.0015; - 0.0015; 9 # 5000; 0]%Q j = Some s ->
         exists t : Q,
           nth_error stress j = Some t
           /\ (In (fm f) (uniq_mats mixed_section) ->
               exists mat : material,
                 materials mixed_section !! fm f = Some mat
                 /\ get_stress mat [s] = Ok [t])
           /\ (~ In (fm f) (uniq_mats mixed_section) -> t = 0%Q).
Proof.
  apply (fiber_stresses_by_material mixed_section
           [0.0015; - 0.0015; 9 # 5000; 0]%Q).
  - exact (sound_registry_ok mixed_section mixed_section_sound).
  - reflexivity.
Defined.


Lemma no_compression_gives_tension_witness : (0 <= 60)%Q.
Proof.
  apply (no_compression_gives_tension sin0 cos0 mixed_section 0 20 0
           10 60 (-480 # 4) 0 0.005 mixed_section_sound mixed_section_areas).
  - vm_compute. reflexivity.
  - discriminate.
  - vm_compute. reflexivity.
Defined.



Lemma boundary_points_move_the_edges_witness :
  exists e' : AciStrainCompatibility,
    engine_of (add_concrete_boundary 0 0 0 0 two_engines) 0 = Some e'
    /\ extreme_concrete_compression_fiber sin0 cos0 e' 0 5 0
       = Ok (match extreme_concrete_compression_fiber sin0 cos0 first_engine
                     0 5 0 with
             | Ok yc => Qmin yc (dist sin0 cos0 0 5 0 0 0 - 0)
             | _ => (dist sin0 cos0 0 5 0 0 0 - 0)%Q
             end)
    /\ (forall yc yc' : Q,
          extreme_concrete_compression_fiber sin0 cos0 first_engine 0 5 0
          = Ok yc ->
          extreme_concrete_compression_fiber sin0 cos0 e' 0 5 0 = Ok yc' ->
          (yc' <= yc)%Q)
    /\ extreme_steel_tension_fiber sin0 cos0 e' 0 5 0
       = extreme_steel_tension_fiber sin0 cos0 first_engine 0 5 0.
Proof.
  apply (proj1 (boundary_points_move_the_edges sin0 cos0 0 5 0 two_engines
                  0 0 0 0 first_engine eq_refl)).
Defined.

Lemma materials_are_shared_witness :
  (exists o : material_object,
     _materials
       (mkHeap (<[7%Z := SteelObject (Float 60) (Float 29000)]>
                  (_materials two_engines)) (engines two_engines)) !! 7%Z
     = Some o
     /\ forall (mat : material) (e : AciStrainCompatibility),
          typed o = Some mat -> engine_of two_engines 1 = Some e ->
          engine_of
            (mkHeap (<[7%Z := SteelObject (Float 60) (Float 29000)]>
                       (_materials two_engines)) (engines two_engines)) 1
          = Some (with_material e 7 mat)
          /\ materials (with_material e 7 mat) !! 7%Z = Some mat)
  /\ engine_of (add_concrete_boundary 0 0 0 0 two_engines) 1
     = engine_of two_engines 1.
Proof.
  split.
  - destruct (proj1 (materials_are_shared two_engines 0 1) 7%Z
                (OfName "Steel") [Float 60; Float 29000]
                (mkHeap (<[7%Z := SteelObject (Float 60) (Float 29000)]>
                           (_materials two_engines)) (engines two_engines))
                eq_refl)
      as (o & Ho & _ & _ & Hall).
    exists o. split; [exact Ho | exact Hall].
  - assert (Hne : 0%nat <> 1%nat) by discriminate.
    exact (proj1 (proj2 (materials_are_shared two_engines 0 1) Hne 0 0 0)%Q).
Defined.

Lemma add_material_reads_witness :
  add_material 0 7 (OfName "Steel") [Float 60] two_engines = Raise IndexError
  /\ add_material 0 7 (OfName "wood") [Float 60; Float 29000] two_engines
     = Raise (ValueError "Unknown material type: wood").
Proof.
  split.
  - apply (proj1 (proj2 (add_material_reads two_engines 0 7 [Float 60]))
             "Steel").
    left. reflexivity.
  - apply (proj2 (proj2 (add_material_reads two_engines 0 7
                           [Float 60; Float 29000])) "wood");
      discriminate.
Defined.

Lemma without_smaller_steps_witness :
  exists (ok : Z) (w' : world script),
    proportional_increment plain_retries (Fin 1) (start [1; 1; 0]%Z [])
    = (Ok (ok, Fin 1), w')
    /\ climbs (algorithm_ladder (Fin (1 # 100))) (Fin 1)
         (start [1; 1; 0]%Z []) w' ok (Fin 1).
Proof.
  exact (proj1 (without_smaller_steps plain_retries eq_refl (Fin 1)
                  (start [1; 1; 0]%Z []))).
Defined.

Lemma history_stays_aligned_witness :
  exists (r : AnalysisResults) (w' : world script),
    run_ops_analysis flat_strain flat_strain first_step threshold_minus_one
      "NonProportional_Limit_Point" 5
      (start [] [Fin 1; Fin 1; Fin 1; Fin 1; Fin (- (1 # 2))]) = (Ok r, w')
    /\ exists k : nat,
         (1 <= k)%nat /\ history_lengths r = [k; k; k; k; k]
         /\ extreme_comp_strain r = [].
Proof.
  do 2 eexists. split; [vm_compute; reflexivity|].
  eapply (history_stays_aligned flat_strain flat_strain first_step
            threshold_minus_one "NonProportional_Limit_Point" 5 _
            (start [] [Fin 1; Fin 1; Fin 1; Fin 1; Fin (- (1 # 2))])).
  vm_compute. reflexivity.
Defined.


Lemma unknown_analysis_type_witness :
  exists w' : world script,
    run_ops_analysis flat_strain flat_strain first_step default_options
      "Pushover" 5 (start [] [])
    = (Raise (ValueError "Analysis type Pushover not implemented"), w')
    /\ log w' = log (start [] []) ++ [Command (build_ops_model 1)].
Proof.
  apply (proj1 (unknown_analysis_type flat_strain flat_strain first_step
                  default_options "Pushover" 5 (start [] [])));
    discriminate.
Defined.

Lemma no_vertical_steps_witness :
  exists w' : world script,
    run_ops_analysis flat_strain flat_strain first_step zero_steps
      "nonproportional_limit_point" 5 (start [] [])
    = (Raise ZeroDivisionError, w')
    /\ log w' = log (start [] []) ++ map Command vertical_calls.
Proof.
  apply (no_vertical_steps flat_strain flat_strain first_step zero_steps 5
           (start [] []) eq_refl).
Defined.

Lemma no_limits_unmonitored : unmonitored no_limits.
Proof. repeat split. Qed.

Lemma unmonitored_run_ends_by_failure_only_witness :
  (exists w' : world nat,
     run_ops_analysis flat_strain flat_strain first_step no_limits
       "proportional_limit_point" 3 (mkWorld 0%nat []) = (Diverged, w'))
  /\ exists w' : world nat,
       run_ops_analysis flat_strain flat_strain first_step no_limits
         "nonproportional_limit_point" 3 (mkWorld 0%nat []) = (Diverged, w').
Proof.
  destruct (proj2 (@unmonitored_run_ends_by_failure_only nat steady_solver
                     flat_strain flat_strain first_step no_limits
                     no_limits_unmonitored)
              (fun s : nat => eq_refl) 3%nat (mkWorld 0%nat [])) as [Hp Hn].
  split; [exact Hp|]. apply Hn. cbn. lia.
Defined.

Lemma lateral_reset_installs_load_control_witness :
  exists (r' : AnalysisResults) (w' : world script),
    lateral_loop flat_strain flat_strain default_options 3 (Fin 1) (Fin 0)
      new_results (start [] [Fin (-1)]) = (Ok r', w')
    /\ (exit_message r' = Some "Analysis Failed"
        \/ exists (evs : list event) (k : nat),
             log w'
             = log (start [] [Fin (-1)]) ++ evs
               ++ reset_calls (Nat.iter k (fun s => fdiv_lit s 10) (Fin 1))).
Proof.
  do 2 eexists. split; [vm_compute; reflexivity|].
  eapply (lateral_reset_installs_load_control flat_strain flat_strain
            default_options 3 (Fin 1) (Fin 0) new_results _
            (start [] [Fin (-1)])).
  vm_compute. reflexivity.
Defined.

Lemma nonproportional_history_witness :
  exists (r : AnalysisResults) (w' : world script),
    run_ops_analysis flat_strain flat_strain first_step threshold_minus_one
      "nonproportional_limit_point" 5
      (start [] [Fin 1; Fin 1; Fin 1; Fin 1; Fin (- (1 # 2))]) = (Ok r, w')
    /\ ((exit_message r = Some "Analysis Failed In Vertical Loading"
         /\ all_zero (maximum_abs_moment r)
         /\ (length (maximum_abs_moment r)
             <= num_steps_vertical threshold_minus_one)%nat)
        \/ (exists (tag : ExitCondition) (times moments : list pyfloat),
              exit_message r = Some (exit_message_of tag)
              /\ length times
                 = Datatypes.S (num_steps_vertical threshold_minus_one)
              /\ (1 <= length moments)%nat
              /\ applied_axial_load r
                 = times ++ repeat (P threshold_minus_one) (length moments)
              /\ maximum_abs_moment r
                 = repeat (Fin 0)
                     (Datatypes.S (num_steps_vertical threshold_minus_one))
                   ++ moments
              /\ Forall is_abs moments)).
Proof.
  do 2 eexists. split; [vm_compute; reflexivity|].
  eapply (nonproportional_history flat_strain flat_strain first_step
            threshold_minus_one 5 _
            (start [] [Fin 1; Fin 1; Fin 1; Fin 1; Fin (- (1 # 2))])).
  vm_compute. reflexivity.
Defined.

Lemma interaction_moments_not_negative_witness :
  exists (Ps Ms : list pyfloat) (w' : world script),
    run_ops_interaction flat_strain flat_strain first_step 3 (Fin 1)
      (Fin (1 # 100)) 5
      (start [0; 0; 1; 1; 1; 1; 1; 1; 1; 1; 1; 1; 1]%Z []) = (Ok (Ps, Ms), w')
    /\ Forall not_negative Ms.
Proof.
  do 3 eexists. split; [vm_compute; reflexivity|].
  eapply (interaction_moments_not_negative flat_strain flat_strain first_step
            3 5 (Fin 1) (Fin (1 # 100))
            (start [0; 0; 1; 1; 1; 1; 1; 1; 1; 1; 1; 1; 1]%Z [])).
  vm_compute. reflexivity.
Defined.

Lemma vertical_failure_gives_zero_moment_witness :
  exists (r : AnalysisResults) (w' : world script),
    run_ops_analysis flat_strain flat_strain first_step ten_steps
      "nonproportional_limit_point" 0 (start [0; 0; 1]%Z []) = (Ok r, w')
    /\ py_max (maximum_abs_moment r) = Ok (Fin 0).
Proof.
  do 2 eexists. split; [vm_compute; reflexivity|].
  eapply (vertical_failure_gives_zero_moment flat_strain flat_strain
            first_step ten_steps 0 _ (start [0; 0; 1]%Z [])).
  - vm_compute. reflexivity.
  - reflexivity.
Defined.

Lemma sweep_axial_loads_witness :
  exists (Ps Ms : list pyfloat) (w' : world script),
    run_ops_interaction flat_strain flat_strain first_step 3 (Fin 1)
      (Fin (1 # 100)) 5
      (start [0; 0; 1; 1; 1; 1; 1; 1; 1; 1; 1; 1; 1]%Z []) = (Ok (Ps, Ms), w')
    /\ exists top : pyfloat,
         nth_error Ps 0 = Some top
         /\ length Ps = Datatypes.S (3 - 1)
         /\ length Ms = length Ps
         /\ (forall (q : Q) (i : nat) (iP : pyfloat),
               top = Fin q -> (1 <= i)%nat -> nth_error Ps i = Some iP ->
               exists qi : Q,
                 iP = Fin qi
                 /\ (qi == q * inject_Z (Z.of_nat 3 - 1 - Z.of_nat i)
                           / inject_Z (Z.of_nat 3 - 1))%Q)
         /\ ((2 <= 3)%nat ->
             nth_error Ps (3 - 1)
             = Some (if is_finite top then Fin 0 else NaN)).
Proof.
  do 3 eexists. split; [vm_compute; reflexivity|].
  eapply (sweep_axial_loads flat_strain flat_strain first_step 3 5 (Fin 1)
            (Fin (1 # 100))
            (start [0; 0; 1; 1; 1; 1; 1; 1; 1; 1; 1; 1; 1]%Z [])).
  vm_compute. reflexivity.
Defined.

Lemma one_record_for_each_converged_increment_witness :
  exists (ended : flow) (w' : world script) (evs : list event),
    vertical_loop flat_strain flat_strain 3 new_results (start [0; 0; 1]%Z [])
    = (Ok ended, w')
    /\ log w' = log (start [0; 0; 1]%Z []) ++ evs
    /\ history_lengths (results_of ended)
       = map (fun len => len + converged evs)%nat
           (history_lengths new_results).
Proof.
  do 2 eexists.
  assert (Hrun : vertical_loop flat_strain flat_strain 3 new_results
                   (start [0; 0; 1]%Z [])
                 = (Ok (Return
                          (set_exit_message
                             (append_record
                                (append_record new_results (Fin 0) (Fin 0)
                                   (Fin 1) (Fin 0) (Fin 0))
                                (Fin 0) (Fin 0) (Fin 1) (Fin 0) (Fin 0))
                             "Analysis Failed In Vertical Loading")),
                    mkWorld (mkScript [] [] (Fin 0) (Fin 0))
                      [Analyze 0; Analyze 0; Analyze 1]))
    by (vm_compute; reflexivity).
  destruct (proj1 (proj2 (one_record_for_each_converged_increment
                            flat_strain flat_strain default_options))
              3%nat new_results (start [0; 0; 1]%Z []) _ _ Hrun)
    as (evs & Hlog & Hlen).
  exists evs. split; [exact Hrun|]. split; assumption.
Defined.

Lemma loops_only_tune_the_solver_witness :
  exists (r' : AnalysisResults) (w' : world script) (evs : list event),
    lateral_loop flat_strain flat_strain default_options 3 (Fin 1) (Fin 0)
      new_results (start [1; 0]%Z [Fin (-1)]) = (Ok r', w')
    /\ log w' = log (start [1; 0]%Z [Fin (-1)]) ++ evs
    /\ Forall tuning evs.
Proof.
  destruct (lateral_loop flat_strain flat_strain default_options 3 (Fin 1)
              (Fin 0) new_results (start [1; 0]%Z [Fin (-1)]))
    as [[r'| |] w'] eqn:Hrun; try (vm_compute in Hrun; discriminate Hrun).
  destruct (proj2 (proj2 (loops_only_tune_the_solver flat_strain flat_strain
                            default_options))
              3%nat (Fin 1) (Fin 0) new_results r' _ w' Hrun)
    as (evs & Hlog & Htune).
  exists r', w', evs. split; [reflexivity|]. split; assumption.
Defined.

Lemma load_drop_monitor_witness :
  snd (lateral_monitors default_options (Fin 0) (Fin (-1)) new_results)
  = Some "Load Drop Limit Reached"
  /\ (last_of (applied_axial_load new_results) = Fin (-1) ->
      snd (proportional_monitors default_options (Fin 0) new_results)
      = Some "Load Drop Limit Reached").
Proof.
  apply (proj2 (load_drop_monitor default_options (5 # 100) new_results
                  eq_refl) (-1)%Q).
  reflexivity.
Defined.

Lemma proportional_run_trace_witness :
  exists (r : AnalysisResults) (w' : world script),
    run_ops_analysis flat_strain flat_strain first_step default_options
      "proportional_limit_point" 5
      (start [0; 0; 1; 1; 1; 1; 1; 1; 1; 1; 1]%Z []) = (Ok r, w')
    /\ exists (st0 : Z) (evs : list event),
         log w'
         = log (start [0; 0; 1; 1; 1; 1; 1; 1; 1; 1; 1]%Z [])
           ++ map Command (proportional_calls default_options)
           ++ Analyze st0 :: evs
         /\ Forall tuning evs
         /\ history_lengths r = repeat (1 + converged evs)%nat 5.
Proof.
  do 2 eexists. split; [vm_compute; reflexivity|].
  eapply (proportional_run_trace flat_strain flat_strain first_step
            default_options 5 _
            (start [0; 0; 1; 1; 1; 1; 1; 1; 1; 1; 1]%Z []) _).
  vm_compute. reflexivity.
Defined.

Lemma nonproportional_run_trace_witness :
  exists (r : AnalysisResults) (w' : world script),
    run_ops_analysis flat_strain flat_strain first_step threshold_minus_one
      "nonproportional_limit_point" 5
      (start [] [Fin 1; Fin 1; Fin 1; Fin 1; Fin (- (1 # 2))]) = (Ok r, w')
    /\ exists (v : pyfloat) (evs : list event),
         fdiv (P threshold_minus_one)
           (of_Z (Z.of_nat (num_steps_vertical threshold_minus_one))) = Ok v
         /\ log w'
            = log (start [] [Fin 1; Fin 1; Fin 1; Fin 1; Fin (- (1 # 2))])
              ++ map Command (vertical_phase_calls v) ++ evs
         /\ ((exit_message r = Some "Analysis Failed In Vertical Loading"
              /\ Forall tuning evs
              /\ history_lengths r = repeat (1 + converged evs)%nat 5)
             \/ (exists evs' : list event,
                   evs = repeat (Analyze 0)
                           (num_steps_vertical threshold_minus_one)
                         ++ map Command (lateral_calls threshold_minus_one)
                         ++ evs'
                   /\ Forall tuning evs'
                   /\ history_lengths r
                      = repeat (num_steps_vertical threshold_minus_one + 2
                                + converged evs')%nat 5)).
Proof.
  do 2 eexists. split; [vm_compute; reflexivity|].
  eapply (nonproportional_run_trace flat_strain flat_strain first_step
            threshold_minus_one 5 _
            (start [] [Fin 1; Fin 1; Fin 1; Fin 1; Fin (- (1 # 2))]) _).
  vm_compute. reflexivity.
Defined.

End Samples.
